(** * Goal-replay link resolution (package [reddit]): model and properties

  A shallow embedding of the Reddit client of golazo: the adaptive rate
  limiter, the two search fetchers, the OAuth token lifecycle and the
  caching [Client] facade, followed by the properties established for
  them.  Times are nanosecond counts ([Z]), [time.Duration] is a 64-bit
  signed count of nanoseconds, Go strings are byte strings, and Go errors
  are represented by their message text. *)

From Stdlib Require Import ZArith Lia List Bool Ascii String.
From stdpp Require Import base gmap strings list pretty.

Local Open Scope Z_scope.

(** ** Durations and instants (package [time]) *)

Module GoTime.

Definition Nanosecond : Z := 1.
Definition Second : Z := 1000000000.
Definition Minute : Z := 60 * Second.
Definition Hour : Z := 60 * Minute.

Definition minDuration : Z := - 2 ^ 63.
Definition maxDuration : Z := 2 ^ 63 - 1.

(** Two's-complement wrap-around of a 64-bit signed integer. *)
Definition wrap64 (z : Z) : Z := (z + 2 ^ 63) mod 2 ^ 64 - 2 ^ 63.

(** The zero [time.Time] (January 1, year 1, 00:00 UTC), as nanoseconds
    relative to the Unix epoch. *)
Definition zeroTime : Z := -62135596800 * Second.

(** [t.Sub(u)]: the difference, saturated to the range of [Duration]. *)
Definition Sub (t u : Z) : Z :=
  if t - u <? minDuration then minDuration
  else if maxDuration <? t - u then maxDuration
  else t - u.

(** [time.Since(t)] read on a clock that shows [now]. *)
Definition Since (now t : Z) : Z := Sub now t.

(** [time.Sleep(d)]: a negative or zero duration returns at once. *)
Definition Sleep (d : Z) (now : Z) : Z := now + Z.max 0 d.

(** [t.Unix()]: whole seconds since the epoch. *)
Definition Unix (t : Z) : Z := t `div` Second.

End GoTime.

(** ** Runes and their encoding (package [unicode/utf8]) *)

Module Utf8.

Definition RuneError : Z := 65533.
Definition RuneSelf : Z := 128.
Definition MaxRune : Z := 1114111.

(** A byte of a Go string as a number, the conversion [byte(x)], and the
    indexing [s[i]]. *)
Definition byteVal (c : ascii) : Z := Z.of_N (Ascii.N_of_ascii c).
Definition byteOf (x : Z) : ascii := Ascii.ascii_of_N (Z.to_N (x mod 256)).
Definition index (s : string) (i : nat) : Z :=
  match String.get i s with Some c => byteVal c | None => 0 end.

(** The table [first] with [acceptRanges]: for a leading byte above ASCII,
    the length of the encoding it starts and the range its second byte must
    lie in; [None] for the bytes that start no encoding. *)
Definition first (s0 : Z) : option (nat * Z * Z) :=
  if s0 <? 194 then None
  else if s0 <? 224 then Some (2%nat, 128, 191)
  else if s0 =? 224 then Some (3%nat, 160, 191)
  else if s0 <? 237 then Some (3%nat, 128, 191)
  else if s0 =? 237 then Some (3%nat, 128, 159)
  else if s0 <? 240 then Some (3%nat, 128, 191)
  else if s0 =? 240 then Some (4%nat, 144, 191)
  else if s0 <? 244 then Some (4%nat, 128, 191)
  else if s0 =? 244 then Some (4%nat, 128, 143)
  else None.

Definition locb : Z := 128.
Definition hicb : Z := 191.

(** [utf8.DecodeRuneInString]: the rune at the head of [s] and its width in
    bytes; a byte that starts no valid encoding is [RuneError] of width 1. *)
Definition DecodeRuneInString (s : string) : Z * nat :=
  let n := String.length s in
  if (n <? 1)%nat then (RuneError, 0%nat)
  else
    let s0 := index s 0 in
    if s0 <? RuneSelf then (s0, 1%nat)
    else
      match first s0 with
      | None => (RuneError, 1%nat)
      | Some (sz, lo, hi) =>
          if (n <? sz)%nat then (RuneError, 1%nat)
          else
            let s1 := index s 1 in
            if (s1 <? lo) || (hi <? s1) then (RuneError, 1%nat)
            else if (sz <=? 2)%nat then
              (Z.lor (Z.shiftl (Z.land s0 31) 6) (Z.land s1 63), 2%nat)
            else
              let s2 := index s 2 in
              if (s2 <? locb) || (hicb <? s2) then (RuneError, 1%nat)
              else if (sz <=? 3)%nat then
                (Z.lor (Z.lor (Z.shiftl (Z.land s0 15) 12) (Z.shiftl (Z.land s1 63) 6))
                   (Z.land s2 63), 3%nat)
              else
                let s3 := index s 3 in
                if (s3 <? locb) || (hicb <? s3) then (RuneError, 1%nat)
                else
                  (Z.lor (Z.lor (Z.lor (Z.shiftl (Z.land s0 7) 18)
                                   (Z.shiftl (Z.land s1 63) 12))
                            (Z.shiftl (Z.land s2 63) 6))
                     (Z.land s3 63), 4%nat)
      end.

(** [utf8.AppendRune] on an empty buffer: the encoding of [r]; a value that
    is no rune (negative, a surrogate, above [MaxRune]) is encoded as
    [RuneError]. *)
Definition AppendRune (r : Z) : string :=
  let three (r : Z) :=
    String (byteOf (Z.lor 224 (Z.shiftr r 12)))
      (String (byteOf (Z.lor 128 (Z.land (Z.shiftr r 6) 63)))
         (String (byteOf (Z.lor 128 (Z.land r 63))) EmptyString)) in
  if (0 <=? r) && (r <=? 127) then String (byteOf r) EmptyString
  else if (0 <=? r) && (r <=? 2047) then
    String (byteOf (Z.lor 192 (Z.shiftr r 6)))
      (String (byteOf (Z.lor 128 (Z.land r 63))) EmptyString)
  else if (r <? 0) || (MaxRune <? r) || ((55296 <=? r) && (r <=? 57343))
  then three RuneError
  else if r <=? 65535 then three r
  else
    String (byteOf (Z.lor 240 (Z.shiftr r 18)))
      (String (byteOf (Z.lor 128 (Z.land (Z.shiftr r 12) 63)))
         (String (byteOf (Z.lor 128 (Z.land (Z.shiftr r 6) 63)))
            (String (byteOf (Z.lor 128 (Z.land r 63))) EmptyString))).

End Utf8.

(** ** Letter case (package [unicode]) *)

Module Unicode.

Definition MaxASCII : Z := 127.

(** [unicode.ToLower]: the letters [A]-[Z] are folded by the function
    itself; above ASCII the answer is [unicode.To(unicode.LowerCase, r)],
    read from the case tables of the Go release, which are the parameter
    [table]. *)
Definition ToLower (table : Z -> Z) (r : Z) : Z :=
  if r <=? MaxASCII then
    if (65 <=? r) && (r <=? 90) then r + 32 else r
  else table r.

(** Two rows of the case tables, for the samples: the Kelvin sign and the
    capital I with a dot above lower to the ASCII letters [k] and [i]. *)
Definition sampleTable (r : Z) : Z :=
  if r =? 8490 then 107 else if r =? 304 then 105 else r.

End Unicode.

(** ** Byte-string helpers (package [strings]) *)

Module Strings.
Import Utf8.

Fixpoint HasPrefix (s p : string) : bool :=
  match p, s with
  | EmptyString, _ => true
  | String c p', String d s' => if Ascii.eqb c d then HasPrefix s' p' else false
  | String _ _, EmptyString => false
  end.

(** [strings.Contains(s, substr)]. *)
Fixpoint Contains (s substr : string) : bool :=
  if HasPrefix s substr then true
  else match s with
       | EmptyString => false
       | String _ s' => Contains s' substr
       end.

Definition lowerByte (c : ascii) : ascii :=
  let n := Ascii.N_of_ascii c in
  if ((65 <=? n) && (n <=? 90))%N then Ascii.ascii_of_N (n + 32) else c.

(** The loop of [strings.ToLower] for a string of ASCII bytes: the letters
    [A]-[Z] are folded, every other byte is kept. *)
Fixpoint foldASCII (s : string) : string :=
  match s with
  | EmptyString => EmptyString
  | String c s' => String (lowerByte c) (foldASCII s')
  end.

(** The scan of [strings.ToLower] for a byte at or above [utf8.RuneSelf]. *)
Fixpoint isASCII (s : string) : bool :=
  match s with
  | EmptyString => true
  | String c s' => (byteVal c <? RuneSelf) && isASCII s'
  end.

(** The runes of [s] from its head on, after [skip] bytes that belong to
    the rune before: each rune is replaced by the encoding of its image, or
    dropped when the image is negative. *)
Fixpoint mapFrom (mapping : Z -> Z) (skip : nat) (s : string) : string :=
  match s with
  | EmptyString => EmptyString
  | String _ s' =>
      match skip with
      | S k => mapFrom mapping k s'
      | O =>
          let (c, width) := DecodeRuneInString s in
          let r := mapping c in
          (if 0 <=? r then AppendRune r else EmptyString)
          +:+ mapFrom mapping (width - 1) s'
      end
  end.

(** [strings.Map(mapping, s)].  The source copies the input up to the first
    rune that changes and maps the runes from there on; the string built is
    the same. *)
Definition Map (mapping : Z -> Z) (s : string) : string := mapFrom mapping 0 s.

(** [strings.ToLower(s)]: the ASCII path, and [Map(unicode.ToLower, s)] for
    a string with a byte above ASCII. *)
Definition ToLower (table : Z -> Z) (s : string) : string :=
  if isASCII s then foldASCII s else Map (Unicode.ToLower table) s.

End Strings.

(** ** The adaptive rate limiter *)

Module Limiter.
Import GoTime.

Record rateLimiter := mkRateLimiter {
  lastRequest : Z;
  minInterval : Z;
  captchaCount : Z;
  lastCaptchaTime : Z;
  userAgentIndex : Z
}.

(** [time.Minute / time.Duration(requestsPerMinute)]; the integer division
    panics on a zero divisor, which is the [None] here. *)
Definition newRateLimiter (requestsPerMinute : Z) : option rateLimiter :=
  if requestsPerMinute =? 0 then None
  else Some {| lastRequest := zeroTime;
               minInterval := Z.quot Minute requestsPerMinute;
               captchaCount := 0;
               lastCaptchaTime := zeroTime;
               userAgentIndex := 0 |}.

(** The interval [wait] enforces at clock reading [now]. *)
Definition currentInterval (r : rateLimiter) (now : Z) : Z :=
  if (0 <? captchaCount r) && (Since now (lastCaptchaTime r) <? 10 * Minute)
  then wrap64 (minInterval r * 2)
  else minInterval r.

(** [wait]: returns the limiter and the clock reading at return. *)
Definition wait (r : rateLimiter) (now : Z) : rateLimiter * Z :=
  let elapsed := Since now (lastRequest r) in
  let cur := currentInterval r now in
  let now' := if elapsed <? cur then Sleep (wrap64 (cur - elapsed)) now else now in
  ({| lastRequest := now';
      minInterval := minInterval r;
      captchaCount := captchaCount r;
      lastCaptchaTime := lastCaptchaTime r;
      userAgentIndex := userAgentIndex r |}, now').

Definition recordCaptchaError (r : rateLimiter) (now : Z) : rateLimiter :=
  {| lastRequest := lastRequest r;
     minInterval := minInterval r;
     captchaCount := wrap64 (captchaCount r + 1);
     lastCaptchaTime := now;
     userAgentIndex := userAgentIndex r |}.

Definition userAgents : list string :=
  [ "golazo:v1.0.0 (by /u/golazo_app)";
    "Mozilla/5.0 (Macintosh; Intel Mac OS X 10_15_7) AppleWebKit/537.36 (KHTML, like Gecko) Chrome/119.0.0.0 Safari/537.36";
    "Mozilla/5.0 (Windows NT 10.0; Win64; x64) AppleWebKit/537.36 (KHTML, like Gecko) Chrome/119.0.0.0 Safari/537.36";
    "Mozilla/5.0 (X11; Linux x86_64) AppleWebKit/537.36 (KHTML, like Gecko) Chrome/119.0.0.0 Safari/537.36";
    "Mozilla/5.0 (Macintosh; Intel Mac OS X 10_15_7) AppleWebKit/605.1.15 (KHTML, like Gecko) Version/17.1 Safari/605.1.15" ]%string.

(** [getNextUserAgent]: indexing outside the slice panics ([None]); [%] is
    Go's truncated remainder. *)
Definition getNextUserAgent (r : rateLimiter) : option (string * rateLimiter) :=
  let len := Z.of_nat (length userAgents) in
  if (0 <=? userAgentIndex r) && (userAgentIndex r <? len) then
    agent ← userAgents !! Z.to_nat (userAgentIndex r);
    Some (agent,
          {| lastRequest := lastRequest r;
             minInterval := minInterval r;
             captchaCount := captchaCount r;
             lastCaptchaTime := lastCaptchaTime r;
             userAgentIndex := Z.rem (userAgentIndex r + 1) len |})
  else None.

(** A caller's view of a limiter over time: the clock moves on by itself
    ([OpTick]), a request asks for permission ([OpWait]), a challenge page
    is observed ([OpAbuse]). *)
Inductive op := OpTick (d : Z) | OpWait | OpAbuse.

(** Runs the operations in order; the result lists the clock readings at
    which the [wait] calls returned, oldest first. *)
Fixpoint run (ops : list op) (r : rateLimiter) (now : Z) : rateLimiter * Z * list Z :=
  match ops with
  | [] => (r, now, [])
  | OpTick d :: ops' => run ops' r (now + d)
  | OpWait :: ops' =>
      let '(r1, now1) := wait r now in
      let '(r2, now2, ts) := run ops' r1 now1 in
      (r2, now2, now1 :: ts)
  | OpAbuse :: ops' => run ops' (recordCaptchaError r now) now
  end.

(** [n] consecutive [getNextUserAgent] calls, with the agents returned. *)
Fixpoint nextUserAgents (n : nat) (r : rateLimiter) : option (list string * rateLimiter) :=
  match n with
  | O => Some ([], r)
  | S n' =>
      '(agent, r1) ← getNextUserAgent r;
      '(agents, r2) ← nextUserAgents n' r1;
      Some (agent :: agents, r2)
  end.

End Limiter.

(** ** Data of the goal-link client *)

Definition error := string.

Module GoalInfo.
(** Modelled from the spec: [GoalInfo] is declared in another file of the
    package; these are the fields of the goal event of the data model, under
    the names the client reads them by. *)
Record t := mk {
  MatchID : Z;
  Minute : Z;
  HomeTeam : string;
  AwayTeam : string;
  IsHomeTeam : bool;
  MatchTime : Z
}.
End GoalInfo.

Module SearchResult.
(** Modelled from the spec: [SearchResult] is declared in another file of
    the package; a hit has a link URL, a title, a post URL and a flair. *)
Record t := mk {
  URL : string;
  Title : string;
  PostURL : string;
  Flair : string
}.
End SearchResult.

Module GoalLink.
(** Modelled from the spec: [GoalLink] is declared in another file of the
    package; these are the fields [searchForGoalOnce] fills in. *)
Record t := mk {
  MatchID : Z;
  Minute : Z;
  URL : string;
  Title : string;
  PostURL : string;
  FetchedAt : Z
}.
End GoalLink.

(** [GoalLinkKey{MatchID, Minute}]. *)
Abbreviation GoalLinkKey := (Z * Z)%type (only parsing).

(** ** The goal-link cache *)

Module GoalLinkCache.

(** Modelled from the spec: [GoalLinkCache], its methods and [IsNotFound]
    are declared in another file of the package.  An entry is the tagged
    outcome of the data model, [Found] with the link or the [NotFound]
    marker; lookups are by exact key, the two setters write the entry of the
    key ([SetFound] stands for the method [Set]), the clear operations
    remove entries. *)
Inductive ResolutionOutcome :=
| Found (link : GoalLink.t)
| NotFound.

Abbreviation t := (gmap GoalLinkKey ResolutionOutcome) (only parsing).

Definition Get (cache : t) (key : GoalLinkKey) : option ResolutionOutcome :=
  cache !! key.

Definition IsNotFound (entry : ResolutionOutcome) : bool :=
  match entry with NotFound => true | Found _ => false end.

Definition SetFound (link : GoalLink.t) (cache : t) : t :=
  <[(GoalLink.MatchID link, GoalLink.Minute link) := Found link]> cache.

Definition SetNotFound (matchID minute : Z) (cache : t) : t :=
  <[(matchID, minute) := NotFound]> cache.

Definition ClearOne (key : GoalLinkKey) (cache : t) : t := delete key cache.

Definition Clear (cache : t) : t := ∅.

End GoalLinkCache.

(** ** The client facade *)

Module Client.
Import GoalLinkCache.

Inductive Channel := OAuthChannel | PublicChannel.

(** What the client does to the outside world, oldest first: a [Search]
    call on a fetcher and a [time.Sleep]. *)
Inductive Event :=
| EvSearch (ch : Channel) (query : string) (limit : Z) (matchTime : Z)
| EvSleep (d : Z).

(** The [Fetcher] interface.  What a [Search] call answers may depend on
    everything that happened before it. *)
Record Fetcher := mkFetcher {
  channel : Channel;
  Search : list Event -> string -> Z -> Z -> list SearchResult.t * option error
}.

(** The [*OAuthClient] as the client uses it. *)
Record OAuthFetcher := mkOAuthFetcher {
  asFetcher : Fetcher;
  IsAvailable : list Event -> bool
}.

(** The [Client] struct; the cache it points to is part of the state, the
    optional debug logger is left out, and [timeNow] is the wall clock read
    by [time.Now()]. *)
Record t := mk {
  oauthFetcher : option OAuthFetcher;
  publicFetcher : Fetcher;
  timeNow : list Event -> Z
}.

Record State := mkState {
  cache : GoalLinkCache.t;
  trace : list Event
}.

Definition M (A : Type) : Type := State -> A * State.

Definition ret {A} (a : A) : M A := fun st => (a, st).

Definition bind {A B} (m : M A) (k : A -> M B) : M B :=
  fun st => let (a, st') := m st in k a st'.

Notation "x <- m ;; k" := (bind m (fun x => k))
  (at level 100, m at next level, right associativity).
Notation "m ;;; k" := (bind m (fun _ => k))
  (at level 100, right associativity).

Definition callSearch (f : Fetcher) (query : string) (limit matchTime : Z)
  : M (list SearchResult.t * option error) :=
  fun st => (Search f (trace st) query limit matchTime,
             mkState (cache st) (trace st ++ [EvSearch (channel f) query limit matchTime])).

Definition sleep (d : Z) : M unit :=
  fun st => (tt, mkState (cache st) (trace st ++ [EvSleep d])).

Definition now (c : t) : M Z := fun st => (timeNow c (trace st), st).

Definition available (o : OAuthFetcher) : M bool :=
  fun st => (IsAvailable o (trace st), st).

Definition cacheGet (key : GoalLinkKey) : M (option ResolutionOutcome) :=
  fun st => (Get (cache st) key, st).

Definition cacheSet (link : GoalLink.t) : M unit :=
  fun st => (tt, mkState (SetFound link (cache st)) (trace st)).

Definition cacheSetNotFound (matchID minute : Z) : M unit :=
  fun st => (tt, mkState (SetNotFound matchID minute (cache st)) (trace st)).

Definition keyOf (goal : GoalInfo.t) : GoalLinkKey :=
  (GoalInfo.MatchID goal, GoalInfo.Minute goal).

(** [fmt.Sprintf("%s %s %d'", goal.HomeTeam, goal.AwayTeam, goal.Minute)]. *)
Definition query1 (goal : GoalInfo.t) : string :=
  GoalInfo.HomeTeam goal +:+ " " +:+ GoalInfo.AwayTeam goal +:+ " "
  +:+ pretty (GoalInfo.Minute goal) +:+ "'".

(** [fmt.Sprintf("%s %d'", scoringTeam, goal.Minute)]. *)
Definition query2 (goal : GoalInfo.t) : string :=
  let scoringTeam :=
    if GoalInfo.IsHomeTeam goal then GoalInfo.HomeTeam goal else GoalInfo.AwayTeam goal in
  scoringTeam +:+ " " +:+ pretty (GoalInfo.Minute goal) +:+ "'".

Definition linkOf (goal : GoalInfo.t) (m : SearchResult.t) (fetchedAt : Z) : GoalLink.t :=
  {| GoalLink.MatchID := GoalInfo.MatchID goal;
     GoalLink.Minute := GoalInfo.Minute goal;
     GoalLink.URL := SearchResult.URL m;
     GoalLink.Title := SearchResult.Title m;
     GoalLink.PostURL := SearchResult.PostURL m;
     GoalLink.FetchedAt := fetchedAt |}.

(** The loop that removes duplicates based on URL, first occurrence kept. *)
Fixpoint uniqueByURL (seen : gset string) (results : list SearchResult.t)
  : list SearchResult.t :=
  match results with
  | [] => []
  | result :: rest =>
      if decide (SearchResult.URL result ∈ seen) then uniqueByURL seen rest
      else result :: uniqueByURL ({[SearchResult.URL result]} ∪ seen) rest
  end.

Definition BatchSize : nat := 5.
Definition BatchDelay : Z := 2 * GoTime.Second.

Definition maxRetries : Z := 3.
Definition baseDelay : Z := 30 * GoTime.Second.

(** The test that decides whether a failed attempt is tried again. *)
Definition retryable (err : error) : bool :=
  Strings.Contains err "CAPTCHA"
  || Strings.Contains err "blocking requests"
  || Strings.Contains err "rate limit"
  || Strings.Contains err "HTML instead of JSON".

Section WithMatcher.
(** [findBestMatch] is declared in another file of the package; the client
    is modelled for any matcher. *)
Context (findBestMatch : list SearchResult.t -> GoalInfo.t -> option SearchResult.t).

Definition searchForGoalOnce (c : t) (goal : GoalInfo.t) (fetcher : Fetcher)
  : M (option GoalLink.t * option error) :=
  r1 <- callSearch fetcher (query1 goal) 15 (GoalInfo.MatchTime goal) ;;
  let results1 := r1.1 in
  let err1 := r1.2 in
  match (if err1 is None then findBestMatch results1 goal else None) with
  | Some m =>
      fetchedAt <- now c ;;
      ret (Some (linkOf goal m fetchedAt), None)
  | None =>
      let allResults := if err1 is None then results1 else [] in
      r2 <- callSearch fetcher (query2 goal) 15 (GoalInfo.MatchTime goal) ;;
      let results2 := r2.1 in
      let err2 := r2.2 in
      let allResults := if err2 is None then allResults ++ results2 else allResults in
      let uniqueResults := uniqueByURL ∅ allResults in
      match findBestMatch uniqueResults goal with
      | None => ret (None, None)
      | Some m =>
          fetchedAt <- now c ;;
          ret (Some (linkOf goal m fetchedAt), None)
      end
  end.

(** The retry loop of [searchForGoal] on the public fetcher:
    [for attempt := 0; attempt < maxRetries; attempt++], entered with
    [remaining = maxRetries - attempt] iterations left. *)
Fixpoint retryLoop (c : t) (goal : GoalInfo.t) (remaining : nat) (attempt : Z)
  : M (option GoalLink.t * option error) :=
  match remaining with
  | O => ret (None, None)
  | S remaining' =>
      (if 0 <? attempt then sleep (GoTime.wrap64 (attempt * baseDelay)) else ret tt) ;;;
      r <- searchForGoalOnce c goal (publicFetcher c) ;;
      match r.2 with
      | None => ret (r.1, None)
      | Some err =>
          if retryable err && (attempt <? maxRetries - 1)
          then retryLoop c goal remaining' (attempt + 1)
          else ret (None, Some err)
      end
  end.

Definition searchForGoal (c : t) (goal : GoalInfo.t)
  : M (option GoalLink.t * option error) :=
  useOAuth <- match oauthFetcher c with
              | Some o => available o
              | None => ret false
              end ;;
  match oauthFetcher c with
  | Some o =>
      if useOAuth then
        r <- searchForGoalOnce c goal (asFetcher o) ;;
        match r.2 with
        | Some err => ret (None, Some err)
        | None => ret (r.1, None)
        end
      else retryLoop c goal (Z.to_nat maxRetries) 0
  | None => retryLoop c goal (Z.to_nat maxRetries) 0
  end.

(** [GoalLink]; the test [IsNotFound(link)] on a cached entry is the match
    on its tag. *)
Definition GoalLink (c : t) (goal : GoalInfo.t) : M (option GoalLink.t * option error) :=
  let key := keyOf goal in
  cached <- cacheGet key ;;
  match cached with
  | Some NotFound => ret (None, None)
  | Some (Found link) => ret (Some link, None)
  | None =>
      r <- searchForGoal c goal ;;
      match r.2 with
      | Some err => ret (None, Some err)
      | None =>
          match r.1 with
          | Some link => cacheSet link
          | None => cacheSetNotFound (GoalInfo.MatchID goal) (GoalInfo.Minute goal)
          end ;;;
          ret (r.1, None)
      end
  end.

(** The first loop of [GoalLinks]: skips keys already seen, copies cached
    links into [results], and queues the goals the cache knows nothing of. *)
Fixpoint partitionGoals (cache : GoalLinkCache.t) (goals : list GoalInfo.t)
    (seen : gset GoalLinkKey) (results : gmap GoalLinkKey GoalLink.t)
    (uncachedGoals : list GoalInfo.t)
  : gmap GoalLinkKey GoalLink.t * list GoalInfo.t :=
  match goals with
  | [] => (results, uncachedGoals)
  | goal :: rest =>
      let key := keyOf goal in
      if decide (key ∈ seen) then partitionGoals cache rest seen results uncachedGoals
      else
        let seen := {[key]} ∪ seen in
        match Get cache key with
        | Some (Found link) =>
            partitionGoals cache rest seen (<[key := link]> results) uncachedGoals
        | Some NotFound => partitionGoals cache rest seen results uncachedGoals
        | None => partitionGoals cache rest seen results (uncachedGoals ++ [goal])
        end
  end.

(** The inner loop over one batch [uncachedGoals[i:end]]. *)
Fixpoint resolveBatch (c : t) (batch : list GoalInfo.t)
    (results : gmap GoalLinkKey GoalLink.t) : M (gmap GoalLinkKey GoalLink.t) :=
  match batch with
  | [] => ret results
  | goal :: rest =>
      r <- GoalLink c goal ;;
      match r with
      | (Some link, None) => resolveBatch c rest (<[keyOf goal := link]> results)
      | _ => resolveBatch c rest results
      end
  end.

(** The outer loop [for i := 0; i < len(uncachedGoals); i += BatchSize].
    [fuel] bounds the number of iterations; [GoalLinks] passes the length of
    the queue, which the loop cannot exhaust. *)
Fixpoint batchLoop (c : t) (fuel : nat) (uncachedGoals : list GoalInfo.t) (i : nat)
    (results : gmap GoalLinkKey GoalLink.t) : M (gmap GoalLinkKey GoalLink.t) :=
  match fuel with
  | O => ret results
  | S fuel' =>
      if (i <? length uncachedGoals)%nat then
        (if (0 <? i)%nat then sleep BatchDelay else ret tt) ;;;
        let end_ := if (length uncachedGoals <? i + BatchSize)%nat
                    then length uncachedGoals else (i + BatchSize)%nat in
        results' <- resolveBatch c (take (end_ - i) (drop i uncachedGoals)) results ;;
        batchLoop c fuel' uncachedGoals (i + BatchSize) results'
      else ret results
  end.

Definition GoalLinks (c : t) (goals : list GoalInfo.t) : M (gmap GoalLinkKey GoalLink.t) :=
  fun st =>
    let (results, uncachedGoals) := partitionGoals (cache st) goals ∅ ∅ [] in
    batchLoop c (length uncachedGoals) uncachedGoals 0 results st.

End WithMatcher.

End Client.

(** ** The HTTP boundary of the fetchers *)

Module Http.

Inductive Grant :=
| GrantPassword (username password : string)
| GrantRefresh (refreshToken : string).

(** The parts of a search URL and of its headers that vary: the host
    ([www.reddit.com] or [oauth.reddit.com]), the query text, the bounds of
    the timestamp filter, the limit, the user agent and the bearer token. *)
Record SearchRequest := mkSearchRequest {
  reqHost : string;
  reqQuery : string;
  reqStart : Z;
  reqEnd : Z;
  reqLimit : Z;
  reqUserAgent : string;
  reqBearer : option string
}.

Inductive Request :=
| TokenRequest (clientID clientSecret userAgent : string) (grant : Grant)
| SearchReq (r : SearchRequest).

(** A response as the fetchers read it: the status code, the body, and the
    error of reading the body, if any. *)
Record Response := mkResponse {
  StatusCode : Z;
  Body : string;
  ReadErr : option error
}.

(** [OAuthResponse], the decoded token payload. *)
Record OAuthResponse := mkOAuthResponse {
  AccessToken : string;
  RefreshToken : string;
  ExpiresIn : Z;
  TokenType : string
}.

(** What lies outside the package: the answer of [httpClient.Do] to a
    request, given the requests made before it (a transport error or a
    response), the two JSON decodings, of a token payload and of a search
    payload into the [SearchResult] of each child, and the case tables of
    [unicode.ToLower] for the runes above ASCII. *)
Record Env := mkEnv {
  Do : list Request -> Request -> error + Response;
  decodeOAuth : string -> error + OAuthResponse;
  decodeSearch : string -> error + list SearchResult.t;
  lowerCase : Z -> Z
}.

(** The world a fetcher runs in: the clock and the requests made so far,
    oldest first. *)
Record World := mkWorld {
  clock : Z;
  log : list Request
}.

Definition StatusOK : Z := 200.

Definition captchaIndicators : list string :=
  [ "prove your humanity"; "captcha"; "robot"; "automated"; "blocked";
    "rate limit"; "too many requests" ]%string.

Definition isCaptchaResponse (table : Z -> Z) (body : string) : bool :=
  let bodyLower := Strings.ToLower table body in
  existsb (fun indicator => Strings.Contains bodyLower indicator) captchaIndicators.

(** The loop that keeps the posts with Media flair. *)
Definition mediaOnly (results : list SearchResult.t) : list SearchResult.t :=
  List.filter (fun result => String.eqb (SearchResult.Flair result) "Media") results.

(** The bounds of the timestamp filter: one day before and two days after
    the match. *)
Definition startTime (matchTime : Z) : Z := GoTime.Unix (matchTime + (-24) * GoTime.Hour).
Definition endTime (matchTime : Z) : Z := GoTime.Unix (matchTime + 48 * GoTime.Hour).

End Http.

(** ** The public fetcher *)

Module PublicJSONFetcher.
Import Http Limiter.

(** The [PublicJSONFetcher] struct, without its HTTP client. *)
Record t := mk {
  userAgent : string;
  rateLimiter : Limiter.rateLimiter
}.

Definition NewPublicJSONFetcher : option t :=
  rl ← newRateLimiter 5;
  agent ← userAgents !! 0%nat;
  Some {| userAgent := agent; rateLimiter := rl |}.

(** [Search]: the answer, the fetcher and the world afterwards; [None] is a
    run-time panic (the index of the user agent out of range).
    [http.NewRequest] does not fail on the URL built here, so the request
    always reaches [httpClient.Do]. *)
Definition Search (env : Env) (f : t) (query : string) (limit matchTime : Z) (w : World)
  : option ((list SearchResult.t * option error) * t * World) :=
  let (rl, now) := wait (rateLimiter f) (clock w) in
  '(agent, rl) ← getNextUserAgent rl;
  let req := SearchReq {| reqHost := "www.reddit.com";
                          reqQuery := query;
                          reqStart := startTime matchTime;
                          reqEnd := endTime matchTime;
                          reqLimit := limit;
                          reqUserAgent := agent;
                          reqBearer := None |} in
  let w' := mkWorld now (log w ++ [req]) in
  let f' := mk (userAgent f) rl in
  match Do env (log w) req with
  | inl err => Some (([], Some ("fetch from reddit: " +:+ err)), f', w')
  | inr resp =>
      if negb (StatusCode resp =? StatusOK) then
        Some (([], Some ("reddit API error: status " +:+ pretty (StatusCode resp)
                         +:+ ", body: " +:+ Body resp)), f', w')
      else
        match ReadErr resp with
        | Some err => Some (([], Some ("read response: " +:+ err)), f', w')
        | None =>
            let bodyStr := Body resp in
            if isCaptchaResponse (lowerCase env) bodyStr then
              Some (([], Some "reddit is blocking requests (CAPTCHA/bot detection)"),
                    mk (userAgent f) (recordCaptchaError rl now), w')
            else
              match decodeSearch env bodyStr with
              | inl err =>
                  if Strings.Contains bodyStr "<html"
                     || Strings.Contains bodyStr "<!DOCTYPE html"
                  then Some (([], Some "reddit returned HTML instead of JSON (likely CAPTCHA or rate limit)"),
                             f', w')
                  else Some (([], Some ("parse response: " +:+ err)), f', w')
              | inr children => Some ((mediaOnly children, None), f', w')
              end
        end
  end.

End PublicJSONFetcher.

(** ** The authenticated fetcher and its token *)

Module OAuthClient.
Import Http Limiter.

(** [sync.RWMutex] as one goroutine sees it. *)
Inductive RWMutex := Unlocked | RLocked (readers : nat) | WLocked.

(** The [OAuthClient] struct, without its HTTP client and its optional
    debug logger. *)
Record t := mk {
  clientID : string;
  clientSecret : string;
  username : string;
  password : string;
  accessToken : string;
  refreshTokenValue : string;
  tokenExpiry : Z;
  tokenMutex : RWMutex;
  rateLimiter : Limiter.rateLimiter
}.

(** How a call ends: it returns, it blocks for ever on a lock the calling
    goroutine itself holds, or the run time stops the program. *)
Inductive Result (A : Type) :=
| Returned (a : A) (c : t) (w : World)
| Blocked (c : t) (w : World)
| Fatal.
Arguments Returned {A} a c w.
Arguments Blocked {A} c w.
Arguments Fatal {A}.

Definition M (A : Type) : Type := t -> World -> Result A.

Definition ret {A} (a : A) : M A := fun c w => Returned a c w.

Definition bind {A B} (m : M A) (k : A -> M B) : M B :=
  fun c w =>
    match m c w with
    | Returned a c' w' => k a c' w'
    | Blocked c' w' => Blocked c' w'
    | Fatal => Fatal
    end.

Notation "x <- m ;; k" := (bind m (fun x => k))
  (at level 100, m at next level, right associativity).
Notation "m ;;; k" := (bind m (fun _ => k))
  (at level 100, right associativity).

Definition setMutex (m : RWMutex) (c : t) : t :=
  mk (clientID c) (clientSecret c) (username c) (password c) (accessToken c)
     (refreshTokenValue c) (tokenExpiry c) m (rateLimiter c).

Definition setToken (access refresh : string) (expiry : Z) (c : t) : t :=
  mk (clientID c) (clientSecret c) (username c) (password c) access
     refresh expiry (tokenMutex c) (rateLimiter c).

Definition setLimiter (rl : Limiter.rateLimiter) (c : t) : t :=
  mk (clientID c) (clientSecret c) (username c) (password c) (accessToken c)
     (refreshTokenValue c) (tokenExpiry c) (tokenMutex c) rl.

Definition RLock : M unit := fun c w =>
  match tokenMutex c with
  | Unlocked => Returned tt (setMutex (RLocked 1) c) w
  | RLocked n => Returned tt (setMutex (RLocked (S n)) c) w
  | WLocked => Blocked c w
  end.

Definition RUnlock : M unit := fun c w =>
  match tokenMutex c with
  | RLocked 1 => Returned tt (setMutex Unlocked c) w
  | RLocked (S (S n)) => Returned tt (setMutex (RLocked (S n)) c) w
  | _ => Fatal
  end.

Definition Lock : M unit := fun c w =>
  match tokenMutex c with
  | Unlocked => Returned tt (setMutex WLocked c) w
  | _ => Blocked c w
  end.

Definition Unlock : M unit := fun c w =>
  match tokenMutex c with
  | WLocked => Returned tt (setMutex Unlocked c) w
  | _ => Fatal
  end.

Definition get : M t := fun c w => Returned c c w.
Definition now : M Z := fun c w => Returned (clock w) c w.
Definition modify (f : t -> t) : M unit := fun c w => Returned tt (f c) w.

Definition doRequest (env : Env) (req : Request) : M (error + Response) :=
  fun c w => Returned (Do env (log w) req) c (mkWorld (clock w) (log w ++ [req])).

(** [fmt.Sprintf("%s:v1.0.0 (by /u/%s)", c.username, c.username)]. *)
Definition tokenUserAgent (c : t) : string :=
  username c +:+ ":v1.0.0 (by /u/" +:+ username c +:+ ")".

(** The instant a token received at [t] expires:
    [time.Now().Add(time.Duration(ExpiresIn) * time.Second)]. *)
Definition expiryAt (t : Z) (resp : OAuthResponse) : Z :=
  t + GoTime.wrap64 (ExpiresIn resp * GoTime.Second).

Definition authenticate (env : Env) : M (option error) :=
  c <- get ;;
  r <- doRequest env (TokenRequest (clientID c) (clientSecret c) (tokenUserAgent c)
                        (GrantPassword (username c) (password c))) ;;
  match r with
  | inl err => ret (Some ("auth request failed: " +:+ err))
  | inr resp =>
      if negb (StatusCode resp =? StatusOK) then
        ret (Some ("auth failed with status " +:+ pretty (StatusCode resp)
                   +:+ ": " +:+ Body resp))
      else
        match (if ReadErr resp is Some err then inl err else decodeOAuth env (Body resp)) with
        | inl err => ret (Some ("parse auth response: " +:+ err))
        | inr oauthResp =>
            Lock ;;;
            t <- now ;;
            modify (setToken (AccessToken oauthResp) (RefreshToken oauthResp)
                      (expiryAt t oauthResp)) ;;;
            Unlock ;;;
            ret None
        end
  end.

Definition refreshToken (env : Env) : M (option error) :=
  c <- get ;;
  r <- doRequest env (TokenRequest (clientID c) (clientSecret c) (tokenUserAgent c)
                        (GrantRefresh (refreshTokenValue c))) ;;
  match r with
  | inl err => ret (Some ("refresh request failed: " +:+ err))
  | inr resp =>
      if negb (StatusCode resp =? StatusOK) then
        ret (Some ("token refresh failed with status " +:+ pretty (StatusCode resp)
                   +:+ ": " +:+ Body resp))
      else
        match (if ReadErr resp is Some err then inl err else decodeOAuth env (Body resp)) with
        | inl err => ret (Some ("parse refresh response: " +:+ err))
        | inr oauthResp =>
            Lock ;;;
            t <- now ;;
            modify (fun c =>
                      setToken (AccessToken oauthResp)
                        (if String.eqb (RefreshToken oauthResp) "" then refreshTokenValue c
                         else RefreshToken oauthResp)
                        (expiryAt t oauthResp) c) ;;;
            Unlock ;;;
            ret None
        end
  end.

(** [t.Before(u)] and [t.After(u)]. *)
Definition Before (t u : Z) : bool := t <? u.
Definition After (t u : Z) : bool := u <? t.

Definition ensureValidToken (env : Env) : M (option error) :=
  RLock ;;;
  c <- get ;;
  t <- now ;;
  let tokenValid := negb (String.eqb (accessToken c) "")
                    && Before t (tokenExpiry c + (-5) * GoTime.Minute) in
  RUnlock ;;;
  if negb tokenValid then
    Lock ;;;
    r <- (c <- get ;;
          t <- now ;;
          if String.eqb (accessToken c) ""
             || After t (tokenExpiry c + (-5) * GoTime.Minute)
          then
            if negb (String.eqb (refreshTokenValue c) "") then
              err <- refreshToken env ;;
              match err with
              | Some _ => authenticate env
              | None => ret None
              end
            else authenticate env
          else ret None) ;;
    Unlock ;;;
    ret r
  else ret None.

Definition IsAvailable : M bool :=
  RLock ;;;
  c <- get ;;
  t <- now ;;
  RUnlock ;;;
  ret (negb (String.eqb (accessToken c) "") && Before t (tokenExpiry c)).

(** [c.rateLimiter.wait()], on the clock of the world. *)
Definition waitLimiter : M unit := fun c w =>
  let (rl, t) := wait (rateLimiter c) (clock w) in
  Returned tt (setLimiter rl c) (mkWorld t (log w)).

Definition Search (env : Env) (query : string) (limit matchTime : Z)
  : M (list SearchResult.t * option error) :=
  waitLimiter ;;;
  err <- ensureValidToken env ;;
  match err with
  | Some err => ret ([], Some ("token validation failed: " +:+ err))
  | None =>
      RLock ;;;
      c <- get ;;
      RUnlock ;;;
      r <- doRequest env (SearchReq {| reqHost := "oauth.reddit.com";
                                       reqQuery := query;
                                       reqStart := startTime matchTime;
                                       reqEnd := endTime matchTime;
                                       reqLimit := limit;
                                       reqUserAgent := tokenUserAgent c;
                                       reqBearer := Some (accessToken c) |}) ;;
      match r with
      | inl err => ret ([], Some ("search request failed: " +:+ err))
      | inr resp =>
          if negb (StatusCode resp =? StatusOK) then
            ret ([], Some ("OAuth search failed with status " +:+ pretty (StatusCode resp)
                           +:+ ": " +:+ Body resp))
          else
            match ReadErr resp with
            | Some err => ret ([], Some ("read response: " +:+ err))
            | None =>
                match decodeSearch env (Body resp) with
                | inl err => ret ([], Some ("parse search response: " +:+ err))
                | inr children => ret (mediaOnly children, None)
                end
            end
      end
  end.

End OAuthClient.

(** ** Notions used to state the properties of the limiter *)

Module LimiterSpec.
Import GoTime Limiter.

(** The agent due at the k-th call. *)
Definition agentAt (k : nat) : string := nth (k mod 5) userAgents ""%string.

(** Consecutive instants of [ts] are at least [I] apart. *)
Fixpoint spaced (I : Z) (ts : list Z) : Prop :=
  match ts with
  | [] => True
  | t :: ts' => match ts' with [] => True | u :: _ => t + I <= u end /\ spaced I ts'
  end.

Definition nonnegTick (o : op) : Prop :=
  match o with OpTick d => 0 <= d | _ => True end.

Definition notAbuse (o : op) : Prop :=
  match o with OpAbuse => False | _ => True end.

(** What holds of a limiter built for [R] requests per minute when the clock
    shows [now] and at most [c] challenge pages were recorded. *)
Definition Inv (R c : Z) (r : rateLimiter) (now : Z) : Prop :=
  minInterval r = Minute ÷ R /\ lastRequest r <= now
  /\ lastCaptchaTime r <= now /\ 0 <= captchaCount r <= c.

(** The interval in force: doubled while a recorded challenge is less than
    ten minutes old. *)
Definition enforced (R : Z) (r : rateLimiter) (now : Z) : Z :=
  if (0 <? captchaCount r) && (now - lastCaptchaTime r <? 10 * Minute)
  then 2 * (Minute ÷ R) else Minute ÷ R.

End LimiterSpec.

(** ** Notions used to state the properties of the client *)

Module ClientSpec.
Import GoalLinkCache Client.

Abbreviation Answer := (GoalInfo.t * (option GoalLink.t * option error))%type.

Section Once.
Context (findBestMatch : list SearchResult.t -> GoalInfo.t -> option SearchResult.t).
Context (c : Client.t) (goal : GoalInfo.t) (fetcher : Fetcher).

(** The two requests an attempt can make. *)
Definition primaryCall : Event :=
  EvSearch (channel fetcher) (query1 goal) 15 (GoalInfo.MatchTime goal).

Definition secondaryCall : Event :=
  EvSearch (channel fetcher) (query2 goal) 15 (GoalInfo.MatchTime goal).

(** What the fetcher answers to them when the attempt starts in [st]. *)
Definition primaryAnswer (st : State) : list SearchResult.t * option error :=
  Search fetcher (trace st) (query1 goal) 15 (GoalInfo.MatchTime goal).

Definition secondaryAnswer (st : State) : list SearchResult.t * option error :=
  Search fetcher (trace st ++ [primaryCall]) (query2 goal) 15 (GoalInfo.MatchTime goal).

(** The match found among the primary results, if the query succeeded. *)
Definition primaryMatch (st : State) : option SearchResult.t :=
  if (primaryAnswer st).2 is None then findBestMatch (primaryAnswer st).1 goal else None.

End Once.

Section One.
Context (c : Client.t).

(** The answer a cache entry stands for. *)
Definition cachedAnswer (entry : ResolutionOutcome) : option GoalLink.t :=
  match entry with Found link => Some link | NotFound => None end.

(** The fetcher [searchForGoal] turns to in state [st]. *)
Definition activeFetcher (st : State) : Fetcher :=
  match oauthFetcher c with
  | Some o => if IsAvailable o (trace st) then asFetcher o else publicFetcher c
  | None => publicFetcher c
  end.

(** The authenticated channel is absent or reports itself unavailable. *)
Definition oauthUnavailable (st : State) : Prop :=
  match oauthFetcher c with
  | Some o => IsAvailable o (trace st) = false
  | None => True
  end.

End One.

Section Many.
Context (findBestMatch : list SearchResult.t -> GoalInfo.t -> option SearchResult.t).
Context (c : Client.t).

(** De-duplication by key, the first occurrence winning. *)
Fixpoint firstByKey (goals : list GoalInfo.t) : list GoalInfo.t :=
  match goals with
  | [] => []
  | goal :: rest => goal :: filter (fun g => keyOf g ≠ keyOf goal) (firstByKey rest)
  end.

(** The goals whose key the cache has no entry for. *)
Definition uncached (cache : GoalLinkCache.t) (goals : list GoalInfo.t) : list GoalInfo.t :=
  filter (fun g => Get cache (keyOf g) = None) goals.

(** [GoalLink] on each goal of the queue in turn, whatever the answers;
    before the goal at position [j] of the whole queue two seconds are
    slept when [j] is a positive multiple of five. *)
Fixpoint resolveSeq (j : nat) (todo : list GoalInfo.t) : M (list Answer) :=
  match todo with
  | [] => ret []
  | goal :: rest =>
      (if (0 <? j)%nat && (j mod 5 =? 0)%nat then sleep (2 * GoTime.Second) else ret tt) ;;;
      r <- GoalLink findBestMatch c goal ;;
      rs <- resolveSeq (S j) rest ;;
      ret ((goal, r) :: rs)
  end.

(** The same without any delay. *)
Fixpoint resolveQuiet (todo : list GoalInfo.t) : M (list Answer) :=
  match todo with
  | [] => ret []
  | goal :: rest =>
      r <- GoalLink findBestMatch c goal ;;
      rs <- resolveQuiet rest ;;
      ret ((goal, r) :: rs)
  end.

(** The links of the answers that are positive, added to [results]. *)
Definition collectOne (results : gmap GoalLinkKey GoalLink.t) (a : Answer)
  : gmap GoalLinkKey GoalLink.t :=
  match a.2 with
  | (Some link, None) => <[keyOf a.1 := link]> results
  | _ => results
  end.

Definition collect (results : gmap GoalLinkKey GoalLink.t) (answers : list Answer)
  : gmap GoalLinkKey GoalLink.t :=
  foldl collectOne results answers.

(** The first occurrences whose key is not in [seen]. *)
Definition unseen (seen : gset GoalLinkKey) (goals : list GoalInfo.t) : list GoalInfo.t :=
  filter (fun g => keyOf g ∉ seen) (firstByKey goals).

(** The links the cache already holds for the keys of [goals]. *)
Definition cachedLink (cache : GoalLinkCache.t) (goals : list GoalInfo.t)
    (k : GoalLinkKey) : option GoalLink.t :=
  if decide (k ∈ keyOf <$> goals) then
    match Get cache k with Some (Found link) => Some link | _ => None end
  else None.

Definition isSleep (e : Event) : Prop :=
  match e with EvSleep _ => True | EvSearch _ _ _ _ => False end.

#[export] Instance isSleep_dec (e : Event) : Decision (isSleep e).
Proof. destruct e; cbn; apply _. Defined.

(** The positions of the queue before which a delay is due. *)
Definition delayDue (j : nat) : Prop := (0 < j)%nat /\ (j mod 5 = 0)%nat.

#[export] Instance delayDue_dec (j : nat) : Decision (delayDue j).
Proof. unfold delayDue. apply _. Defined.

End Many.

(** *** Sample data *)

Definition sampleGoal : GoalInfo.t :=
  GoalInfo.mk 555 23 "Arsenal" "Chelsea" true (1700000000 * GoTime.Second).

(** A matcher in the spirit of the documented minimal contract: the first
    candidate whose title names the scoring team and the minute marker. *)
Definition titleMatch (results : list SearchResult.t) (goal : GoalInfo.t)
  : option SearchResult.t :=
  let team := if GoalInfo.IsHomeTeam goal then GoalInfo.HomeTeam goal
              else GoalInfo.AwayTeam goal in
  List.find (fun r => Strings.Contains (SearchResult.Title r) team
                      && Strings.Contains (SearchResult.Title r)
                           (pretty (GoalInfo.Minute goal) +:+ "'")) results.

Definition sampleHit : SearchResult.t :=
  SearchResult.mk "https://streamff.example/v/abc" "Arsenal 1-0 Chelsea - 23' GOAL"
    "https://www.reddit.com/r/soccer/comments/abc" "Media".

(** A fetcher whose every call fails with the same error. *)
Definition failingFetcher (ch : Channel) (err : error) : Fetcher :=
  mkFetcher ch (fun _ _ _ _ => ([], Some err)).

(** A fetcher whose every call returns the same hits. *)
Definition constFetcher (ch : Channel) (hits : list SearchResult.t) : Fetcher :=
  mkFetcher ch (fun _ _ _ _ => (hits, None)).

Definition publicOnly (f : Fetcher) : Client.t :=
  Client.mk None f (fun _ => 1700000100 * GoTime.Second).

Definition emptyState : State := mkState ∅ [].

Definition blockedFetcher : Fetcher :=
  failingFetcher PublicChannel "reddit is blocking requests (CAPTCHA/bot detection)".

(** A second report of the sample goal, with the team names in another
    spelling. *)
Definition sampleGoalAgain : GoalInfo.t :=
  GoalInfo.mk 555 23 "Arsenal FC" "Chelsea FC" true (1700000000 * GoTime.Second).

(** The goal of minute [m] of the sample match. *)
Definition goalAt (m : Z) : GoalInfo.t :=
  GoalInfo.mk 555 m "Arsenal" "Chelsea" true (1700000000 * GoTime.Second).

(** The two requests of a full attempt for [goal] on the public channel. *)
Definition bothCalls (goal : GoalInfo.t) : list Event :=
  [EvSearch PublicChannel (query1 goal) 15 (GoalInfo.MatchTime goal);
   EvSearch PublicChannel (query2 goal) 15 (GoalInfo.MatchTime goal)].

End ClientSpec.

(** ** Notions used to state the properties of the token lifecycle *)

Module OAuthSpec.
Import Http OAuthClient.

Section Token.
Context (env : Env).

Definition logOf {A} (r : Result A) (default : list Request) : list Request :=
  match r with
  | Returned _ _ w => log w
  | Blocked _ w => log w
  | Fatal => default
  end.

(** The requests a call that started in world [w] has made. *)
Definition issued {A} (w : World) (r : Result A) : list Request :=
  drop (length (log w)) (logOf r (log w)).


Definition refreshRequest (c : t) : Request :=
  TokenRequest (clientID c) (clientSecret c) (tokenUserAgent c)
    (GrantRefresh (refreshTokenValue c)).

Definition authRequest (c : t) : Request :=
  TokenRequest (clientID c) (clientSecret c) (tokenUserAgent c)
    (GrantPassword (username c) (password c)).

(** Whether the token endpoint grants a request made after [history]:
    status 200 and a payload that decodes. *)
Definition granted (history : list Request) (req : Request) : bool :=
  match Do env history req with
  | inl _ => false
  | inr resp =>
      (StatusCode resp =? StatusOK)
      && match (if ReadErr resp is Some err then inl err else decodeOAuth env (Body resp)) with
         | inl _ => false
         | inr _ => true
         end
  end.

(** The token is held and more than, or exactly, five minutes from expiry. *)
Definition fresh (c : t) (w : World) : bool :=
  negb (String.eqb (accessToken c) "") && (clock w <=? tokenExpiry c - 5 * GoTime.Minute).

End Token.

(** *** Sample token states *)

(** A token endpoint that grants every request. *)
Definition grantingEnv : Env :=
  mkEnv (fun _ _ => inr (mkResponse 200 "{}" None))
        (fun _ => inr (mkOAuthResponse "new-token" "" 3600 "bearer"))
        (fun _ => inr [])
        Unicode.sampleTable.

(** A client holding the access token [tok] that expires at minute ten. *)
Definition sampleClient (refresh : string) : t :=
  mk "id" "secret" "user" "pw" "tok" refresh (10 * GoTime.Minute) Unlocked
     (Limiter.mkRateLimiter GoTime.zeroTime (6 * GoTime.Second) 0 GoTime.zeroTime 0).

End OAuthSpec.

(** ** Notions used to state the properties of the fetchers *)

Module SearchSpec.
Import Http Limiter.

(** The text of the error that marks a challenge page. *)
Definition blockedError : error := "reddit is blocking requests (CAPTCHA/bot detection)".

(** A response that came with status 200, was read in full, and is
    classified as a challenge page. *)
Definition challenge (env : Env) (resp : Response) : bool :=
  (StatusCode resp =? StatusOK)
  && (if ReadErr resp is None then true else false)
  && isCaptchaResponse (lowerCase env) (Body resp).

(** The abuse signal of [recordCaptchaError], seen from outside. *)
Definition abuseRecorded (before after : rateLimiter) (t : Z) : Prop :=
  captchaCount after = GoTime.wrap64 (captchaCount before + 1)
  /\ lastCaptchaTime after = t.

Definition abuseUnchanged (before after : rateLimiter) : Prop :=
  captchaCount after = captchaCount before
  /\ lastCaptchaTime after = lastCaptchaTime before.

Definition allMedia (results : list SearchResult.t) : Prop :=
  Forall (fun r => SearchResult.Flair r = "Media"%string) results.

(** A call of the authenticated fetcher keeps a property of the client:
    the client it returns, or stops with, has it whenever the client it
    started with had it. *)
Definition keeps {A} (P : OAuthClient.t -> Prop) (m : OAuthClient.M A) : Prop :=
  forall c w, P c ->
    match m c w with
    | OAuthClient.Returned _ c' _ => P c'
    | OAuthClient.Blocked c' _ => P c'
    | OAuthClient.Fatal => True
    end.

(** The world when [Search] gets past the limiter. *)
Definition afterWait (c : OAuthClient.t) (w : World) : World :=
  mkWorld (wait (OAuthClient.rateLimiter c) (clock w)).2 (log w).

(** *** Sample exchanges *)

Definition mediaHit : SearchResult.t :=
  SearchResult.mk "https://streamff.example/v/abc" "Arsenal 1-0 Chelsea - 23' GOAL"
    "https://www.reddit.com/r/soccer/comments/abc" "Media".

Definition discussionHit : SearchResult.t :=
  SearchResult.mk "https://www.reddit.com/r/soccer/comments/xyz" "Match Thread: Arsenal vs Chelsea"
    "https://www.reddit.com/r/soccer/comments/xyz" "Match Thread".

(** A server that answers every request with the given status and body; a
    body decodes to the two sample posts unless it is an HTML page. *)
Definition serverEnv (status : Z) (body : string) : Env :=
  mkEnv (fun _ _ => inr (mkResponse status body None))
        (fun _ => inl "not a token payload"%string)
        (fun b => if Strings.Contains b "<html" then inl "invalid character '<'"%string
                  else inr [mediaHit; discussionHit])
        Unicode.sampleTable.

(** The text [BLOCKED] with the Kelvin sign (U+212A) for its fifth letter. *)
Definition kelvinBody : string := "BLOC" +:+ Utf8.AppendRune 8490 +:+ "ED".

Definition freshPublic : PublicJSONFetcher.t :=
  PublicJSONFetcher.mk "golazo:v1.0.0 (by /u/golazo_app)"
    (mkRateLimiter GoTime.zeroTime (12 * GoTime.Second) 0 GoTime.zeroTime 0).

Definition startWorld : World := mkWorld (1700000000 * GoTime.Second) [].

Definition kickoff : Z := 1699990000 * GoTime.Second.

End SearchSpec.

(** ** Notions used to state the properties of a run of searches *)

Module SessionSpec.
Import Http Limiter.

(** One call of [Search] in a run: the time that passes before it, and its
    arguments. *)
Record Call := mkCall {
  idle : Z;
  query : string;
  limit : Z;
  matchTime : Z
}.

(** The public fetcher called on each element of [calls] in turn; every
    answer comes with the clock reading at its return. *)
Fixpoint searchAll (env : Env) (calls : list Call) (f : PublicJSONFetcher.t) (w : World)
  : option (list ((list SearchResult.t * option error) * Z) * PublicJSONFetcher.t * World) :=
  match calls with
  | [] => Some ([], f, w)
  | call :: rest =>
      '(res, f1, w1) ← PublicJSONFetcher.Search env f (query call) (limit call)
                          (matchTime call) (mkWorld (clock w + idle call) (log w));
      '(out, f2, w2) ← searchAll env rest f1 w1;
      Some ((res, clock w1) :: out, f2, w2)
  end.

(** The request of the call at position [k] of a run. *)
Definition requestOf (k : nat) (call : Call) : Request :=
  SearchReq {| reqHost := "www.reddit.com";
               reqQuery := query call;
               reqStart := startTime (matchTime call);
               reqEnd := endTime (matchTime call);
               reqLimit := limit call;
               reqUserAgent := LimiterSpec.agentAt k;
               reqBearer := None |}.

Definition sampleCalls : list Call :=
  [ mkCall 0 "Arsenal Chelsea 23'" 15 SearchSpec.kickoff;
    mkCall GoTime.Second "Arsenal Chelsea goal" 15 SearchSpec.kickoff;
    mkCall GoTime.Minute "Chelsea Arsenal 67'" 15 SearchSpec.kickoff ].

End SessionSpec.

(** ** The constructors *)

Module Constructors.
Import Http Limiter.

(** [NewOAuthClient], and [NewOAuthClientWithDebug], which differs only in
    the logger it stores.  [getenv] is [os.Getenv]; [None] is a call that
    does not return. *)
Definition NewOAuthClient (env : Env) (getenv : string -> string) (w : World)
  : option ((option OAuthClient.t * option error) * World) :=
  let clientID := getenv "REDDIT_CLIENT_ID" in
  let clientSecret := getenv "REDDIT_CLIENT_SECRET" in
  let username := getenv "REDDIT_USERNAME" in
  let password := getenv "REDDIT_PASSWORD" in
  if String.eqb clientID "" || String.eqb clientSecret ""
     || String.eqb username "" || String.eqb password ""
  then Some ((None, None), w)
  else
    rl ← newRateLimiter 10;
    let client := OAuthClient.mk clientID clientSecret username password "" ""
                    GoTime.zeroTime OAuthClient.Unlocked rl in
    match OAuthClient.authenticate env client w with
    | OAuthClient.Returned (Some err) _ w' =>
        Some ((None, Some ("OAuth authentication failed: " +:+ err)), w')
    | OAuthClient.Returned None client' w' => Some ((Some client', None), w')
    | _ => None
    end.

(** The [Client] struct as [NewClient] fills it, without the logger. *)
Record Client := mkClient {
  oauthFetcher : option OAuthClient.t;
  publicFetcher : PublicJSONFetcher.t;
  cache : GoalLinkCache.t
}.

(** [NewClient], and [NewClientWithDebug], which differs only in the
    logger.  [NewGoalLinkCache] enters by its result. *)
Definition NewClient (env : Env) (getenv : string -> string)
    (NewGoalLinkCache : error + GoalLinkCache.t) (w : World)
  : option ((option Client * option error) * World) :=
  match NewGoalLinkCache with
  | inl err => Some ((None, Some ("create cache: " +:+ err)), w)
  | inr cache =>
      '((oauthClient, err), w') ← NewOAuthClient env getenv w;
      match err with
      | Some err => Some ((None, Some ("OAuth client initialization failed: " +:+ err)), w')
      | None =>
          publicFetcher ← PublicJSONFetcher.NewPublicJSONFetcher;
          Some ((Some (mkClient oauthClient publicFetcher cache), None), w')
      end
  end.

End Constructors.

(** ** Notions used to state the properties of the token calls *)

Module TokenSpec.
Import Http OAuthClient.

(** The payload the token endpoint grants to a request made after
    [history]: status 200 and a body that decodes. *)
Definition grant (env : Env) (history : list Request) (req : Request)
  : option OAuthResponse :=
  match Do env history req with
  | inl _ => None
  | inr resp =>
      if StatusCode resp =? StatusOK then
        match (if ReadErr resp is Some err then inl err else decodeOAuth env (Body resp)) with
        | inl _ => None
        | inr oauthResp => Some oauthResp
        end
      else None
  end.

(** The environment read by the constructors. *)
Record Credentials := mkCredentials {
  credID : string;
  credSecret : string;
  credUser : string;
  credPassword : string
}.

Definition getenvOf (cr : Credentials) (name : string) : string :=
  if String.eqb name "REDDIT_CLIENT_ID" then credID cr
  else if String.eqb name "REDDIT_CLIENT_SECRET" then credSecret cr
  else if String.eqb name "REDDIT_USERNAME" then credUser cr
  else if String.eqb name "REDDIT_PASSWORD" then credPassword cr
  else "".

Definition readCredentials (getenv : string -> string) : Credentials :=
  mkCredentials (getenv "REDDIT_CLIENT_ID") (getenv "REDDIT_CLIENT_SECRET")
    (getenv "REDDIT_USERNAME") (getenv "REDDIT_PASSWORD").

Definition configured (cr : Credentials) : bool :=
  negb (String.eqb (credID cr) "") && negb (String.eqb (credSecret cr) "")
  && negb (String.eqb (credUser cr) "") && negb (String.eqb (credPassword cr) "").

(** The request [authenticate] makes for the credentials [cr]. *)
Definition loginRequest (cr : Credentials) : Request :=
  TokenRequest (credID cr) (credSecret cr)
    (credUser cr +:+ ":v1.0.0 (by /u/" +:+ credUser cr +:+ ")")
    (GrantPassword (credUser cr) (credPassword cr)).

Definition isSearch (req : Request) : bool :=
  match req with SearchReq _ => true | TokenRequest _ _ _ _ => false end.

Definition sampleCredentials : Credentials := mkCredentials "id" "secret" "user" "pw".

(** A token endpoint that refuses every request. *)
Definition refusingEnv : Env :=
  mkEnv (fun _ _ => inr (mkResponse 401 "Unauthorized" None))
        (fun _ => inl "not a token payload"%string)
        (fun _ => inr [])
        Unicode.sampleTable.

End TokenSpec.

(** ** Notions used to state the properties of the lowering *)

Module DetectorSpec.
Import Utf8.

(** The number of bytes at or above [utf8.RuneSelf] at the head of [s]. *)
Fixpoint lead (s : string) : nat :=
  match s with
  | EmptyString => 0%nat
  | String c s' => if RuneSelf <=? byteVal c then S (lead s') else 0%nat
  end.

End DetectorSpec.

(** * Properties *)

Module LimiterFacts.
Import GoTime Limiter LimiterSpec.

Example fresh5 : newRateLimiter 5 = Some (mkRateLimiter zeroTime (12 * Second) 0 zeroTime 0).
Proof. reflexivity. Qed.

(** *** Round-robin identities *)

#[local] Arguments agentAt : simpl never.

Lemma getNextUserAgent_at (r : rateLimiter) (i : nat) :
  userAgentIndex r = Z.of_nat i -> (i < 5)%nat ->
  exists r1, getNextUserAgent r = Some (agentAt i, r1)
             /\ userAgentIndex r1 = Z.of_nat (S i mod 5).
Proof.
  intros Hi Hlt. unfold getNextUserAgent. rewrite Hi.
  do 5 (destruct i as [|i]; [eexists; split; reflexivity|]). lia.
Qed.

Lemma nextUserAgents_from (n : nat) : forall (r : rateLimiter) (i : nat),
  userAgentIndex r = Z.of_nat i -> (i < 5)%nat ->
  exists r1, nextUserAgents n r = Some ((fun k => agentAt (i + k)) <$> seq 0 n, r1).
Proof.
  induction n as [|n IH]; intros r i Hi Hlt.
  - eexists. reflexivity.
  - destruct (getNextUserAgent_at r i Hi Hlt) as (r1 & Hg & Hi1).
    destruct (IH r1 (S i mod 5)%nat Hi1) as (r2 & Hr2).
    { apply Nat.mod_upper_bound. lia. }
    exists r2. cbn [nextUserAgents]. rewrite Hg. cbn [mbind option_bind].
    rewrite Hr2. cbn [mbind option_bind].
    cbn [seq fmap list_fmap]. rewrite <- fmap_S_seq, <- list_fmap_compose, Nat.add_0_r.
    do 3 f_equal. apply list_fmap_ext. intros _ k _. unfold compose, agentAt.
    rewrite Nat.Div0.add_mod_idemp_l. do 2 f_equal. lia.
Qed.

Lemma agentAt_lookup (k : nat) : userAgents !! (k mod 5)%nat = Some (agentAt k).
Proof.
  unfold agentAt. assert (k mod 5 < 5)%nat as H by (apply Nat.mod_upper_bound; lia).
  destruct (k mod 5)%nat as [|[|[|[|[|m]]]]]; try reflexivity. lia.
Qed.

Lemma agentAt_window (k : nat) :
  [agentAt k; agentAt (k + 1); agentAt (k + 2); agentAt (k + 3); agentAt (k + 4)]
  = rotate k userAgents.
Proof.
  unfold agentAt, rotate.
  rewrite <- (Nat.Div0.add_mod_idemp_l k 1), <- (Nat.Div0.add_mod_idemp_l k 2),
    <- (Nat.Div0.add_mod_idemp_l k 3), <- (Nat.Div0.add_mod_idemp_l k 4).
  change (length userAgents) with 5%nat.
  assert (k mod 5 < 5)%nat as H by (apply Nat.mod_upper_bound; lia).
  destruct (k mod 5)%nat as [|[|[|[|[|m]]]]]; try reflexivity. lia.
Qed.

Lemma rotate_perm {A} (k : nat) (l : list A) : rotate k l ≡ₚ l.
Proof.
  unfold rotate. rewrite Permutation_app_comm. now rewrite take_drop.
Qed.

Lemma userAgents_NoDup : NoDup userAgents.
Proof. apply (bool_decide_unpack (NoDup userAgents)). vm_compute. exact I. Qed.

(** C9. Starting from a fresh limiter, the k-th call of [getNextUserAgent]
    (counting from 0) returns [userAgents[k mod 5]]; every five consecutive
    calls therefore return the list rotated by the position of the first of
    them, which holds each of the five distinct agents exactly once. *)
Theorem getNextUserAgent_round_robin (R : Z) (r0 : rateLimiter) (n : nat) :
  newRateLimiter R = Some r0 ->
  exists agents r1,
    nextUserAgents n r0 = Some (agents, r1)
    /\ length agents = n
    /\ (forall k, (k < n)%nat -> agents !! k = userAgents !! (k mod 5)%nat)
    /\ (forall k, (k + 5 <= n)%nat ->
          take 5 (drop k agents) = rotate k userAgents
          /\ take 5 (drop k agents) ≡ₚ userAgents)
    /\ NoDup userAgents.
Proof.
  intros Hnew. unfold newRateLimiter in Hnew.
  destruct (R =? 0); [discriminate|]. injection Hnew as <-.
  destruct (nextUserAgents_from n {| lastRequest := zeroTime;
      minInterval := Minute ÷ R; captchaCount := 0; lastCaptchaTime := zeroTime;
      userAgentIndex := 0 |} 0 eq_refl) as (r1 & Hr1); [lia|].
  exists (agentAt <$> seq 0 n), r1. split; [exact Hr1|].
  assert (forall k, (k + 5 <= n)%nat ->
            take 5 (drop k (agentAt <$> seq 0 n)) = rotate k userAgents) as Hwin.
  { intros k Hk. rewrite <- fmap_drop, <- fmap_take, drop_seq, take_seq.
    replace (5 `min` (n - k))%nat with 5%nat by lia.
    rewrite <- agentAt_window. cbn [seq fmap list_fmap Nat.add].
    now rewrite !Nat.add_succ_r, Nat.add_0_r. }
  split; [|split; [|split]].
  - now rewrite length_fmap, length_seq.
  - intros k Hk. rewrite list_lookup_fmap, lookup_seq_lt by lia.
    now rewrite agentAt_lookup.
  - intros k Hk. rewrite (Hwin k Hk). split; [reflexivity|apply rotate_perm].
  - exact userAgents_NoDup.
Qed.

Lemma getNextUserAgent_round_robin_witness :
  exists agents r1,
    nextUserAgents 7 (mkRateLimiter zeroTime (12 * Second) 0 zeroTime 0) = Some (agents, r1)
    /\ length agents = 7%nat
    /\ (forall k, (k < 7)%nat -> agents !! k = userAgents !! (k mod 5)%nat)
    /\ (forall k, (k + 5 <= 7)%nat ->
          take 5 (drop k agents) = rotate k userAgents
          /\ take 5 (drop k agents) ≡ₚ userAgents)
    /\ NoDup userAgents.
Proof. apply (getNextUserAgent_round_robin 5). reflexivity. Defined.

(** *** Minimum spacing of permitted requests *)

Lemma wrap64_small (z : Z) : minDuration <= z <= maxDuration -> wrap64 z = z.
Proof.
  unfold wrap64, minDuration, maxDuration. intros H.
  rewrite Z.mod_small; lia.
Qed.

Lemma interval_range (R : Z) : 0 < R -> 0 <= Minute ÷ R <= Minute.
Proof.
  intros HR. rewrite Z.quot_div_nonneg by (unfold Minute, Second; lia).
  split; [apply Z.div_pos; unfold Minute, Second; lia|].
  apply Z.div_le_upper_bound; [lia|]. unfold Minute, Second. nia.
Qed.

Lemma Since_past (now t : Z) : t <= now -> Since now t = Z.min (now - t) maxDuration.
Proof.
  unfold Since, Sub, minDuration, maxDuration. intros H.
  repeat case_match; lia.
Qed.

Lemma currentInterval_enforced (R c : Z) (r : rateLimiter) (now : Z) :
  0 < R -> Inv R c r now -> currentInterval r now = enforced R r now.
Proof.
  intros HR (Hmin & _ & Hcap & _). pose proof (interval_range R HR) as HI.
  unfold currentInterval, enforced. rewrite Since_past, Hmin by lia.
  replace (Z.min (now - lastCaptchaTime r) maxDuration <? 10 * Minute)
    with (now - lastCaptchaTime r <? 10 * Minute)
    by (unfold maxDuration, Minute, Second in *; lia).
  destruct (_ && _); [|reflexivity].
  rewrite wrap64_small; unfold minDuration, maxDuration, Minute, Second in *; lia.
Qed.

Lemma wait_spec (R c : Z) (r : rateLimiter) (now : Z) :
  0 < R -> Inv R c r now ->
  let t := Z.max now (lastRequest r + enforced R r now) in
  wait r now = (mkRateLimiter t (minInterval r) (captchaCount r)
                  (lastCaptchaTime r) (userAgentIndex r), t).
Proof.
  intros HR HInv. pose proof (currentInterval_enforced R c r now HR HInv) as Hcur.
  destruct HInv as (Hmin & Hlast & Hcap & Hcnt).
  pose proof (interval_range R HR) as HI.
  assert (0 <= enforced R r now <= 2 * Minute) as He
    by (unfold enforced; destruct (_ && _); lia).
  unfold wait. rewrite Hcur, Since_past by lia. cbv zeta.
  set (e := enforced R r now) in *.
  assert ((if Z.min (now - lastRequest r) maxDuration <? e
           then Sleep (wrap64 (e - Z.min (now - lastRequest r) maxDuration)) now
           else now) = Z.max now (lastRequest r + e)) as ->; [|reflexivity].
  unfold maxDuration, Minute, Second in *.
  destruct (Z.ltb_spec (Z.min (now - lastRequest r) (2 ^ 63 - 1)) e) as [Hlt|Hge].
  - rewrite wrap64_small by (unfold minDuration, maxDuration; lia).
    unfold Sleep. lia.
  - lia.
Qed.

Lemma wait_Inv (R c : Z) (r : rateLimiter) (now : Z) :
  0 < R -> Inv R c r now -> Inv R c (wait r now).1 (wait r now).2.
Proof.
  intros HR HInv. rewrite (wait_spec R c r now HR HInv). cbn.
  destruct HInv as (Hmin & Hlast & Hcap & Hcnt). unfold Inv. cbn.
  repeat split; try lia; assumption.
Qed.

Lemma recordCaptchaError_Inv (R c : Z) (r : rateLimiter) (now : Z) :
  c < maxDuration -> Inv R c r now -> Inv R (c + 1) (recordCaptchaError r now) now.
Proof.
  intros Hc (Hmin & Hlast & Hcap & Hcnt). unfold Inv, recordCaptchaError. cbn.
  rewrite wrap64_small by (unfold minDuration, maxDuration in *; lia).
  repeat split; try lia; assumption.
Qed.

Lemma Inv_mono (R c c' : Z) (r : rateLimiter) (now now' : Z) :
  c <= c' -> now <= now' -> Inv R c r now -> Inv R c' r now'.
Proof. unfold Inv. intuition lia. Qed.

Lemma last_cons_default {A} (l : list A) : forall x d d',
  List.last (x :: l) d = List.last (x :: l) d'.
Proof.
  induction l as [|y l IH]; intros x d d'; [done|].
  change (List.last (y :: l) d = List.last (y :: l) d'). apply IH.
Qed.

Lemma run_Inv (R : Z) (ops : list op) : forall (c : Z) (r : rateLimiter) (now : Z),
  0 < R -> Inv R c r now -> Forall nonnegTick ops ->
  c + Z.of_nat (length ops) <= maxDuration ->
  Inv R (c + Z.of_nat (length ops)) (run ops r now).1.1 (run ops r now).1.2
  /\ spaced (Minute ÷ R) (lastRequest r :: (run ops r now).2)
  /\ lastRequest (run ops r now).1.1 = List.last (run ops r now).2 (lastRequest r).
Proof.
  induction ops as [|o ops IH]; intros c r now HR HInv Hops Hlen.
  - cbn. split; [|split; [split|]]; try done. eapply Inv_mono; [| |exact HInv]; lia.
  - apply Forall_cons in Hops as [Ho Hops].
    rewrite length_cons, Nat2Z.inj_succ in *. destruct o as [d| |]; cbn [run].
    + cbn in Ho. destruct (IH c r (now + d) HR) as (H1 & H2 & H3); [| |lia|]; [|done|].
      { eapply Inv_mono; [| |exact HInv]; lia. }
      split; [|done]. eapply Inv_mono; [| |exact H1]; lia.
    + pose proof (wait_Inv R c r now HR HInv) as HInv1.
      pose proof (wait_spec R c r now HR HInv) as Hw. cbv zeta in Hw.
      destruct (wait r now) as [r1 now1] eqn:Ew. cbn in HInv1.
      destruct (IH c r1 now1 HR HInv1 Hops) as (H1 & H2 & H3); [lia|].
      destruct (run ops r1 now1) as [[r2 now2] ts] eqn:Er. cbn in *.
      injection Hw as Hr1 Hnow1.
      assert (lastRequest r1 = now1) as Hl by (rewrite Hr1; cbn; lia).
      rewrite Hl in *.
      split; [eapply Inv_mono; [| |exact H1]; lia|]. split.
      * split; [|done]. pose proof (interval_range R HR).
        unfold enforced in Hnow1. destruct (_ && _); lia.
      * rewrite H3. destruct ts as [|u ts]; [done|apply last_cons_default].
    + pose proof (recordCaptchaError_Inv R c r now) as HInv1.
      destruct (IH (c + 1) (recordCaptchaError r now) now HR) as (H1 & H2 & H3);
        [apply HInv1; [lia|done]|done|lia|].
      split; [eapply Inv_mono; [| |exact H1]; lia|]. done.
Qed.

Lemma spaced_span (I : Z) (ts : list Z) : forall t,
  spaced I (t :: ts) -> t + Z.of_nat (length ts) * I <= List.last ts t.
Proof.
  induction ts as [|u ts IH]; intros t Hs.
  - cbn. lia.
  - destruct Hs as [Htu Hs]. specialize (IH u Hs).
    rewrite length_cons, Nat2Z.inj_succ.
    replace (List.last (u :: ts) t) with (List.last ts u)
      by (destruct ts as [|v ts]; [done|];
          change (List.last (v :: ts) u = List.last (v :: ts) t);
          apply last_cons_default).
    lia.
Qed.

Lemma run_app (ops1 ops2 : list op) : forall (r : rateLimiter) (now : Z),
  run (ops1 ++ ops2) r now =
  let '(r1, now1, ts1) := run ops1 r now in
  let '(r2, now2, ts2) := run ops2 r1 now1 in
  (r2, now2, ts1 ++ ts2).
Proof.
  induction ops1 as [|o ops1 IH]; intros r now.
  - cbn. now destruct (run ops2 r now) as [[? ?] ?].
  - destruct o as [d| |]; cbn [app run]; rewrite ?IH; [done| |done].
    destruct (wait r now) as [r1 now1]. rewrite IH.
    destruct (run ops1 r1 now1) as [[ra ta] tsa].
    now destruct (run ops2 ra ta) as [[rb tb] tsb].
Qed.

Lemma run_keeps_captcha (ops : list op) : forall (r : rateLimiter) (now : Z),
  Forall notAbuse ops ->
  captchaCount (run ops r now).1.1 = captchaCount r
  /\ lastCaptchaTime (run ops r now).1.1 = lastCaptchaTime r.
Proof.
  induction ops as [|o ops IH]; intros r now Hops; [done|].
  apply Forall_cons in Hops as [Ho Hops]. destruct o as [d| |]; cbn [run].
  - now apply IH.
  - destruct (wait r now) as [r1 now1] eqn:Ew.
    destruct (IH r1 now1 Hops) as [H1 H2].
    destruct (run ops r1 now1) as [[r2 now2] ts]. cbn in *.
    unfold wait in Ew. injection Ew as <- _. done.
  - destruct Ho.
Qed.

Lemma newRateLimiter_Inv (R : Z) (r0 : rateLimiter) (t0 : Z) :
  newRateLimiter R = Some r0 -> zeroTime <= t0 -> Inv R 0 r0 t0.
Proof.
  unfold newRateLimiter. destruct (R =? 0); [discriminate|].
  intros [= <-] Ht. unfold Inv. cbn. lia.
Qed.

Example run_sample :
  (run [OpWait; OpTick (3 * Second); OpAbuse; OpWait; OpTick Second; OpWait]
       (mkRateLimiter zeroTime (12 * Second) 0 zeroTime 0) 0).2
  = [0; 24 * Second; 48 * Second].
Proof. reflexivity. Qed.

(** C7. On a limiter built for [R] requests per minute, whatever the caller
    does between its requests, each [wait] returns no earlier than
    [time.Minute / R] after the previous permitted request and records the
    instant it returns at, so [N] requests span at least [(N-1)] such
    intervals; and a [wait] entered less than ten minutes after the most
    recent recorded challenge enforces twice that interval. *)
Theorem wait_enforces_interval (R : Z) (r0 : rateLimiter) (t0 : Z) (ops : list op) :
  0 < R -> newRateLimiter R = Some r0 -> zeroTime <= t0 ->
  Forall nonnegTick ops -> Z.of_nat (length ops) <= maxDuration ->
  let I := Minute ÷ R in
  let ts := (run ops r0 t0).2 in
  spaced I ts
  /\ (ts <> [] -> lastRequest (run ops r0 t0).1.1 = List.last ts 0)
  /\ (forall first, head ts = Some first ->
        (Z.of_nat (length ts) - 1) * I <= List.last ts first - first)
  /\ (forall ops1 ops2 ops3,
        ops = ops1 ++ OpAbuse :: ops2 ++ OpWait :: ops3 -> Forall notAbuse ops2 ->
        let ta := (run ops1 r0 t0).1.2 in
        let sb := run ops2 (recordCaptchaError (run ops1 r0 t0).1.1 ta) ta in
        sb.1.2 - ta < 10 * Minute ->
        (wait sb.1.1 sb.1.2).2 = Z.max sb.1.2 (lastRequest sb.1.1 + 2 * I)).
Proof.
  intros HR Hnew Ht0 Hops Hlen I ts.
  pose proof (newRateLimiter_Inv R r0 t0 Hnew Ht0) as HInv0.
  destruct (run_Inv R ops 0 r0 t0 HR HInv0 Hops) as (_ & Hsp & Hlast); [lia|].
  fold ts in Hsp, Hlast. fold I in Hsp.
  split; [exact (proj2 Hsp)|]. split; [|split].
  - intros Hne. rewrite Hlast. destruct ts as [|u ts']; [done|apply last_cons_default].
  - intros first Hfirst. destruct ts as [|u ts']; [discriminate|].
    injection Hfirst as ->. pose proof (spaced_span I ts' first (proj2 Hsp)) as Hspan.
    rewrite length_cons, Nat2Z.inj_succ.
    replace (List.last (first :: ts') first) with (List.last ts' first)
      by (destruct ts' as [|v ts'']; done).
    lia.
  - intros ops1 ops2 ops3 -> Hno ta sb Hin.
    apply Forall_app in Hops as [Hops1 Hops23].
    apply Forall_cons in Hops23 as [_ Hops23].
    apply Forall_app in Hops23 as [Hops2 _].
    rewrite !length_app, !length_cons, length_app, length_cons in Hlen.
    destruct (run_Inv R ops1 0 r0 t0 HR HInv0 Hops1) as (HInv1 & _ & _); [lia|].
    fold ta in HInv1.
    assert (0 + Z.of_nat (length ops1) < maxDuration) as Hc1 by lia.
    pose proof (recordCaptchaError_Inv R _ _ ta Hc1 HInv1) as HInv2.
    destruct (run_Inv R ops2 _ _ ta HR HInv2 Hops2) as (HInv3 & _ & _); [lia|].
    destruct (run_keeps_captcha ops2 (recordCaptchaError (run ops1 r0 t0).1.1 ta) ta Hno)
      as [Hcnt Hlct].
    fold sb in HInv3, Hcnt, Hlct.
    rewrite (wait_spec R _ _ _ HR HInv3). cbn [snd].
    unfold enforced. rewrite Hcnt, Hlct. cbn [recordCaptchaError captchaCount lastCaptchaTime].
    destruct HInv1 as (_ & _ & _ & Hc).
    rewrite wrap64_small by (unfold minDuration, maxDuration in *; lia).
    replace (0 <? captchaCount (run ops1 r0 t0).1.1 + 1) with true by lia.
    replace (sb.1.2 - ta <? 10 * Minute) with true by lia.
    reflexivity.
Qed.

Lemma wait_enforces_interval_witness :
  let ops := [OpWait; OpTick (3 * Second); OpAbuse; OpWait; OpTick Second; OpWait] in
  let r0 := mkRateLimiter zeroTime (12 * Second) 0 zeroTime 0 in
  let I := Minute ÷ 5 in
  let ts := (run ops r0 0).2 in
  spaced I ts
  /\ (ts <> [] -> lastRequest (run ops r0 0).1.1 = List.last ts 0)
  /\ (forall first, head ts = Some first ->
        (Z.of_nat (length ts) - 1) * I <= List.last ts first - first)
  /\ (forall ops1 ops2 ops3,
        ops = ops1 ++ OpAbuse :: ops2 ++ OpWait :: ops3 -> Forall notAbuse ops2 ->
        let ta := (run ops1 r0 0).1.2 in
        let sb := run ops2 (recordCaptchaError (run ops1 r0 0).1.1 ta) ta in
        sb.1.2 - ta < 10 * Minute ->
        (wait sb.1.1 sb.1.2).2 = Z.max sb.1.2 (lastRequest sb.1.1 + 2 * I)).
Proof.
  apply (wait_enforces_interval 5).
  - lia.
  - reflexivity.
  - vm_compute. discriminate.
  - repeat constructor; vm_compute; discriminate.
  - vm_compute. discriminate.
Defined.

End LimiterFacts.

Module ClientFacts.
Import GoalLinkCache Client ClientSpec.

(** *** Sample data *)

Example query1_sample : query1 sampleGoal = "Arsenal Chelsea 23'"%string.
Proof. reflexivity. Qed.

Example query2_sample : query2 sampleGoal = "Arsenal 23'"%string.
Proof. reflexivity. Qed.

Example GoalLink_sample_found :
  (GoalLink titleMatch (publicOnly (constFetcher PublicChannel [sampleHit]))
     sampleGoal emptyState).1
  = (Some (linkOf sampleGoal sampleHit (1700000100 * GoTime.Second)), None).
Proof. vm_compute. reflexivity. Qed.

(** *** One search attempt *)

Section OnceFacts.
Context (findBestMatch : list SearchResult.t -> GoalInfo.t -> option SearchResult.t).
Context (c : Client.t) (goal : GoalInfo.t) (fetcher : Fetcher).

Local Abbreviation primaryCall := (ClientSpec.primaryCall goal fetcher).
Local Abbreviation secondaryCall := (ClientSpec.secondaryCall goal fetcher).
Local Abbreviation primaryAnswer := (ClientSpec.primaryAnswer goal fetcher).
Local Abbreviation secondaryAnswer := (ClientSpec.secondaryAnswer goal fetcher).
Local Abbreviation primaryMatch := (ClientSpec.primaryMatch findBestMatch goal fetcher).

Lemma searchForGoalOnce_matched (st : State) (m : SearchResult.t) :
  primaryMatch st = Some m ->
  searchForGoalOnce findBestMatch c goal fetcher st
  = ((Some (linkOf goal m (timeNow c (trace st ++ [primaryCall]))), None),
     mkState (cache st) (trace st ++ [primaryCall])).
Proof.
  unfold primaryMatch, primaryAnswer, searchForGoalOnce, bind, callSearch, now, ret.
  cbn [fst snd cache trace]. intros ->. reflexivity.
Qed.

Lemma searchForGoalOnce_unmatched (st : State) :
  primaryMatch st = None ->
  let all1 := if (primaryAnswer st).2 is None then (primaryAnswer st).1 else [] in
  let all2 := if (secondaryAnswer st).2 is None
              then all1 ++ (secondaryAnswer st).1 else all1 in
  let st' := mkState (cache st) ((trace st ++ [primaryCall]) ++ [secondaryCall]) in
  searchForGoalOnce findBestMatch c goal fetcher st
  = ((match findBestMatch (uniqueByURL ∅ all2) goal with
      | Some m => Some (linkOf goal m (timeNow c (trace st')))
      | None => None
      end, None), st').
Proof.
  unfold primaryMatch, secondaryAnswer, primaryAnswer, searchForGoalOnce, bind,
    callSearch, now, ret.
  cbn [fst snd cache trace]. intros ->. cbv zeta.
  now destruct (findBestMatch _ goal).
Qed.

Lemma searchForGoalOnce_err_nil (st : State) :
  (searchForGoalOnce findBestMatch c goal fetcher st).1.2 = None.
Proof.
  destruct (primaryMatch st) as [m|] eqn:Hm.
  - now rewrite (searchForGoalOnce_matched st m Hm).
  - now rewrite (searchForGoalOnce_unmatched st Hm).
Qed.

Lemma searchForGoalOnce_all_failed (st : State) :
  (forall g, findBestMatch [] g = None) ->
  (forall h q l t, (Search fetcher h q l t).2 <> None) ->
  searchForGoalOnce findBestMatch c goal fetcher st
  = ((None, None), mkState (cache st) (trace st ++ [primaryCall; secondaryCall])).
Proof.
  intros Hempty Hfail.
  assert ((primaryAnswer st).2 <> None) as H1 by apply Hfail.
  assert ((secondaryAnswer st).2 <> None) as H2 by apply Hfail.
  assert (primaryMatch st = None) as Hm
    by (unfold primaryMatch; now destruct (primaryAnswer st).2).
  rewrite (searchForGoalOnce_unmatched st Hm).
  destruct (primaryAnswer st).2; [|done]. destruct (secondaryAnswer st).2; [|done].
  cbn [uniqueByURL]. now rewrite Hempty, <- app_assoc.
Qed.

(** C10. [searchForGoalOnce] never returns an error: a failed primary query
    is dropped and the secondary query is still made, and when both queries
    fail the result is [(nil, nil)], the value a completed search without a
    match returns. *)
Theorem searchForGoalOnce_never_errors (st : State) :
  let r := searchForGoalOnce findBestMatch c goal fetcher st in
  r.1.2 = None
  /\ (forall e1, (primaryAnswer st).2 = Some e1 ->
        trace r.2 = trace st ++ [primaryCall; secondaryCall])
  /\ ((forall g, findBestMatch [] g = None) ->
      forall e1 e2, (primaryAnswer st).2 = Some e1 -> (secondaryAnswer st).2 = Some e2 ->
        r.1 = (None, None))
  /\ ((primaryAnswer st).2 = None -> (secondaryAnswer st).2 = None ->
      findBestMatch (primaryAnswer st).1 goal = None ->
      findBestMatch (uniqueByURL ∅ ((primaryAnswer st).1 ++ (secondaryAnswer st).1)) goal = None ->
        r.1 = (None, None)).
Proof.
  intros r. subst r. split; [|split; [|split]].
  - apply searchForGoalOnce_err_nil.
  - intros e1 He1. assert (primaryMatch st = None) as Hm
      by (unfold primaryMatch; now rewrite He1).
    rewrite (searchForGoalOnce_unmatched st Hm). cbn [snd trace].
    now rewrite <- app_assoc.
  - intros Hempty e1 e2 He1 He2. assert (primaryMatch st = None) as Hm
      by (unfold primaryMatch; now rewrite He1).
    rewrite (searchForGoalOnce_unmatched st Hm). cbn [fst].
    rewrite He1, He2. cbn [uniqueByURL]. now rewrite Hempty.
  - intros He1 He2 Hm1 Hm2. assert (primaryMatch st = None) as Hm
      by (unfold primaryMatch; now rewrite He1).
    rewrite (searchForGoalOnce_unmatched st Hm). cbn [fst].
    rewrite He1, He2. now rewrite Hm2.
Qed.

Lemma searchForGoalOnce_trace (st : State) :
  trace (searchForGoalOnce findBestMatch c goal fetcher st).2
  = trace st ++ primaryCall :: (if primaryMatch st is Some _ then [] else [secondaryCall]).
Proof.
  destruct (primaryMatch st) as [m|] eqn:Hm.
  - now rewrite (searchForGoalOnce_matched st m Hm).
  - rewrite (searchForGoalOnce_unmatched st Hm). cbn [snd trace].
    now rewrite <- app_assoc.
Qed.

(** C4. Within one attempt the first request is the primary query: the
    home team, the away team and the minute followed by an apostrophe,
    separated by single spaces, with limit 15 and the match time of the
    goal.  When that call succeeds and the matcher finds a match among its
    results, no second request is made and the link returned carries the
    match id and minute of the goal, the URL, title and post URL of that
    match, and the time read after the call.  Otherwise exactly one more
    request follows, the secondary query: the scoring team and the minute
    marker, with the same limit and match time. *)
Theorem searchForGoalOnce_short_circuit (st : State) :
  let r := searchForGoalOnce findBestMatch c goal fetcher st in
  let marker := pretty (GoalInfo.Minute goal) +:+ "'" in
  let both := GoalInfo.HomeTeam goal +:+ " " +:+ GoalInfo.AwayTeam goal +:+ " " +:+ marker in
  let scoringTeam := if GoalInfo.IsHomeTeam goal then GoalInfo.HomeTeam goal
                     else GoalInfo.AwayTeam goal in
  let primary := EvSearch (channel fetcher) both 15 (GoalInfo.MatchTime goal) in
  let secondary := EvSearch (channel fetcher) (scoringTeam +:+ " " +:+ marker) 15
                     (GoalInfo.MatchTime goal) in
  let answer := Search fetcher (trace st) both 15 (GoalInfo.MatchTime goal) in
  let found := if answer.2 is None then findBestMatch answer.1 goal else None in
  match found with
  | Some m =>
      trace r.2 = trace st ++ [primary]
      /\ cache r.2 = cache st
      /\ r.1.2 = None
      /\ exists link,
           r.1.1 = Some link
           /\ GoalLink.MatchID link = GoalInfo.MatchID goal
           /\ GoalLink.Minute link = GoalInfo.Minute goal
           /\ GoalLink.URL link = SearchResult.URL m
           /\ GoalLink.Title link = SearchResult.Title m
           /\ GoalLink.PostURL link = SearchResult.PostURL m
           /\ GoalLink.FetchedAt link = timeNow c (trace st ++ [primary])
  | None => trace r.2 = trace st ++ [primary; secondary]
  end.
Proof.
  intros r marker both scoringTeam primary secondary answer found.
  change found with (primaryMatch st). change primary with primaryCall.
  change secondary with secondaryCall. subst r.
  pose proof (searchForGoalOnce_trace st) as Ht.
  destruct (primaryMatch st) as [m|] eqn:Hm; [|exact Ht].
  split; [exact Ht|]. rewrite (searchForGoalOnce_matched st m Hm). cbn [fst snd cache].
  split; [reflexivity|]. split; [reflexivity|].
  eexists. split; [reflexivity|]. now repeat split.
Qed.

End OnceFacts.

Lemma searchForGoalOnce_never_errors_witness :
  let f := failingFetcher PublicChannel "fetch from reddit: timeout" in
  let r := searchForGoalOnce titleMatch (publicOnly f) sampleGoal f emptyState in
  r.1.2 = None
  /\ trace r.2 = [primaryCall sampleGoal f; secondaryCall sampleGoal f]
  /\ r.1 = (None, None).
Proof.
  intros f r.
  destruct (searchForGoalOnce_never_errors titleMatch (publicOnly f) sampleGoal f
              emptyState) as (H1 & H2 & H3 & _).
  split; [exact H1|]. split.
  - exact (H2 _ eq_refl).
  - exact (H3 (fun g => eq_refl) _ _ eq_refl eq_refl).
Defined.

Example short_circuit_sample :
  trace (searchForGoalOnce titleMatch (publicOnly (constFetcher PublicChannel [sampleHit]))
           sampleGoal (constFetcher PublicChannel [sampleHit]) emptyState).2
  = [EvSearch PublicChannel "Arsenal Chelsea 23'" 15 (1700000000 * GoTime.Second)].
Proof. reflexivity. Qed.

(** *** Resolving one goal *)

Section GoalLinkFacts.
Context (findBestMatch : list SearchResult.t -> GoalInfo.t -> option SearchResult.t).
Context (c : Client.t).

Local Abbreviation activeFetcher := (ClientSpec.activeFetcher c).

Lemma GoalLink_hit (goal : GoalInfo.t) (st : State) (entry : ResolutionOutcome) :
  Get (cache st) (keyOf goal) = Some entry ->
  GoalLink findBestMatch c goal st = ((cachedAnswer entry, None), st).
Proof.
  intros Hget. unfold GoalLink, bind, cacheGet, ret. rewrite Hget.
  now destruct entry.
Qed.

(** C1. When the key of a goal has a cache entry, [GoalLink] answers from
    the entry and leaves the state as it was, so no fetcher is called: a
    [Found] entry is returned as the link, the [NotFound] marker as nil
    without an error; and this stays so for any number of further calls
    as long as nothing clears the entry. *)
Theorem GoalLink_cached (goal : GoalInfo.t) (st : State) (entry : ResolutionOutcome) :
  Get (cache st) (keyOf goal) = Some entry ->
  GoalLink findBestMatch c goal st = ((cachedAnswer entry, None), st)
  /\ (IsNotFound entry = true -> (GoalLink findBestMatch c goal st).1 = (None, None))
  /\ forall n, Nat.iter n (fun s => (GoalLink findBestMatch c goal s).2) st = st.
Proof.
  intros Hget. pose proof (GoalLink_hit goal st entry Hget) as Hhit.
  split; [exact Hhit|]. split.
  - intros Hnf. rewrite Hhit. now destruct entry.
  - induction n as [|n IH]; [reflexivity|]. now rewrite Nat.iter_succ, IH, Hhit.
Qed.

Lemma retryLoop_first (goal : GoalInfo.t) (n : nat) (st : State) :
  retryLoop findBestMatch c goal (S n) 0 st
  = searchForGoalOnce findBestMatch c goal (publicFetcher c) st.
Proof.
  cbn [retryLoop]. unfold bind, ret. cbn [Z.ltb Z.compare].
  pose proof (searchForGoalOnce_err_nil findBestMatch c goal (publicFetcher c) st) as Herr.
  destruct (searchForGoalOnce findBestMatch c goal (publicFetcher c) st)
    as [[link err] st'].
  cbn in Herr. subst err. reflexivity.
Qed.

(** Whatever the fetcher answers, [searchForGoal] is one attempt on the
    fetcher it selects. *)
Lemma searchForGoal_once (goal : GoalInfo.t) (st : State) :
  searchForGoal findBestMatch c goal st
  = searchForGoalOnce findBestMatch c goal (activeFetcher st) st.
Proof.
  unfold searchForGoal, activeFetcher, bind, available, ret.
  destruct (oauthFetcher c) as [o|]; [|apply retryLoop_first].
  destruct (IsAvailable o (trace st)); [|apply retryLoop_first].
  pose proof (searchForGoalOnce_err_nil findBestMatch c goal (asFetcher o) st) as Herr.
  destruct (searchForGoalOnce findBestMatch c goal (asFetcher o) st) as [[link err] st'].
  cbn in Herr. subst err. reflexivity.
Qed.

(** C3 (what the code does). With the authenticated channel unavailable and
    a public fetcher that fails every call, [searchForGoal] makes a single
    attempt: the two queries of one [searchForGoalOnce], no sleep, and the
    answer [(nil, nil)]. *)
Theorem searchForGoal_blocked_one_attempt (goal : GoalInfo.t) (st : State) :
  (forall g, findBestMatch [] g = None) ->
  oauthUnavailable c st ->
  (forall h q l t, (Search (publicFetcher c) h q l t).2
                   = Some "reddit is blocking requests (CAPTCHA/bot detection)"%string) ->
  searchForGoal findBestMatch c goal st
  = ((None, None),
     mkState (cache st)
       (trace st ++ [EvSearch (channel (publicFetcher c)) (query1 goal) 15 (GoalInfo.MatchTime goal);
                     EvSearch (channel (publicFetcher c)) (query2 goal) 15 (GoalInfo.MatchTime goal)])).
Proof.
  intros Hempty Hoff Hfail.
  assert (activeFetcher st = publicFetcher c) as Hact.
  { unfold ClientSpec.activeFetcher, oauthUnavailable in *.
    destruct (oauthFetcher c) as [o|]; [now rewrite Hoff|reflexivity]. }
  rewrite searchForGoal_once, Hact.
  apply searchForGoalOnce_all_failed; [exact Hempty|].
  intros h q l t. now rewrite Hfail.
Qed.

(** C2 (what the code does). On a cache miss, when every call of the
    selected fetcher fails, [GoalLink] returns no error and writes the
    [NotFound] marker for the key, so the next call for the key is
    answered from the cache without a search. *)
Theorem GoalLink_fetch_failure_cached (goal : GoalInfo.t) (st : State) :
  (forall g, findBestMatch [] g = None) ->
  Get (cache st) (keyOf goal) = None ->
  (forall h q l t, (Search (activeFetcher st) h q l t).2 <> None) ->
  let r := GoalLink findBestMatch c goal st in
  r.1 = (None, None)
  /\ Get (cache r.2) (keyOf goal) = Some NotFound
  /\ GoalLink findBestMatch c goal r.2 = ((None, None), r.2).
Proof.
  intros Hempty Hmiss Hfail r.
  assert (r = ((None, None),
               mkState (SetNotFound (GoalInfo.MatchID goal) (GoalInfo.Minute goal) (cache st))
                 (trace st ++ [primaryCall goal (activeFetcher st);
                               secondaryCall goal (activeFetcher st)]))) as ->.
  { subst r. unfold GoalLink, bind, cacheGet. rewrite Hmiss, searchForGoal_once.
    now rewrite (searchForGoalOnce_all_failed findBestMatch c goal _ st Hempty Hfail). }
  cbn [fst snd cache].
  assert (Get (SetNotFound (GoalInfo.MatchID goal) (GoalInfo.Minute goal) (cache st))
            (keyOf goal) = Some NotFound) as Hget
    by apply lookup_insert_eq.
  split; [reflexivity|]. split; [exact Hget|].
  exact (GoalLink_hit goal (mkState _ _) NotFound Hget).
Qed.

End GoalLinkFacts.

Lemma GoalLink_cached_witness :
  let st := mkState (SetNotFound 555 23 ∅) [] in
  let c := publicOnly (constFetcher PublicChannel [sampleHit]) in
  GoalLink titleMatch c sampleGoal st = ((None, None), st)
  /\ (GoalLink titleMatch c sampleGoal st).1 = (None, None)
  /\ forall n, Nat.iter n (fun s => (GoalLink titleMatch c sampleGoal s).2) st = st.
Proof.
  intros st c.
  destruct (GoalLink_cached titleMatch c sampleGoal st NotFound) as (H1 & H2 & H3).
  - reflexivity.
  - split; [exact H1|]. split; [exact (H2 eq_refl)|exact H3].
Defined.

Lemma searchForGoal_blocked_one_attempt_witness :
  searchForGoal titleMatch (publicOnly blockedFetcher) sampleGoal emptyState
  = ((None, None),
     mkState ∅ [EvSearch PublicChannel "Arsenal Chelsea 23'" 15 (1700000000 * GoTime.Second);
                EvSearch PublicChannel "Arsenal 23'" 15 (1700000000 * GoTime.Second)]).
Proof.
  apply (searchForGoal_blocked_one_attempt titleMatch (publicOnly blockedFetcher)
           sampleGoal emptyState).
  - intros g. reflexivity.
  - exact I.
  - intros h q l t. reflexivity.
Defined.

Lemma GoalLink_fetch_failure_cached_witness :
  let c := publicOnly (failingFetcher PublicChannel "fetch from reddit: timeout") in
  let r := GoalLink titleMatch c sampleGoal emptyState in
  r.1 = (None, None)
  /\ Get (cache r.2) (keyOf sampleGoal) = Some NotFound
  /\ GoalLink titleMatch c sampleGoal r.2 = ((None, None), r.2).
Proof.
  apply (GoalLink_fetch_failure_cached titleMatch).
  - intros g. reflexivity.
  - reflexivity.
  - intros h q l t. discriminate.
Defined.

(** *** Resolving many goals *)

Section GoalLinksFacts.
Context (findBestMatch : list SearchResult.t -> GoalInfo.t -> option SearchResult.t).
Context (c : Client.t).

Local Abbreviation resolveSeq := (ClientSpec.resolveSeq findBestMatch c).
Local Abbreviation resolveQuiet := (ClientSpec.resolveQuiet findBestMatch c).

Lemma resolveBatch_collect (batch : list GoalInfo.t) :
  forall (results : gmap GoalLinkKey GoalLink.t) (st : State),
  resolveBatch findBestMatch c batch results st
  = (collect results (resolveQuiet batch st).1, (resolveQuiet batch st).2).
Proof.
  induction batch as [|goal rest IH]; intros results st; [reflexivity|].
  cbn [resolveBatch resolveQuiet]. unfold bind, ret.
  destruct (GoalLink findBestMatch c goal st) as [[link err] st1].
  destruct (resolveQuiet rest st1) as [rs st2] eqn:Eq.
  cbn [fst snd collect foldl]. unfold collectOne at 2. cbn [fst snd].
  destruct link as [link|], err as [err|]; rewrite IH, Eq; reflexivity.
Qed.

Lemma resolveSeq_quiet (batch : list GoalInfo.t) : forall (j : nat) (st : State),
  (0 < j mod 5)%nat -> (j mod 5 + length batch <= 5)%nat ->
  resolveSeq j batch st = resolveQuiet batch st.
Proof.
  induction batch as [|goal rest IH]; intros j st Hpos Hlen; [reflexivity|].
  cbn [resolveSeq resolveQuiet]. unfold bind, BatchSize.
  replace (j mod 5 =? 0)%nat with false by (symmetry; apply Nat.eqb_neq; lia).
  rewrite andb_false_r. unfold ret at 1.
  destruct (GoalLink findBestMatch c goal st) as [r st1].
  destruct rest as [|goal' rest']; [reflexivity|].
  rewrite IH; [reflexivity| |].
  - cbn [length] in Hlen. replace (S j) with (j + 1)%nat by lia.
    rewrite <- Nat.Div0.add_mod_idemp_l, Nat.mod_small; lia.
  - cbn [length] in *. replace (S j) with (j + 1)%nat by lia.
    rewrite <- Nat.Div0.add_mod_idemp_l, Nat.mod_small; lia.
Qed.

Lemma resolveSeq_app (a b : list GoalInfo.t) : forall (j : nat) (st : State),
  resolveSeq j (a ++ b) st
  = (let ra := resolveSeq j a st in
     let rb := resolveSeq (j + length a) b ra.2 in (ra.1 ++ rb.1, rb.2)).
Proof.
  induction a as [|goal rest IH]; intros j st.
  - cbn [app length resolveSeq]. unfold ret. cbn [fst snd]. rewrite Nat.add_0_r.
    now destruct (resolveSeq j b st).
  - cbn [app resolveSeq length]. unfold bind, ret.
    destruct ((if (0 <? j)%nat && (j mod 5 =? 0)%nat
               then sleep (2 * GoTime.Second) else λ st0 : State, (tt, st0)) st) as [[] st0].
    destruct (GoalLink findBestMatch c goal st0) as [r st1]. rewrite IH. cbv zeta.
    destruct (resolveSeq (S j) rest st1) as [ra st2]. cbn [fst snd].
    replace (j + S (length rest))%nat with (S j + length rest)%nat by lia.
    now destruct (resolveSeq (S j + length rest) b st2).
Qed.

Lemma collect_app (results : gmap GoalLinkKey GoalLink.t) (a b : list Answer) :
  collect results (a ++ b) = collect (collect results a) b.
Proof. apply foldl_app. Qed.

Lemma batchLoop_resolveSeq (fuel : nat) :
  forall (l : list GoalInfo.t) (i : nat) (results : gmap GoalLinkKey GoalLink.t) (st : State),
  (i mod 5 = 0)%nat -> (length l <= i + 5 * fuel)%nat ->
  batchLoop findBestMatch c fuel l i results st
  = (collect results (resolveSeq i (drop i l) st).1, (resolveSeq i (drop i l) st).2).
Proof.
  induction fuel as [|fuel IH]; intros l i results st Hi Hlen.
  - rewrite drop_ge by lia. reflexivity.
  - cbn [batchLoop]. destruct (Nat.ltb_spec i (length l)) as [Hlt|Hge].
    2:{ rewrite drop_ge by lia. reflexivity. }
    assert (take ((if (length l <? i + BatchSize)%nat then length l
                   else (i + BatchSize)%nat) - i) (drop i l) = take 5 (drop i l)) as ->.
    { unfold BatchSize. destruct (Nat.ltb_spec (length l) (i + 5)) as [H|H].
      - rewrite !take_ge; [reflexivity| |]; rewrite length_drop; lia.
      - f_equal. lia. }
    assert (drop (i + BatchSize) l = drop 5 (drop i l)) as Hrest
      by (now rewrite drop_drop).
    destruct (drop i l) as [|goal tl] eqn:Ed.
    { apply (f_equal length) in Ed. rewrite length_drop in Ed. cbn in Ed. lia. }
    assert (length tl = length l - i - 1)%nat as Htl.
    { apply (f_equal length) in Ed. rewrite length_drop in Ed. cbn in Ed. lia. }
    cbn [take drop] in *.
    pose proof (take_drop 4 tl) as Hsplit.
    assert (length (take 4 tl) <= 4)%nat as Hb4 by (rewrite length_take; lia).
    assert (drop 4 tl <> [] -> length (take 4 tl) = 4%nat) as Hfull.
    { intros Hne. rewrite length_take. destruct (drop 4 tl) eqn:Ed4; [done|].
      apply (f_equal length) in Ed4. rewrite length_drop in Ed4. cbn in Ed4. lia. }
    set (b := take 4 tl) in *. set (rest := drop 4 tl) in *.
    rewrite <- Hsplit. clearbody b rest. clear Hsplit Htl Ed.
    change BatchSize with 5%nat in *.
    cbn [resolveSeq]. unfold bind, BatchDelay.
    rewrite Hi. cbn [Nat.eqb]. rewrite andb_true_r.
    destruct ((if (0 <? i)%nat then sleep (2 * GoTime.Second) else ret tt) st) as [[] st0].
    rewrite resolveBatch_collect. cbn [resolveQuiet]. unfold bind, ret.
    destruct (GoalLink findBestMatch c goal st0) as [r st1].
    rewrite resolveSeq_app. cbv zeta.
    rewrite (resolveSeq_quiet b (S i) st1).
    2:{ replace (S i) with (i + 1)%nat by lia.
        rewrite <- Nat.Div0.add_mod_idemp_l, Hi. cbn. lia. }
    2:{ replace (S i) with (i + 1)%nat by lia.
        rewrite <- Nat.Div0.add_mod_idemp_l, Hi. cbn. lia. }
    destruct (resolveQuiet b st1) as [ra st2]. cbn [fst snd].
    rewrite IH, Hrest.
    2:{ rewrite <- Nat.Div0.add_mod_idemp_l, Hi. reflexivity. }
    2:{ lia. }
    assert (resolveSeq (i + 5) rest st2
            = resolveSeq (S i + length b) rest st2) as ->.
    { destruct rest as [|g' tl']; [reflexivity|].
      f_equal. rewrite Hfull by done. lia. }
    destruct (resolveSeq (S i + length b) rest st2) as [rb st3].
    cbn [fst snd]. f_equal.
    change ((goal, r) :: ra ++ rb) with (((goal, r) :: ra) ++ rb).
    now rewrite collect_app.
Qed.

Lemma unseen_cons (seen : gset GoalLinkKey) (goal : GoalInfo.t) (rest : list GoalInfo.t) :
  unseen seen (goal :: rest)
  = if decide (keyOf goal ∈ seen) then unseen seen rest
    else goal :: unseen ({[keyOf goal]} ∪ seen) rest.
Proof.
  unfold unseen. cbn [firstByKey]. rewrite filter_cons, list_filter_filter.
  destruct (decide (keyOf goal ∈ seen)) as [Hin|Hout].
  - rewrite decide_False by (intros H; now apply H).
    apply list_filter_iff. intros g. split; [tauto|].
    intros Hg. split; [exact Hg|]. intros Heq. apply Hg. now rewrite Heq.
  - rewrite decide_True by exact Hout. f_equal.
    apply list_filter_iff. intros g. rewrite elem_of_union, elem_of_singleton. tauto.
Qed.

Lemma unseen_empty (goals : list GoalInfo.t) : unseen ∅ goals = firstByKey goals.
Proof.
  unfold unseen. induction (firstByKey goals) as [|g l IH]; [reflexivity|].
  rewrite filter_cons_True by set_solver. now rewrite IH.
Qed.

Lemma unseen_keys (seen : gset GoalLinkKey) (goals : list GoalInfo.t) (k : GoalLinkKey) :
  k ∈ seen -> k ∉ keyOf <$> unseen seen goals.
Proof.
  intros Hk Hin. apply list_elem_of_fmap in Hin as (g & -> & Hg).
  unfold unseen in Hg. apply list_elem_of_filter in Hg as [Hg _]. now apply Hg.
Qed.

Lemma keys_filter_NoDup (P : GoalInfo.t -> Prop) `{forall g, Decision (P g)}
    (l : list GoalInfo.t) :
  NoDup (keyOf <$> l) -> NoDup (keyOf <$> filter P l).
Proof.
  induction l as [|g l IH]; intros Hnd; [constructor|].
  cbn [fmap list_fmap] in Hnd. apply NoDup_cons in Hnd as [Hg Hnd].
  rewrite filter_cons. destruct (decide (P g)); [|now apply IH].
  cbn [fmap list_fmap]. apply NoDup_cons. split; [|now apply IH].
  intros Hin. apply Hg. apply list_elem_of_fmap in Hin as (g' & Heq & Hg').
  apply list_elem_of_filter in Hg' as [_ Hg']. rewrite Heq.
  now apply list_elem_of_fmap_2.
Qed.

Lemma firstByKey_NoDup (goals : list GoalInfo.t) : NoDup (keyOf <$> firstByKey goals).
Proof.
  induction goals as [|g rest IH]; [constructor|].
  cbn [firstByKey fmap list_fmap]. apply NoDup_cons. split.
  - intros Hin. apply list_elem_of_fmap in Hin as (g' & Heq & Hg').
    apply list_elem_of_filter in Hg' as [Hne _]. now apply Hne.
  - now apply keys_filter_NoDup.
Qed.

Lemma firstByKey_keys (goals : list GoalInfo.t) (k : GoalLinkKey) :
  k ∈ keyOf <$> firstByKey goals <-> k ∈ keyOf <$> goals.
Proof.
  induction goals as [|g rest IH]; [reflexivity|].
  cbn [firstByKey fmap list_fmap]. rewrite !elem_of_cons, <- IH.
  rewrite !list_elem_of_fmap. split.
  - intros [->|(g' & -> & Hg')]; [now left|].
    apply list_elem_of_filter in Hg' as [_ Hg']. right. now exists g'.
  - intros [->|(g' & -> & Hg')]; [now left|].
    destruct (decide (keyOf g' = keyOf g)) as [Heq|Hne]; [now left|].
    right. exists g'. split; [reflexivity|]. now apply list_elem_of_filter.
Qed.

Lemma partitionGoals_spec (cache : GoalLinkCache.t) (goals : list GoalInfo.t) :
  forall (seen : gset GoalLinkKey) (results : gmap GoalLinkKey GoalLink.t)
         (acc : list GoalInfo.t),
  (partitionGoals cache goals seen results acc).2
  = acc ++ uncached cache (unseen seen goals)
  /\ forall k, (partitionGoals cache goals seen results acc).1 !! k
               = match cachedLink cache (unseen seen goals) k with
                 | Some link => Some link
                 | None => results !! k
                 end.
Proof.
  induction goals as [|goal rest IH]; intros seen results acc.
  - cbn. split; [now rewrite app_nil_r|]. intros k. reflexivity.
  - cbn [partitionGoals]. rewrite unseen_cons.
    destruct (decide (keyOf goal ∈ seen)) as [Hin|Hout]; [apply IH|].
    assert (forall k, cachedLink cache (goal :: unseen ({[keyOf goal]} ∪ seen) rest) k
                      = if decide (k = keyOf goal)
                        then match Get cache k with Some (Found link) => Some link | _ => None end
                        else cachedLink cache (unseen ({[keyOf goal]} ∪ seen) rest) k) as Hcl.
    { intros k. unfold cachedLink. cbn [fmap list_fmap].
      destruct (decide (k = keyOf goal)) as [->|Hne].
      - rewrite decide_True by (apply elem_of_cons; now left). reflexivity.
      - destruct (decide (k ∈ keyOf <$> unseen ({[keyOf goal]} ∪ seen) rest)) as [Hk|Hk].
        + rewrite decide_True by (apply elem_of_cons; now right). reflexivity.
        + rewrite decide_False; [reflexivity|].
          intros [?|?]%elem_of_cons; contradiction. }
    assert (cachedLink cache (unseen ({[keyOf goal]} ∪ seen) rest) (keyOf goal) = None)
      as Hself.
    { unfold cachedLink. rewrite decide_False; [reflexivity|].
      apply unseen_keys. apply elem_of_union. left. now apply elem_of_singleton. }
    unfold uncached in *. rewrite filter_cons.
    destruct (Get cache (keyOf goal)) as [[link|]|] eqn:Hget.
    + rewrite decide_False by done.
      destruct (IH ({[keyOf goal]} ∪ seen) (<[keyOf goal := link]> results) acc) as [H1 H2].
      split; [exact H1|]. intros k. rewrite H2, Hcl.
      destruct (decide (k = keyOf goal)) as [->|Hne].
      * now rewrite Hself, Hget, lookup_insert_eq.
      * now rewrite lookup_insert_ne.
    + rewrite decide_False by done.
      destruct (IH ({[keyOf goal]} ∪ seen) results acc) as [H1 H2].
      split; [exact H1|]. intros k. rewrite H2, Hcl.
      destruct (decide (k = keyOf goal)) as [->|Hne]; [|reflexivity].
      now rewrite Hself, Hget.
    + rewrite decide_True by done.
      destruct (IH ({[keyOf goal]} ∪ seen) results (acc ++ [goal])) as [H1 H2].
      split; [now rewrite H1, <- app_assoc|]. intros k. rewrite H2, Hcl.
      destruct (decide (k = keyOf goal)) as [->|Hne]; [|reflexivity].
      now rewrite Hself, Hget.
Qed.

Lemma resolveSeq_goals (todo : list GoalInfo.t) : forall (j : nat) (st : State),
  fst <$> (resolveSeq j todo st).1 = todo.
Proof.
  induction todo as [|goal rest IH]; intros j st; [reflexivity|].
  cbn [resolveSeq]. unfold bind, ret.
  destruct ((if (0 <? j)%nat && (j mod 5 =? 0)%nat
             then sleep (2 * GoTime.Second) else λ st0 : State, (tt, st0)) st) as [[] st0].
  destruct (GoalLink findBestMatch c goal st0) as [r st1].
  specialize (IH (S j) st1). destruct (resolveSeq (S j) rest st1) as [rs st2].
  cbn [fst snd fmap list_fmap] in *. now rewrite IH.
Qed.

Lemma collect_lookup (answers : list Answer) :
  forall (results : gmap GoalLinkKey GoalLink.t) (k : GoalLinkKey) (link : GoalLink.t),
  NoDup (keyOf <$> (fst <$> answers)) ->
  (forall g, g ∈ fst <$> answers -> results !! keyOf g = None) ->
  collect results answers !! k = Some link
  <-> results !! k = Some link
      \/ exists g, (g, (Some link, None)) ∈ answers /\ keyOf g = k.
Proof.
  induction answers as [|[g r] rest IH]; intros results k link Hnd Hfresh.
  - cbn. split; [now left|]. intros [H|(g & Hin & _)]; [exact H|].
    now apply elem_of_nil in Hin.
  - cbn [fmap list_fmap fst] in Hnd, Hfresh. apply NoDup_cons in Hnd as [Hg Hnd].
    change (collect results ((g, r) :: rest)) with (collect (collectOne results (g, r)) rest).
    assert (forall g', g' ∈ fst <$> rest -> collectOne results (g, r) !! keyOf g' = None)
      as Hfresh'.
    { intros g' Hg'. unfold collectOne. cbn [fst snd].
      assert (keyOf g <> keyOf g') as Hne
        by (intros Heq; apply Hg; rewrite Heq; now apply list_elem_of_fmap_2).
      assert (results !! keyOf g' = None) as Hnone
        by (apply Hfresh, elem_of_cons; now right).
      destruct r as [[l|] [e|]]; try exact Hnone.
      now rewrite lookup_insert_ne. }
    rewrite (IH _ k link Hnd Hfresh'). clear IH.
    assert (results !! keyOf g = None) as Hnone
      by (apply Hfresh, elem_of_cons; now left).
    assert (collectOne results (g, r) !! k = Some link
            <-> results !! k = Some link \/ (r = (Some link, None) /\ keyOf g = k)) as ->.
    { unfold collectOne. cbn [fst snd].
      destruct r as [[l|] [e|]]; try (split; [now left|intros [H|[H _]]; [exact H|discriminate]]).
      destruct (decide (keyOf g = k)) as [<-|Hne].
      - rewrite lookup_insert_eq, Hnone. split.
        + intros [= ->]. right. now split.
        + intros [H|[[= ->] _]]; [discriminate|reflexivity].
      - rewrite lookup_insert_ne by exact Hne. split; [now left|].
        intros [H|[_ H]]; [exact H|contradiction]. }
    split.
    + intros [[H|[-> Hk]]|(g' & Hin & Hk)].
      * now left.
      * right. exists g. split; [apply elem_of_cons; now left|exact Hk].
      * right. exists g'. split; [apply elem_of_cons; now right|exact Hk].
    + intros [H|(g' & Hin & Hk)]; [now left; left|].
      apply elem_of_cons in Hin as [[= -> ->]|Hin].
      * left. right. now split.
      * right. now exists g'.
Qed.

Lemma GoalLink_trace (goal : GoalInfo.t) (st : State) :
  exists evs, trace (GoalLink findBestMatch c goal st).2 = trace st ++ evs
              /\ filter isSleep evs = [].
Proof.
  unfold GoalLink, bind, cacheGet, ret.
  destruct (Get (cache st) (keyOf goal)) as [[link|]|].
  1,2: exists []; split; [now rewrite app_nil_r|reflexivity].
  rewrite searchForGoal_once.
  pose proof (searchForGoalOnce_err_nil findBestMatch c goal
                (activeFetcher c st) st) as Herr.
  pose proof (searchForGoalOnce_trace findBestMatch c goal
                (activeFetcher c st) st) as Htr.
  destruct (searchForGoalOnce findBestMatch c goal (activeFetcher c st) st)
    as [[link err] st1].
  cbn [fst snd] in *. subst err.
  eexists. split.
  - destruct link; cbn [cacheSet cacheSetNotFound snd trace]; exact Htr.
  - now destruct (primaryMatch _ _ _ _).
Qed.

Lemma resolveSeq_trace (todo : list GoalInfo.t) : forall (j : nat) (st : State),
  exists evs, trace (resolveSeq j todo st).2 = trace st ++ evs
              /\ filter isSleep evs
                 = (fun _ => EvSleep (2 * GoTime.Second)) <$> filter delayDue (seq j (length todo)).
Proof.
  induction todo as [|goal rest IH]; intros j st.
  - exists []. split; [now rewrite app_nil_r|reflexivity].
  - cbn [resolveSeq length seq]. unfold bind, ret. rewrite filter_cons.
    assert (exists pre, ((if (0 <? j)%nat && (j mod 5 =? 0)%nat
                          then sleep (2 * GoTime.Second) else λ st0 : State, (tt, st0)) st).2
                        = mkState (cache st) (trace st ++ pre)
                        /\ pre = if decide (delayDue j) then [EvSleep (2 * GoTime.Second)] else [])
      as (pre & Hpre & Hpre').
    { unfold delayDue.
      destruct (Nat.ltb_spec 0 j) as [H0|H0], (Nat.eqb_spec (j mod 5) 0) as [H5|H5];
        cbn [andb].
      - eexists. split; [reflexivity|]. now rewrite decide_True.
      - exists []. rewrite app_nil_r, decide_False by tauto. now destruct st.
      - exists []. rewrite app_nil_r, decide_False by lia. now destruct st.
      - exists []. rewrite app_nil_r, decide_False by tauto. now destruct st. }
    destruct ((if (0 <? j)%nat && (j mod 5 =? 0)%nat
               then sleep (2 * GoTime.Second) else λ st0 : State, (tt, st0)) st) as [[] st0].
    cbn [snd] in Hpre. subst st0.
    destruct (GoalLink_trace goal (mkState (cache st) (trace st ++ pre)))
      as (evs1 & Ht1 & Hs1).
    destruct (GoalLink findBestMatch c goal _) as [r st1]. cbn [snd trace] in Ht1.
    destruct (IH (S j) st1) as (evs2 & Ht2 & Hs2).
    destruct (resolveSeq (S j) rest st1) as [rs st2]. cbn [snd] in *.
    exists (pre ++ evs1 ++ evs2). split.
    + now rewrite Ht2, Ht1, <- !app_assoc.
    + rewrite !filter_app, Hs1, Hs2, Hpre'.
      now destruct (decide (delayDue j)).
Qed.

Lemma firstByKey_first (goals : list GoalInfo.t) (g : GoalInfo.t) :
  g ∈ firstByKey goals ->
  List.find (fun h => bool_decide (keyOf h = keyOf g)) goals = Some g.
Proof.
  induction goals as [|a rest IH]; intros Hg; [now apply elem_of_nil in Hg|].
  cbn [firstByKey] in Hg. cbn [List.find].
  apply elem_of_cons in Hg as [->|Hg].
  - now rewrite bool_decide_eq_true_2.
  - apply list_elem_of_filter in Hg as [Hne Hg].
    rewrite bool_decide_eq_false_2 by (intros Heq; now apply Hne).
    now apply IH.
Qed.

(** C5. [GoalLinks] keeps the first goal of every key, the key of a goal
    being its match id and minute, leaves out those the cache has an entry
    for (positive or [NotFound]), and calls [GoalLink] once on each
    remaining goal, in order and whatever the earlier answers were,
    sleeping two seconds before the goals at positions 5, 10, ... of that
    queue and nowhere else; the map it returns holds a key exactly when
    the key is one of the input's and the cache held a link for it, or its
    goal was answered with a link. *)
Theorem GoalLinks_spec (goals : list GoalInfo.t) (st : State) :
  let key := fun g : GoalInfo.t => (GoalInfo.MatchID g, GoalInfo.Minute g) in
  let first := firstByKey goals in
  let todo := filter (fun g => Get (cache st) (key g) = None) first in
  let run := resolveSeq 0 todo st in
  let out := GoalLinks findBestMatch c goals st in
  out.2 = run.2
  /\ fst <$> run.1 = todo
  /\ NoDup (key <$> first)
  /\ (forall k, k ∈ key <$> first <-> k ∈ key <$> goals)
  /\ (forall g, g ∈ first ->
        List.find (fun h => bool_decide (key h = key g)) goals = Some g)
  /\ (exists evs, trace out.2 = trace st ++ evs
                  /\ filter isSleep evs
                     = (fun _ => EvSleep (2 * GoTime.Second))
                         <$> filter (fun j => (0 < j)%nat /\ (j mod 5 = 0)%nat)
                               (seq 0 (length todo)))
  /\ (forall k link,
        out.1 !! k = Some link
        <-> (k ∈ key <$> goals /\ Get (cache st) k = Some (Found link))
            \/ exists g, (g, (Some link, None)) ∈ run.1 /\ key g = k).
Proof.
  intros key first todo run out.
  change key with keyOf in *. clear key. subst first.
  destruct (partitionGoals_spec (cache st) goals ∅ ∅ []) as [Hq Hres].
  rewrite unseen_empty in Hq, Hres. cbn [app] in Hq.
  change (uncached (cache st) (firstByKey goals)) with todo in Hq.
  assert (out = (collect (partitionGoals (cache st) goals ∅ ∅ []).1 run.1, run.2)) as Hout.
  { subst out run. unfold GoalLinks.
    destruct (partitionGoals (cache st) goals ∅ ∅ []) as [results queue].
    cbn [fst snd] in *. subst queue.
    rewrite batchLoop_resolveSeq by (cbn; lia). reflexivity. }
  pose proof (resolveSeq_goals todo 0 st) as Hgoals. fold run in Hgoals.
  split; [now rewrite Hout|]. split; [exact Hgoals|].
  split; [apply firstByKey_NoDup|]. split; [apply firstByKey_keys|].
  split; [apply firstByKey_first|]. split.
  { rewrite Hout. cbn [snd]. apply resolveSeq_trace. }
  intros k link. rewrite Hout. cbn [fst].
  assert (forall g, g ∈ todo -> Get (cache st) (keyOf g) = None) as Hmiss.
  { intros g Hg. unfold todo in Hg. now apply list_elem_of_filter in Hg as [Hg _]. }
  rewrite collect_lookup.
  - rewrite Hres. unfold cachedLink.
    assert ((match (if decide (k ∈ keyOf <$> firstByKey goals)
                    then match Get (cache st) k with
                         | Some (Found l) => Some l
                         | _ => None
                         end
                    else None) with
             | Some l => Some l
             | None => (∅ : gmap GoalLinkKey GoalLink.t) !! k
             end) = Some link
            <-> k ∈ keyOf <$> goals /\ Get (cache st) k = Some (Found link)) as ->;
      [|reflexivity].
    rewrite lookup_empty. pose proof (firstByKey_keys goals k) as Hkeys.
    destruct (decide (k ∈ keyOf <$> firstByKey goals)) as [Hk|Hk].
    + destruct (Get (cache st) k) as [[l|]|]; split.
      * intros [= ->]. split; [now apply Hkeys|reflexivity].
      * now intros [_ [= ->]].
      * discriminate.
      * now intros [_ [=]].
      * discriminate.
      * now intros [_ [=]].
    + split; [discriminate|]. intros [Hin _]. now apply Hkeys in Hin.
  - rewrite Hgoals. apply keys_filter_NoDup, firstByKey_NoDup.
  - rewrite Hgoals. intros g Hg. rewrite Hres. unfold cachedLink.
    rewrite (Hmiss g Hg), lookup_empty. now destruct (decide _).
Qed.

End GoalLinksFacts.

Example GoalLinks_duplicate_resolved_once :
  let out := GoalLinks titleMatch (publicOnly (constFetcher PublicChannel [sampleHit]))
               [sampleGoal; sampleGoalAgain] emptyState in
  trace out.2 = [EvSearch PublicChannel "Arsenal Chelsea 23'" 15 (1700000000 * GoTime.Second)]
  /\ out.1 !! (555, 23) = Some (linkOf sampleGoal sampleHit (1700000100 * GoTime.Second))
  /\ Get (cache out.2) (555, 23)
     = Some (Found (linkOf sampleGoal sampleHit (1700000100 * GoTime.Second))).
Proof. vm_compute. repeat split. Qed.

Example GoalLinks_six_goals_one_delay :
  let goals := goalAt <$> [1; 2; 3; 4; 5; 6] in
  let out := GoalLinks titleMatch (publicOnly (failingFetcher PublicChannel "timeout"))
               goals emptyState in
  trace out.2
  = concat (bothCalls <$> take 5 goals) ++ [EvSleep (2 * GoTime.Second)] ++ bothCalls (goalAt 6)
  /\ out.1 = ∅.
Proof. vm_compute. split; reflexivity. Qed.

Example GoalLinks_skips_cached :
  let st := mkState (SetNotFound 555 1 (SetFound (linkOf (goalAt 2) sampleHit 0) ∅)) [] in
  let out := GoalLinks titleMatch (publicOnly (failingFetcher PublicChannel "timeout"))
               [goalAt 1; goalAt 2] st in
  trace out.2 = []
  /\ out.1 !! (555, 1) = None
  /\ out.1 !! (555, 2) = Some (linkOf (goalAt 2) sampleHit 0).
Proof. vm_compute. repeat split. Qed.

End ClientFacts.

Module OAuthFacts.
Import Http OAuthClient OAuthSpec.

Section TokenFacts.
Context (env : Env).

Local Abbreviation granted := (OAuthSpec.granted env).

Lemma refreshToken_result (c : t) (w : World) :
  tokenMutex c = WLocked ->
  let w' := mkWorld (clock w) (log w ++ [refreshRequest c]) in
  if granted (log w) (refreshRequest c)
  then refreshToken env c w = Blocked c w'
  else exists err, refreshToken env c w = Returned (Some err) c w'.
Proof.
  intros Hm. unfold granted, refreshToken, bind, get, doRequest, refreshRequest.
  destruct (Do env (log w) _) as [err|resp]; [eexists; reflexivity|].
  destruct (StatusCode resp =? StatusOK); cbn [negb andb]; [|eexists; reflexivity].
  destruct (if ReadErr resp is Some err then inl err else decodeOAuth env (Body resp))
    as [err|oauthResp]; [eexists; reflexivity|].
  unfold Lock. cbn [tokenMutex]. now rewrite Hm.
Qed.

Lemma authenticate_result (c : t) (w : World) :
  tokenMutex c = WLocked ->
  let w' := mkWorld (clock w) (log w ++ [authRequest c]) in
  if granted (log w) (authRequest c)
  then authenticate env c w = Blocked c w'
  else exists err, authenticate env c w = Returned (Some err) c w'.
Proof.
  intros Hm. unfold granted, authenticate, bind, get, doRequest, authRequest.
  destruct (Do env (log w) _) as [err|resp]; [eexists; reflexivity|].
  destruct (StatusCode resp =? StatusOK); cbn [negb andb]; [|eexists; reflexivity].
  destruct (if ReadErr resp is Some err then inl err else decodeOAuth env (Body resp))
    as [err|oauthResp]; [eexists; reflexivity|].
  unfold Lock. cbn [tokenMutex]. now rewrite Hm.
Qed.

(** What [ensureValidToken] does, case by case, on a client whose lock is
    free. *)
Lemma ensureValidToken_cases (c : t) (w : World) :
  tokenMutex c = Unlocked ->
  let held := setMutex WLocked c in
  let w1 := mkWorld (clock w) (log w ++ [refreshRequest c]) in
  let w2 := mkWorld (clock w) ((log w ++ [refreshRequest c]) ++ [authRequest c]) in
  let wa := mkWorld (clock w) (log w ++ [authRequest c]) in
  if fresh c w then ensureValidToken env c w = Returned None c w
  else if String.eqb (refreshTokenValue c) "" then
    if granted (log w) (authRequest c)
    then ensureValidToken env c w = Blocked held wa
    else exists err, ensureValidToken env c w = Returned (Some err) c wa
  else if granted (log w) (refreshRequest c)
  then ensureValidToken env c w = Blocked held w1
  else if granted (log w ++ [refreshRequest c]) (authRequest c)
  then ensureValidToken env c w = Blocked held w2
  else exists err, ensureValidToken env c w = Returned (Some err) c w2.
Proof.
  intros Hm. destruct c as [cid csec user pass access refresh expiry mutex rl].
  cbn in Hm. subst mutex. cbv zeta.
  set (held := setMutex WLocked (mk cid csec user pass access refresh expiry Unlocked rl)).
  pose proof (refreshToken_result held w eq_refl) as Href.
  pose proof (authenticate_result held w eq_refl) as Hauth.
  pose proof (authenticate_result held
                (mkWorld (clock w) (log w ++ [refreshRequest held])) eq_refl) as Hauth2.
  cbv zeta in Href, Hauth, Hauth2. cbn [clock log] in Hauth2.
  change (refreshRequest held)
    with (refreshRequest (mk cid csec user pass access refresh expiry Unlocked rl)) in *.
  change (authRequest held)
    with (authRequest (mk cid csec user pass access refresh expiry Unlocked rl)) in *.
  remember (granted (log w) (authRequest _)) as gA eqn:HgA.
  remember (granted (log w) (refreshRequest _)) as gR eqn:HgR.
  remember (granted (log w ++ _) (authRequest _)) as gA2 eqn:HgA2.
  clear HgA HgR HgA2.
  assert (exists b1 b2 b3,
            (clock w <? expiry + -5 * GoTime.Minute) = b1
            /\ (expiry + -5 * GoTime.Minute <? clock w) = b2
            /\ (clock w <=? expiry - 5 * GoTime.Minute) = b3
            /\ ((b1, b2, b3) = (true, false, true) \/ (b1, b2, b3) = (false, false, true)
                \/ (b1, b2, b3) = (false, true, false)))
    as (b1 & b2 & b3 & Hb1 & Hb2 & Hb3 & Hcases).
  { destruct (Z.lt_total (clock w) (expiry - 5 * GoTime.Minute)) as [H|[H|H]].
    - exists true, false, true. repeat split; try lia. now left.
    - exists false, false, true. repeat split; try lia. right. now left.
    - exists false, true, false. repeat split; try lia. right. now right. }
  destruct (String.eqb access "") eqn:Ea, (String.eqb refresh "") eqn:Er;
    destruct Hcases as [[= -> -> ->]|[[= -> -> ->]|[= -> -> ->]]];
    do 4 (cbv [fresh ensureValidToken bind RLock RUnlock Lock Unlock get now ret
               Before After tokenMutex setMutex accessToken tokenExpiry
               refreshTokenValue clientID clientSecret username password rateLimiter];
          rewrite ?Ea, ?Er, ?Hb1, ?Hb2, ?Hb3; cbn [negb andb orb]);
    change (mk cid csec user pass access refresh expiry WLocked rl) with held;
    try reflexivity.
  all: try (destruct gA; [now rewrite Hauth|];
            destruct Hauth as [err ->]; now exists err).
  all: destruct gR; [now rewrite Href|];
       destruct Href as [err ->];
       (destruct gA2; [now rewrite Hauth2|]);
       destruct Hauth2 as [err2 ->]; now exists err2.
Qed.

Lemma issued_app {A} (w : World) (r : Result A) (reqs : list Request) :
  logOf r (log w) = log w ++ reqs -> issued w r = reqs.
Proof. unfold issued. intros ->. apply drop_app_length. Qed.

Lemma ensureValidToken_issued (c : t) (w : World) :
  tokenMutex c = Unlocked ->
  issued w (ensureValidToken env c w)
  = if fresh c w then []
    else if String.eqb (refreshTokenValue c) "" then [authRequest c]
    else if granted (log w) (refreshRequest c) then [refreshRequest c]
    else [refreshRequest c; authRequest c].
Proof.
  intros Hm. pose proof (ensureValidToken_cases c w Hm) as H. cbv zeta in H.
  destruct (fresh c w).
  { rewrite H. apply issued_app. cbn. now rewrite app_nil_r. }
  destruct (String.eqb (refreshTokenValue c) "").
  { destruct (granted (log w) (authRequest c)); [|destruct H as [err H]];
      rewrite H; now apply issued_app. }
  destruct (granted (log w) (refreshRequest c)).
  { rewrite H. now apply issued_app. }
  destruct (granted (log w ++ _) (authRequest c)); [|destruct H as [err H]];
    rewrite H; apply issued_app; cbn; now rewrite <- app_assoc.
Qed.

(** Once a renewal is due, [ensureValidToken] never returns success: a
    granted refresh or authentication ends in [refreshToken] or
    [authenticate] asking for the write lock their caller holds. *)
Lemma ensureValidToken_renewal_blocks (c : t) (w : World) :
  tokenMutex c = Unlocked -> fresh c w = false ->
  forall c' w', ensureValidToken env c w <> Returned None c' w'.
Proof.
  intros Hm Hf c' w'. pose proof (ensureValidToken_cases c w Hm) as H. cbv zeta in H.
  rewrite Hf in H.
  destruct (String.eqb (refreshTokenValue c) "").
  { destruct (granted (log w) (authRequest c)); [|destruct H as [err H]];
      rewrite H; discriminate. }
  destruct (granted (log w) (refreshRequest c)); [rewrite H; discriminate|].
  destruct (granted (log w ++ _) (authRequest c)); [|destruct H as [err H]];
    rewrite H; discriminate.
Qed.


End TokenFacts.

(** *** Sample token states *)



Example ensureValidToken_granted_refresh_blocks :
  ensureValidToken grantingEnv (sampleClient "r1") (mkWorld (6 * GoTime.Minute) [])
  = Blocked (setMutex WLocked (sampleClient "r1"))
      (mkWorld (6 * GoTime.Minute) [refreshRequest (sampleClient "r1")]).
Proof. reflexivity. Qed.

End OAuthFacts.

Module SearchFacts.
Import Http Limiter SearchSpec.

Lemma mediaOnly_allMedia (children : list SearchResult.t) : allMedia (mediaOnly children).
Proof.
  unfold allMedia, mediaOnly. apply List.Forall_forall. intros r Hr.
  apply List.filter_In in Hr as [_ Hr]. now apply String.eqb_eq in Hr.
Qed.

Lemma wait_keeps_abuse (r : rateLimiter) (t : Z) : abuseUnchanged r (wait r t).1.
Proof. now split. Qed.

Lemma getNextUserAgent_keeps_abuse (r r' : rateLimiter) (agent : string) :
  getNextUserAgent r = Some (agent, r') -> abuseUnchanged r r'.
Proof.
  unfold getNextUserAgent. destruct (_ && _); [|discriminate].
  destruct (userAgents !! _); [|discriminate]. cbn. intros [= _ <-]. now split.
Qed.

Lemma getNextUserAgent_in_range (r : rateLimiter) :
  0 <= userAgentIndex r < 5 -> exists agent r', getNextUserAgent r = Some (agent, r').
Proof.
  intros Hi.
  destruct (LimiterFacts.getNextUserAgent_at r (Z.to_nat (userAgentIndex r)))
    as (r' & Hr' & _); [lia|lia|]. eauto.
Qed.

Lemma wrap64_succ (x : Z) : GoTime.wrap64 (x + 1) <> x.
Proof.
  unfold GoTime.wrap64. intros H.
  pose proof (Z.mod_pos_bound (x + 1 + 2 ^ 63) (2 ^ 64) ltac:(lia)) as Hb.
  destruct (Z.eq_dec (x + 1 + 2 ^ 63) (2 ^ 64)) as [He|Hne].
  - rewrite He, Z.mod_same in H by lia. lia.
  - rewrite Z.mod_small in H by lia. lia.
Qed.

Lemma abuse_exclusive (before after : rateLimiter) (t : Z) :
  abuseRecorded before after t -> abuseUnchanged before after -> False.
Proof. intros [H1 _] [H2 _]. rewrite H2 in H1. symmetry in H1. now apply wrap64_succ in H1. Qed.

Section PublicFacts.
Context (env : Env).
Import PublicJSONFetcher.

Lemma public_Search_outcomes (f : PublicJSONFetcher.t) (query : string)
    (limit matchTime : Z) (w : World) :
  0 <= userAgentIndex (PublicJSONFetcher.rateLimiter f) < 5 ->
  exists res f' w' req,
    PublicJSONFetcher.Search env f query limit matchTime w = Some (res, f', w')
    /\ log w' = log w ++ [SearchReq req]
    /\ reqHost req = "www.reddit.com"%string
    /\ (forall err, Do env (log w) (SearchReq req) = inl err ->
          res = ([], Some ("fetch from reddit: " +:+ err))
          /\ abuseUnchanged (PublicJSONFetcher.rateLimiter f)
               (PublicJSONFetcher.rateLimiter f'))
    /\ forall resp, Do env (log w) (SearchReq req) = inr resp ->
         (if challenge env resp
          then res = ([], Some blockedError)
               /\ abuseRecorded (PublicJSONFetcher.rateLimiter f)
                    (PublicJSONFetcher.rateLimiter f') (clock w')
          else abuseUnchanged (PublicJSONFetcher.rateLimiter f)
                 (PublicJSONFetcher.rateLimiter f')
               /\ res <> ([], Some blockedError))
         /\ (StatusCode resp <> StatusOK ->
             res = ([], Some ("reddit API error: status " +:+ pretty (StatusCode resp)
                              +:+ ", body: " +:+ Body resp)))
         /\ (res.2 = None ->
             exists children, decodeSearch env (Body resp) = inr children
                              /\ res.1 = mediaOnly children /\ allMedia res.1).
Proof.
  intros Hi. unfold PublicJSONFetcher.Search.
  pose proof (wait_keeps_abuse (PublicJSONFetcher.rateLimiter f) (clock w)) as Hw.
  destruct (wait (PublicJSONFetcher.rateLimiter f) (clock w)) as [rl now] eqn:Ew.
  cbn [fst] in Hw.
  assert (userAgentIndex rl = userAgentIndex (PublicJSONFetcher.rateLimiter f)) as Hidx
    by (unfold wait in Ew; now injection Ew as <- _).
  destruct (getNextUserAgent_in_range rl) as (agent & rl' & Hg); [now rewrite Hidx|].
  pose proof (getNextUserAgent_keeps_abuse rl rl' agent Hg) as Hg'.
  rewrite Hg. cbn [mbind option_bind].
  set (req := {| reqHost := "www.reddit.com"; reqQuery := query;
                 reqStart := startTime matchTime; reqEnd := endTime matchTime;
                 reqLimit := limit; reqUserAgent := agent; reqBearer := None |}).
  assert (abuseUnchanged (PublicJSONFetcher.rateLimiter f) rl') as Hkeep
    by (destruct Hw, Hg'; split; congruence).
  unfold challenge.
  destruct (Do env (log w) (SearchReq req)) as [err|resp] eqn:Edo.
  { eexists _, _, _, req. split; [reflexivity|]. split; [reflexivity|].
    split; [reflexivity|]. split.
    - intros ? Herr. rewrite Edo in Herr. injection Herr as <-. now split.
    - intros ? Hresp. rewrite Edo in Hresp. discriminate. }
  destruct (Z.eqb_spec (StatusCode resp) StatusOK) as [Hok|Hbad]; cbn [negb].
  2:{ eexists _, _, _, req. do 3 (split; [reflexivity|]).
      split; [intros ? Herr; rewrite Edo in Herr; discriminate|].
      intros ? Hresp; rewrite Edo in Hresp; injection Hresp as <-.
      apply Z.eqb_neq in Hbad as Hbad'. rewrite Hbad'. cbn [andb].
      split; [split; [exact Hkeep|discriminate]|]. split; [reflexivity|]. discriminate. }
  destruct (ReadErr resp) as [rerr|] eqn:Erd.
  { eexists _, _, _, req. do 3 (split; [reflexivity|]).
    split; [intros ? Herr; rewrite Edo in Herr; discriminate|].
    intros ? Hresp; rewrite Edo in Hresp; injection Hresp as <-.
    rewrite Erd, andb_false_r. cbn [andb].
    split; [split; [exact Hkeep|discriminate]|]. split; [contradiction|]. discriminate. }
  destruct (isCaptchaResponse (lowerCase env) (Body resp)) eqn:Ec.
  { eexists _, _, _, req. do 3 (split; [reflexivity|]).
    split; [intros ? Herr; rewrite Edo in Herr; discriminate|].
    intros ? Hresp; rewrite Edo in Hresp; injection Hresp as <-.
    rewrite Erd, Ec, (proj2 (Z.eqb_eq _ _) Hok). cbn [andb].
    split; [|split; [contradiction|discriminate]].
    split; [reflexivity|]. destruct Hkeep as [Hk1 Hk2]. split; cbn; [|reflexivity].
    now rewrite Hk1. }
  destruct (decodeSearch env (Body resp)) as [derr|children] eqn:Ed.
  { destruct (_ || _); eexists _, _, _, req; do 3 (split; [reflexivity|]);
      (split; [intros ? Herr; rewrite Edo in Herr; discriminate|]);
      intros ? Hresp; rewrite Edo in Hresp; injection Hresp as <-; rewrite Ec, andb_false_r;
      (split; [split; [exact Hkeep|discriminate]|]); (split; [contradiction|discriminate]). }
  eexists _, _, _, req. do 3 (split; [reflexivity|]).
  split; [intros ? Herr; rewrite Edo in Herr; discriminate|].
  intros ? Hresp; rewrite Edo in Hresp; injection Hresp as <-.
  rewrite Ec, andb_false_r. split; [split; [exact Hkeep|discriminate]|]. split; [contradiction|].
  intros _. exists children. rewrite Ed. split; [reflexivity|].
  split; [reflexivity|apply mediaOnly_allMedia].
Qed.

End PublicFacts.

Section OAuthSearchFacts.
Context (env : Env).
Import OAuthClient.

Lemma oauth_Search_outcomes (c : OAuthClient.t) (query : string)
    (limit matchTime : Z) (w : World) :
  tokenMutex c = Unlocked ->
  OAuthSpec.fresh c (afterWait c w) = true ->
  exists res c' w' req,
    OAuthClient.Search env query limit matchTime c w = Returned res c' w'
    /\ log w' = log w ++ [SearchReq req]
    /\ reqHost req = "oauth.reddit.com"%string
    /\ reqBearer req = Some (accessToken c)
    /\ abuseUnchanged (OAuthClient.rateLimiter c) (OAuthClient.rateLimiter c')
    /\ forall resp, Do env (log w) (SearchReq req) = inr resp ->
         (StatusCode resp <> StatusOK ->
          res = ([], Some ("OAuth search failed with status " +:+ pretty (StatusCode resp)
                           +:+ ": " +:+ Body resp)))
         /\ (StatusCode resp = StatusOK -> ReadErr resp = None ->
             match decodeSearch env (Body resp) with
             | inr children => res = (mediaOnly children, None)
             | inl err => res = ([], Some ("parse search response: " +:+ err))
             end)
         /\ (res.2 = None -> allMedia res.1).
Proof.
  intros Hm Hfresh. unfold afterWait in Hfresh.
  destruct c as [cid csec user pass access refresh expiry mutex rl].
  cbn in Hm. subst mutex. cbn [OAuthClient.rateLimiter] in *.
  unfold OAuthClient.Search, bind at 1, waitLimiter. cbn [OAuthClient.rateLimiter].
  destruct (wait rl (clock w)) as [rl1 t1] eqn:Ew. cbn [snd] in Hfresh.
  assert (abuseUnchanged rl rl1) as Hkeep
    by (pose proof (wait_keeps_abuse rl (clock w)) as H; now rewrite Ew in H).
  set (c1 := setLimiter rl1 _).
  pose proof (OAuthFacts.ensureValidToken_cases env c1 (mkWorld t1 (log w)) eq_refl) as Hev.
  cbv zeta in Hev.
  replace (OAuthSpec.fresh c1 (mkWorld t1 (log w))) with true in Hev by (now rewrite <- Hfresh).
  unfold bind at 1. rewrite Hev.
  cbv [bind RLock RUnlock get doRequest ret c1 setLimiter setMutex tokenMutex accessToken
       clientID clientSecret username password refreshTokenValue tokenExpiry
       OAuthClient.rateLimiter tokenUserAgent].
  cbn [log clock].
  destruct (Do env (log w) (SearchReq _)) as [err|resp] eqn:Edo.
  { eexists _, _, _, _. do 4 (split; [reflexivity|]). split; [exact Hkeep|].
    intros ? Hresp. rewrite Edo in Hresp. discriminate. }
  destruct (Z.eqb_spec (StatusCode resp) StatusOK) as [Hok|Hbad]; cbn [negb].
  2:{ eexists _, _, _, _. do 4 (split; [reflexivity|]). split; [exact Hkeep|].
      intros ? Hresp. rewrite Edo in Hresp. injection Hresp as <-. split; [reflexivity|]. split; [contradiction|discriminate]. }
  destruct (ReadErr resp) as [rerr|] eqn:Erd.
  { eexists _, _, _, _. do 4 (split; [reflexivity|]). split; [exact Hkeep|].
    intros ? Hresp. rewrite Edo in Hresp. injection Hresp as <-. split; [contradiction|]. split; [|discriminate].
    intros _ Hn. now rewrite Hn in Erd. }
  destruct (decodeSearch env (Body resp)) as [derr|children] eqn:Ed.
  { eexists _, _, _, _. do 4 (split; [reflexivity|]). split; [exact Hkeep|].
    intros ? Hresp. rewrite Edo in Hresp. injection Hresp as <-. split; [contradiction|]. rewrite Ed. split; [reflexivity|discriminate]. }
  eexists _, _, _, _. do 4 (split; [reflexivity|]). split; [exact Hkeep|].
  intros ? Hresp. rewrite Edo in Hresp. injection Hresp as <-. split; [contradiction|]. rewrite Ed. split; [reflexivity|].
  intros _. apply mediaOnly_allMedia.
Qed.

(** *** No call of the authenticated fetcher touches the abuse signal *)

Section Keeps.
Context (rl0 : Limiter.rateLimiter).

Local Abbreviation P :=
  (fun c : OAuthClient.t => abuseUnchanged rl0 (OAuthClient.rateLimiter c)).

Lemma keeps_ret {A} (a : A) : keeps P (ret a).
Proof. intros c w H. exact H. Qed.

Lemma keeps_bind {A B} (m : M A) (k : A -> M B) :
  keeps P m -> (forall a, keeps P (k a)) -> keeps P (bind m k).
Proof.
  intros Hm Hk c w H. unfold bind. specialize (Hm c w H).
  destruct (m c w) as [a c' w'|c' w'|]; [|exact Hm|exact I].
  now apply Hk.
Qed.

Lemma keeps_RLock : keeps P RLock.
Proof. intros c w H. unfold RLock. now destruct (tokenMutex c). Qed.

Lemma keeps_RUnlock : keeps P RUnlock.
Proof. intros c w H. unfold RUnlock. now destruct (tokenMutex c) as [|[|[|n]]|]. Qed.

Lemma keeps_Lock : keeps P Lock.
Proof. intros c w H. unfold Lock. now destruct (tokenMutex c). Qed.

Lemma keeps_Unlock : keeps P Unlock.
Proof. intros c w H. unfold Unlock. now destruct (tokenMutex c). Qed.

Lemma keeps_get : keeps P get.
Proof. intros c w H. exact H. Qed.

Lemma keeps_now : keeps P now.
Proof. intros c w H. exact H. Qed.

Lemma keeps_doRequest (req : Request) : keeps P (doRequest env req).
Proof. intros c w H. exact H. Qed.

Lemma keeps_modify (f : OAuthClient.t -> OAuthClient.t) :
  (forall c, OAuthClient.rateLimiter (f c) = OAuthClient.rateLimiter c) ->
  keeps P (modify f).
Proof. intros Hf c w H. unfold modify. now rewrite Hf. Qed.

Lemma keeps_waitLimiter : keeps P waitLimiter.
Proof.
  intros c w [H1 H2]. unfold waitLimiter.
  pose proof (wait_keeps_abuse (OAuthClient.rateLimiter c) (clock w)) as [H3 H4].
  destruct (wait (OAuthClient.rateLimiter c) (clock w)) as [rl t]. cbn in *.
  split; congruence.
Qed.

Ltac keep :=
  repeat first
    [ apply keeps_ret | apply keeps_RLock | apply keeps_RUnlock | apply keeps_Lock
    | apply keeps_Unlock | apply keeps_get | apply keeps_now | apply keeps_doRequest
    | apply keeps_waitLimiter
    | apply keeps_modify; intros []; reflexivity
    | apply keeps_bind; [|intros ?]
    | progress cbv zeta
    | match goal with
      | |- keeps _ (match ?x with _ => _ end) => destruct x
      | |- keeps _ (if ?b then _ else _) => destruct b
      end ].

Lemma keeps_authenticate : keeps P (authenticate env).
Proof. unfold authenticate. keep. Qed.

Lemma keeps_refreshToken : keeps P (refreshToken env).
Proof. unfold refreshToken. keep. Qed.

Lemma keeps_ensureValidToken : keeps P (ensureValidToken env).
Proof.
  unfold ensureValidToken. keep.
Qed.

Lemma keeps_Search (query : string) (limit matchTime : Z) :
  keeps P (OAuthClient.Search env query limit matchTime).
Proof. unfold OAuthClient.Search. keep. Qed.

End Keeps.

Lemma oauth_Search_never_records (c : OAuthClient.t) (query : string)
    (limit matchTime : Z) (w : World) :
  match OAuthClient.Search env query limit matchTime c w with
  | Returned _ c' _ => abuseUnchanged (OAuthClient.rateLimiter c) (OAuthClient.rateLimiter c')
  | Blocked c' _ => abuseUnchanged (OAuthClient.rateLimiter c) (OAuthClient.rateLimiter c')
  | Fatal => True
  end.
Proof.
  apply (keeps_Search (OAuthClient.rateLimiter c) query limit matchTime c w). now split.
Qed.

End OAuthSearchFacts.

(** C8 (as the code has it). The public fetcher records an abuse signal
    exactly when a response with status 200, read in full, is classified
    as a challenge page, and exactly then it returns the error whose text
    marks the blocking; in every other case, a transport error included,
    the signal is left as it was, and a response with another status gives
    a different error, with the status and the body in its text.  The
    authenticated fetcher never records a signal, whatever the state of
    its client and however the call ends; when its lock is free and its
    token fresh it sends the search request without consulting the
    classifier: a status other than 200 gives its own error, and a body
    that decodes is a success.  Whenever either fetcher returns no error,
    every hit it returns carries the Media flair. *)
Theorem Search_responses (env : Env) :
  (forall (f : PublicJSONFetcher.t) (query : string) (limit matchTime : Z) (w : World),
     0 <= userAgentIndex (PublicJSONFetcher.rateLimiter f) < 5 ->
     exists res f' w' req,
       PublicJSONFetcher.Search env f query limit matchTime w = Some (res, f', w')
       /\ log w' = log w ++ [SearchReq req]
       /\ reqHost req = "www.reddit.com"%string
       /\ (abuseRecorded (PublicJSONFetcher.rateLimiter f)
             (PublicJSONFetcher.rateLimiter f') (clock w')
           <-> exists resp, Do env (log w) (SearchReq req) = inr resp
                            /\ challenge env resp = true)
       /\ (abuseUnchanged (PublicJSONFetcher.rateLimiter f)
             (PublicJSONFetcher.rateLimiter f')
           <-> ~ exists resp, Do env (log w) (SearchReq req) = inr resp
                              /\ challenge env resp = true)
       /\ (res = ([], Some blockedError)
           <-> exists resp, Do env (log w) (SearchReq req) = inr resp
                            /\ challenge env resp = true)
       /\ (forall err, Do env (log w) (SearchReq req) = inl err ->
             res = ([], Some ("fetch from reddit: " +:+ err)))
       /\ (forall resp, Do env (log w) (SearchReq req) = inr resp ->
             StatusCode resp <> StatusOK ->
             res = ([], Some ("reddit API error: status " +:+ pretty (StatusCode resp)
                              +:+ ", body: " +:+ Body resp)))
       /\ (res.2 = None ->
           exists resp children,
             Do env (log w) (SearchReq req) = inr resp
             /\ decodeSearch env (Body resp) = inr children
             /\ res.1 = mediaOnly children /\ allMedia res.1))
  /\ (forall (c : OAuthClient.t) (query : string) (limit matchTime : Z) (w : World),
        match OAuthClient.Search env query limit matchTime c w with
        | OAuthClient.Returned _ c' _ =>
            abuseUnchanged (OAuthClient.rateLimiter c) (OAuthClient.rateLimiter c')
        | OAuthClient.Blocked c' _ =>
            abuseUnchanged (OAuthClient.rateLimiter c) (OAuthClient.rateLimiter c')
        | OAuthClient.Fatal => True
        end)
  /\ (forall (c : OAuthClient.t) (query : string) (limit matchTime : Z) (w : World),
        OAuthClient.tokenMutex c = OAuthClient.Unlocked ->
        OAuthSpec.fresh c (afterWait c w) = true ->
        exists res c' w' req,
          OAuthClient.Search env query limit matchTime c w = OAuthClient.Returned res c' w'
          /\ log w' = log w ++ [SearchReq req]
          /\ reqHost req = "oauth.reddit.com"%string
          /\ reqBearer req = Some (OAuthClient.accessToken c)
          /\ forall resp, Do env (log w) (SearchReq req) = inr resp ->
               (StatusCode resp <> StatusOK ->
                res = ([], Some ("OAuth search failed with status "
                                 +:+ pretty (StatusCode resp) +:+ ": " +:+ Body resp)))
               /\ (StatusCode resp = StatusOK -> ReadErr resp = None ->
                   match decodeSearch env (Body resp) with
                   | inr children => res = (mediaOnly children, None)
                   | inl err => res = ([], Some ("parse search response: " +:+ err))
                   end)
               /\ (res.2 = None -> allMedia res.1)).
Proof.
  split; [|split].
  - intros f query limit matchTime w Hi.
    destruct (public_Search_outcomes env f query limit matchTime w Hi)
      as (res & f' & w' & req & Hs & Hlog & Hhost & Herr & Hresp).
    exists res, f', w', req. do 3 (split; [assumption|]).
    destruct (Do env (log w) (SearchReq req)) as [err|resp] eqn:Edo.
    + destruct (Herr err eq_refl) as [-> Hkeep].
      assert (~ exists resp, @inl error Response err = inr resp
                             /\ challenge env resp = true) as Hno
        by (intros (resp & He & _); discriminate).
      split; [split; [intros Hrec; destruct (abuse_exclusive _ _ _ Hrec Hkeep)|
                      intros H; now destruct Hno]|].
      split; [split; [intros _; exact Hno|intros _; exact Hkeep]|].
      split; [split; [discriminate|intros H; now destruct Hno]|].
      split; [now intros ? [= <-]|]. split; [discriminate|]. discriminate.
    + destruct (Hresp resp eq_refl) as (Hch & Hstatus & Hok).
      destruct (challenge env resp) eqn:Ec.
      * destruct Hch as [-> Hrec].
        assert (exists r, @inr error Response resp = inr r /\ challenge env r = true) as Hyes
          by (exists resp; now split).
        split; [split; [intros _; exact Hyes|intros _; exact Hrec]|].
        split; [split; [intros Hkeep; destruct (abuse_exclusive _ _ _ Hrec Hkeep)|
                        intros H; now destruct H]|].
        split; [split; [intros _; exact Hyes|reflexivity]|].
        split; [discriminate|]. split; [now intros ? [= <-]|]. discriminate.
      * destruct Hch as [Hkeep Hne].
        assert (~ exists r, @inr error Response resp = inr r /\ challenge env r = true) as Hno
          by (intros (r & [= <-] & Hr); rewrite Ec in Hr; discriminate).
        split; [split; [intros Hrec; destruct (abuse_exclusive _ _ _ Hrec Hkeep)|
                        intros H; now destruct Hno]|].
        split; [split; [intros _; exact Hno|intros _; exact Hkeep]|].
        split; [split; [intros H; now destruct Hne|intros H; now destruct Hno]|].
        split; [discriminate|]. split; [now intros ? [= <-]|].
        intros Hnone. destruct (Hok Hnone) as (children & Hd & Hr & Hm).
        now exists resp, children.
  - intros c query limit matchTime w. apply oauth_Search_never_records.
  - intros c query limit matchTime w Hm Hf.
    destruct (oauth_Search_outcomes env c query limit matchTime w Hm Hf)
      as (res & c' & w' & req & H1 & H2 & H3 & H4 & _ & H6).
    now exists res, c', w', req.
Qed.

(** *** Sample exchanges *)

Example NewPublicJSONFetcher_fresh :
  PublicJSONFetcher.NewPublicJSONFetcher = Some freshPublic.
Proof. reflexivity. Qed.

Example isCaptchaResponse_sample :
  isCaptchaResponse Unicode.sampleTable
    "<html><body>Please prove your HUMANITY</body></html>" = true
  /\ isCaptchaResponse Unicode.sampleTable "{}" = false.
Proof. split; reflexivity. Qed.

(** A body in which a letter of the indicator is a rune above ASCII that
    lowers to it is a challenge page as well. *)
Example isCaptchaResponse_kelvin :
  Utf8.DecodeRuneInString (Utf8.AppendRune 8490) = (8490, 3%nat)
  /\ Strings.ToLower Unicode.sampleTable kelvinBody = "blocked"%string
  /\ Strings.foldASCII kelvinBody <> "blocked"%string
  /\ isCaptchaResponse Unicode.sampleTable kelvinBody = true.
Proof. vm_compute. repeat split. discriminate. Qed.

Lemma Search_responses_witness :
  (exists f' w',
     PublicJSONFetcher.Search (serverEnv 200 "<html>Are you a robot?</html>") freshPublic
       "Arsenal Chelsea 23'" 15 kickoff startWorld
     = Some (([], Some blockedError), f', w')
     /\ abuseRecorded (PublicJSONFetcher.rateLimiter freshPublic)
          (PublicJSONFetcher.rateLimiter f') (clock w'))
  /\ (exists c' w',
        OAuthClient.Search (serverEnv 200 "{}") "Arsenal Chelsea 23'" 15 kickoff
          (OAuthSpec.sampleClient "r1") (mkWorld 0 [])
        = OAuthClient.Returned ([mediaHit], None) c' w').
Proof.
  destruct (Search_responses (serverEnv 200 "<html>Are you a robot?</html>")) as [Hpub _].
  destruct (Search_responses (serverEnv 200 "{}")) as [_ Hoauth].
  split.
  - destruct (Hpub freshPublic "Arsenal Chelsea 23'"%string 15 kickoff startWorld)
      as (res & f' & w' & req & Hs & _ & _ & Hrec & _ & Hres & _); [cbn; lia|].
    assert (exists resp,
              Do (serverEnv 200 "<html>Are you a robot?</html>") (log startWorld)
                (SearchReq req) = inr resp
              /\ challenge (serverEnv 200 "<html>Are you a robot?</html>") resp = true)
      as Hblocked by (eexists; split; reflexivity).
    apply Hres in Hblocked as Hr. apply Hrec in Hblocked as Hab. subst res.
    exists f', w'. split; [exact Hs|exact Hab].
  - destruct Hoauth as [_ Hoauth].
    destruct (Hoauth (OAuthSpec.sampleClient "r1") "Arsenal Chelsea 23'"%string 15 kickoff
                (mkWorld 0 []) eq_refl eq_refl)
      as (res & c' & w' & req & Hs & _ & _ & _ & Hresp).
    destruct (Hresp (mkResponse 200 "{}" None) eq_refl) as (_ & Hok & _).
    specialize (Hok eq_refl eq_refl). cbn in Hok. subst res.
    exists c', w'. exact Hs.
Defined.

(** C8 (counterexample). A response of the public channel with status 429
    is returned as an error and records no abuse signal. *)
Lemma public_status_error_records_nothing :
  match PublicJSONFetcher.Search (serverEnv 429 "Too Many Requests") freshPublic
          "Arsenal Chelsea 23'" 15 kickoff startWorld with
  | Some (res, f', w') =>
      res = ([], Some "reddit API error: status 429, body: Too Many Requests"%string)
      /\ abuseUnchanged (PublicJSONFetcher.rateLimiter freshPublic)
           (PublicJSONFetcher.rateLimiter f')
      /\ ~ abuseRecorded (PublicJSONFetcher.rateLimiter freshPublic)
             (PublicJSONFetcher.rateLimiter f') (clock w')
  | None => False
  end.
Proof.
  vm_compute. split; [reflexivity|]. split; [now split|]. intros [H _]. discriminate.
Qed.

(** The authenticated fetcher takes a challenge-looking body that decodes
    for a success. *)
Example oauth_ignores_challenge_text :
  exists c' w',
    OAuthClient.Search (serverEnv 200 "{ blocked: too many requests }")
      "Arsenal Chelsea 23'" 15 kickoff (OAuthSpec.sampleClient "r1") (mkWorld 0 [])
    = OAuthClient.Returned ([mediaHit], None) c' w'
    /\ isCaptchaResponse Unicode.sampleTable "{ blocked: too many requests }" = true.
Proof. eexists _, _. split; reflexivity. Qed.

End SearchFacts.

(** * Further properties of the client *)

Module ClientMore.
Import GoalLinkCache Client ClientSpec.

(** *** The loop that removes duplicate URLs *)

Lemma uniqueByURL_elem (results : list SearchResult.t) :
  forall (seen : gset string) (r : SearchResult.t),
  r ∈ uniqueByURL seen results -> r ∈ results /\ SearchResult.URL r ∉ seen.
Proof.
  induction results as [|a rest IH]; intros seen r Hr; [now apply elem_of_nil in Hr|].
  cbn [uniqueByURL] in Hr. destruct (decide (SearchResult.URL a ∈ seen)) as [Hin|Hout].
  - destruct (IH seen r Hr) as [H1 H2]. split; [apply elem_of_cons; now right|exact H2].
  - apply elem_of_cons in Hr as [->|Hr]; [split; [apply elem_of_cons; now left|exact Hout]|].
    destruct (IH _ r Hr) as [H1 H2]. split; [apply elem_of_cons; now right|].
    intros Hs. apply H2, elem_of_union. now right.
Qed.

Lemma uniqueByURL_NoDup (results : list SearchResult.t) : forall (seen : gset string),
  NoDup (SearchResult.URL <$> uniqueByURL seen results).
Proof.
  induction results as [|a rest IH]; intros seen; [constructor|].
  cbn [uniqueByURL]. destruct (decide (SearchResult.URL a ∈ seen)); [apply IH|].
  cbn [fmap list_fmap]. apply NoDup_cons. split; [|apply IH].
  intros Hin. apply list_elem_of_fmap in Hin as (r & Heq & Hr).
  apply uniqueByURL_elem in Hr as [_ Hr]. apply Hr, elem_of_union. left.
  apply elem_of_singleton. now symmetry.
Qed.

Lemma uniqueByURL_sublist (results : list SearchResult.t) : forall (seen : gset string),
  sublist (uniqueByURL seen results) results.
Proof.
  induction results as [|a rest IH]; intros seen; [constructor|].
  cbn [uniqueByURL]. destruct (decide (SearchResult.URL a ∈ seen)).
  - apply sublist_cons, IH.
  - apply sublist_skip, IH.
Qed.

Lemma uniqueByURL_covers (results : list SearchResult.t) :
  forall (seen : gset string) (r : SearchResult.t),
  r ∈ results -> SearchResult.URL r ∉ seen ->
  SearchResult.URL r ∈ SearchResult.URL <$> uniqueByURL seen results.
Proof.
  induction results as [|a rest IH]; intros seen r Hr Hout; [now apply elem_of_nil in Hr|].
  cbn [uniqueByURL]. apply elem_of_cons in Hr as [->|Hr].
  - rewrite decide_False by exact Hout. cbn [fmap list_fmap]. apply elem_of_cons. now left.
  - destruct (decide (SearchResult.URL a ∈ seen)) as [Hin|Hnot]; [now apply IH|].
    cbn [fmap list_fmap]. apply elem_of_cons.
    destruct (decide (SearchResult.URL r = SearchResult.URL a)) as [Heq|Hne]; [now left|].
    right. apply IH; [exact Hr|].
    intros [Hs|Hs]%elem_of_union; [|contradiction].
    apply elem_of_singleton in Hs. contradiction.
Qed.

Lemma uniqueByURL_first (results : list SearchResult.t) :
  forall (seen : gset string) (r : SearchResult.t),
  r ∈ uniqueByURL seen results ->
  List.find (fun x => bool_decide (SearchResult.URL x = SearchResult.URL r)) results = Some r.
Proof.
  induction results as [|a rest IH]; intros seen r Hr; [now apply elem_of_nil in Hr|].
  cbn [uniqueByURL] in Hr. cbn [List.find].
  destruct (decide (SearchResult.URL a ∈ seen)) as [Hin|Hout].
  - pose proof (uniqueByURL_elem rest seen r Hr) as [_ Hnot].
    rewrite bool_decide_eq_false_2 by (intros Heq; apply Hnot; now rewrite <- Heq).
    now apply (IH seen).
  - apply elem_of_cons in Hr as [->|Hr]; [now rewrite bool_decide_eq_true_2|].
    pose proof (uniqueByURL_elem rest _ r Hr) as [_ Hnot].
    rewrite bool_decide_eq_false_2.
    + now apply (IH ({[SearchResult.URL a]} ∪ seen)).
    + intros Heq. apply Hnot, elem_of_union. left. now apply elem_of_singleton.
Qed.

Lemma uniqueByURL_id (results : list SearchResult.t) : forall (seen : gset string),
  NoDup (SearchResult.URL <$> results) ->
  (forall r, r ∈ results -> SearchResult.URL r ∉ seen) ->
  uniqueByURL seen results = results.
Proof.
  induction results as [|a rest IH]; intros seen Hnd Hout; [reflexivity|].
  cbn [fmap list_fmap] in Hnd. apply NoDup_cons in Hnd as [Ha Hnd].
  cbn [uniqueByURL]. rewrite decide_False by (apply Hout, elem_of_cons; now left).
  f_equal. apply IH; [exact Hnd|]. intros r Hr [Hs|Hs]%elem_of_union.
  - apply elem_of_singleton in Hs. apply Ha. rewrite <- Hs.
    now apply list_elem_of_fmap_2.
  - apply (Hout r); [apply elem_of_cons; now right|exact Hs].
Qed.

(** X1. The loop of [searchForGoalOnce] that removes duplicates based on
    URL returns a sub-sequence of the merged results in which no URL occurs
    twice and every URL of the input still occurs; the hit kept for a URL is
    the first one of the input with that URL; and running the loop on its
    own output changes nothing. *)
Theorem uniqueByURL_dedup (results : list SearchResult.t) :
  let unique := uniqueByURL ∅ results in
  NoDup (SearchResult.URL <$> unique)
  /\ sublist unique results
  /\ (forall url, url ∈ SearchResult.URL <$> unique <-> url ∈ SearchResult.URL <$> results)
  /\ (forall r, r ∈ unique ->
        List.find (fun x => bool_decide (SearchResult.URL x = SearchResult.URL r)) results
        = Some r)
  /\ uniqueByURL ∅ unique = unique.
Proof.
  intros unique. split; [apply uniqueByURL_NoDup|]. split; [apply uniqueByURL_sublist|].
  split; [|split].
  - intros url. split.
    + intros (r & -> & Hr)%list_elem_of_fmap.
      apply uniqueByURL_elem in Hr as [Hr _]. now apply list_elem_of_fmap_2.
    + intros (r & -> & Hr)%list_elem_of_fmap.
      apply uniqueByURL_covers; [exact Hr|apply not_elem_of_empty].
  - intros r Hr. now apply (uniqueByURL_first results ∅).
  - apply uniqueByURL_id; [apply uniqueByURL_NoDup|].
    intros r _. apply not_elem_of_empty.
Qed.

(** *** One attempt, one search, one goal *)

Section OnceMore.
Context (findBestMatch : list SearchResult.t -> GoalInfo.t -> option SearchResult.t).
Context (c : Client.t) (goal : GoalInfo.t) (fetcher : Fetcher).

Local Abbreviation primaryCall := (ClientSpec.primaryCall goal fetcher).
Local Abbreviation primaryAnswer := (ClientSpec.primaryAnswer goal fetcher).
Local Abbreviation secondaryAnswer := (ClientSpec.secondaryAnswer goal fetcher).
Local Abbreviation primaryMatch := (ClientSpec.primaryMatch findBestMatch goal fetcher).

Lemma searchForGoalOnce_cache (st : State) :
  cache (searchForGoalOnce findBestMatch c goal fetcher st).2 = cache st.
Proof.
  destruct (primaryMatch st) as [m|] eqn:Hm.
  - now rewrite (ClientFacts.searchForGoalOnce_matched _ _ _ _ st m Hm).
  - now rewrite (ClientFacts.searchForGoalOnce_unmatched _ _ _ _ st Hm).
Qed.

Lemma searchForGoalOnce_link (st : State) (link : GoalLink.t) :
  (searchForGoalOnce findBestMatch c goal fetcher st).1.1 = Some link ->
  exists m t,
    link = linkOf goal m t
    /\ (findBestMatch (primaryAnswer st).1 goal = Some m /\ (primaryAnswer st).2 = None
        \/ exists merged,
             findBestMatch (uniqueByURL ∅ merged) goal = Some m
             /\ forall r, r ∈ merged ->
                  (r ∈ (primaryAnswer st).1 /\ (primaryAnswer st).2 = None)
                  \/ (r ∈ (secondaryAnswer st).1 /\ (secondaryAnswer st).2 = None)).
Proof.
  destruct (primaryMatch st) as [m|] eqn:Hm.
  - rewrite (ClientFacts.searchForGoalOnce_matched _ _ _ _ st m Hm). cbn [fst].
    intros [= <-]. eexists m, _. split; [reflexivity|]. left.
    unfold ClientSpec.primaryMatch in Hm. now destruct (primaryAnswer st).2.
  - rewrite (ClientFacts.searchForGoalOnce_unmatched _ _ _ _ st Hm). cbn [fst].
    destruct (findBestMatch _ goal) as [m|] eqn:Hf; [|discriminate].
    intros [= <-]. eexists m, _. split; [reflexivity|]. right.
    eexists. split; [exact Hf|]. intros r Hr.
    destruct (primaryAnswer st).2, (secondaryAnswer st).2;
      repeat match goal with
             | H : _ ∈ _ ++ _ |- _ => apply elem_of_app in H as [H|H]
             | H : _ ∈ [] |- _ => now apply elem_of_nil in H
             end; tauto.
Qed.

(** X2. A link returned by [searchForGoalOnce] is never made up: it carries
    the [MatchID] and [Minute] of the goal, and, for a matcher that selects
    among the candidates it is given, its URL, title and post URL are those
    of one hit that a query of this attempt returned without an error. *)
Theorem searchForGoalOnce_provenance (st : State) (link : GoalLink.t) :
  (forall rs g m, findBestMatch rs g = Some m -> m ∈ rs) ->
  (searchForGoalOnce findBestMatch c goal fetcher st).1.1 = Some link ->
  (GoalLink.MatchID link, GoalLink.Minute link) = keyOf goal
  /\ exists m,
       (m ∈ (primaryAnswer st).1 /\ (primaryAnswer st).2 = None
        \/ m ∈ (secondaryAnswer st).1 /\ (secondaryAnswer st).2 = None)
       /\ GoalLink.URL link = SearchResult.URL m
       /\ GoalLink.Title link = SearchResult.Title m
       /\ GoalLink.PostURL link = SearchResult.PostURL m.
Proof.
  intros Hsel Hlink.
  destruct (searchForGoalOnce_link st link Hlink) as (m & t & -> & Hm).
  split; [reflexivity|]. exists m. split; [|now repeat split].
  destruct Hm as [[Hm He]|(merged & Hm & Hmerged)].
  - left. split; [now apply Hsel in Hm|exact He].
  - apply Hsel in Hm. apply uniqueByURL_elem in Hm as [Hm _]. now apply Hmerged.
Qed.

End OnceMore.

Lemma titleMatch_selects (rs : list SearchResult.t) (g : GoalInfo.t) (m : SearchResult.t) :
  titleMatch rs g = Some m -> m ∈ rs.
Proof.
  unfold titleMatch. intros H. apply List.find_some in H as [H _].
  now apply list_elem_of_In.
Qed.

Lemma searchForGoalOnce_provenance_witness :
  let f := constFetcher PublicChannel [sampleHit] in
  let link := linkOf sampleGoal sampleHit (1700000100 * GoTime.Second) in
  (GoalLink.MatchID link, GoalLink.Minute link) = keyOf sampleGoal
  /\ exists m,
       (m ∈ (primaryAnswer sampleGoal f emptyState).1
        /\ (primaryAnswer sampleGoal f emptyState).2 = None
        \/ m ∈ (secondaryAnswer sampleGoal f emptyState).1
           /\ (secondaryAnswer sampleGoal f emptyState).2 = None)
       /\ GoalLink.URL link = SearchResult.URL m
       /\ GoalLink.Title link = SearchResult.Title m
       /\ GoalLink.PostURL link = SearchResult.PostURL m.
Proof.
  intros f link.
  apply (searchForGoalOnce_provenance titleMatch (publicOnly f) sampleGoal f emptyState link
           titleMatch_selects).
  reflexivity.
Defined.

Section OneMore.
Context (findBestMatch : list SearchResult.t -> GoalInfo.t -> option SearchResult.t).
Context (c : Client.t).

Local Abbreviation activeFetcher := (ClientSpec.activeFetcher c).

(** X3. Whatever the fetchers answer, [searchForGoal] returns a nil error,
    leaves the cache alone, never sleeps, and makes one or two [Search]
    calls with limit 15 and the match time of the goal, all of them on the
    one fetcher it selects: the authenticated one when it is present and
    reports itself available, the public one otherwise. *)
Theorem searchForGoal_single_attempt (goal : GoalInfo.t) (st : State) :
  let r := searchForGoal findBestMatch c goal st in
  let ch := channel (activeFetcher st) in
  r.1.2 = None
  /\ cache r.2 = cache st
  /\ (trace r.2 = trace st ++ [EvSearch ch (query1 goal) 15 (GoalInfo.MatchTime goal)]
      \/ trace r.2 = trace st ++ [EvSearch ch (query1 goal) 15 (GoalInfo.MatchTime goal);
                                  EvSearch ch (query2 goal) 15 (GoalInfo.MatchTime goal)]).
Proof.
  intros r ch. subst r ch. rewrite ClientFacts.searchForGoal_once.
  split; [apply ClientFacts.searchForGoalOnce_err_nil|].
  split; [apply searchForGoalOnce_cache|].
  rewrite ClientFacts.searchForGoalOnce_trace.
  destruct (ClientSpec.primaryMatch _ _ _ _); [now left|now right].
Qed.

Lemma GoalLink_miss (goal : GoalInfo.t) (st : State) :
  Get (cache st) (keyOf goal) = None ->
  let r := searchForGoalOnce findBestMatch c goal (activeFetcher st) st in
  GoalLink findBestMatch c goal st
  = ((r.1.1, None),
     mkState (match r.1.1 with
              | Some link => SetFound link (cache st)
              | None => SetNotFound (GoalInfo.MatchID goal) (GoalInfo.Minute goal) (cache st)
              end) (trace r.2)).
Proof.
  intros Hmiss r. unfold GoalLink, bind, cacheGet. rewrite Hmiss.
  rewrite ClientFacts.searchForGoal_once. fold r.
  pose proof (ClientFacts.searchForGoalOnce_err_nil findBestMatch c goal
                (activeFetcher st) st) as Herr.
  pose proof (searchForGoalOnce_cache findBestMatch c goal (activeFetcher st) st) as Hc.
  fold r in Herr, Hc. destruct r as [[link err] st1]. cbn [fst snd] in *. subst err.
  destruct link; unfold cacheSet, cacheSetNotFound, ret; cbn [fst snd]; now rewrite Hc.
Qed.

(** What [GoalLink] leaves in the cache: an entry for the key of the goal
    that stands for the answer just given, and every other entry as it
    was. *)
Lemma GoalLink_cache (goal : GoalInfo.t) (st : State) :
  let r := GoalLink findBestMatch c goal st in
  (exists entry, Get (cache r.2) (keyOf goal) = Some entry
                 /\ r.1 = (cachedAnswer entry, None))
  /\ (forall k, k <> keyOf goal -> Get (cache r.2) k = Get (cache st) k)
  /\ (forall k entry, Get (cache st) k = Some entry -> Get (cache r.2) k = Some entry).
Proof.
  intros r. subst r.
  destruct (Get (cache st) (keyOf goal)) as [entry|] eqn:Hget.
  - rewrite (ClientFacts.GoalLink_hit findBestMatch c goal st entry Hget). cbn [fst snd].
    split; [now exists entry|]. split; [reflexivity|tauto].
  - rewrite (GoalLink_miss goal st Hget). cbv zeta. cbn [fst snd cache].
    destruct (searchForGoalOnce findBestMatch c goal (activeFetcher st) st).1.1
      as [link|] eqn:Hlink.
    + destruct (searchForGoalOnce_link findBestMatch c goal (activeFetcher st) st link Hlink)
        as (m & t & -> & _).
      unfold SetFound, Get. cbn [GoalLink.MatchID GoalLink.Minute linkOf].
      change (GoalInfo.MatchID goal, GoalInfo.Minute goal) with (keyOf goal).
      split; [eexists; split; [apply lookup_insert_eq|reflexivity]|].
      split; [intros k Hk; now rewrite lookup_insert_ne|].
      intros k entry Hk. rewrite lookup_insert_ne; [exact Hk|].
      intros <-. unfold Get in Hget. congruence.
    + unfold SetNotFound, Get.
      change (GoalInfo.MatchID goal, GoalInfo.Minute goal) with (keyOf goal).
      split; [eexists; split; [apply lookup_insert_eq|reflexivity]|].
      split; [intros k Hk; now rewrite lookup_insert_ne|].
      intros k entry Hk. rewrite lookup_insert_ne; [exact Hk|].
      intros <-. unfold Get in Hget. congruence.
Qed.

(** X4. With a cache whose writes take effect, [GoalLink] resolves a goal
    at most once: after any call, whatever the fetchers answered, the cache
    holds an entry for the key of the goal, the error is nil, and a second
    call for the goal gives the same answer without calling a fetcher or
    changing the state. *)
Theorem GoalLink_at_most_once (goal : GoalInfo.t) (st : State) :
  let r := GoalLink findBestMatch c goal st in
  is_Some (Get (cache r.2) (keyOf goal))
  /\ r.1.2 = None
  /\ GoalLink findBestMatch c goal r.2 = (r.1, r.2).
Proof.
  intros r. destruct (GoalLink_cache goal st) as ((entry & Hentry & Hans) & _).
  fold r in Hentry, Hans. split; [now exists entry|]. split; [now rewrite Hans|].
  rewrite (ClientFacts.GoalLink_hit findBestMatch c goal r.2 entry Hentry).
  now rewrite Hans.
Qed.

End OneMore.

(** *** Many goals *)

Section ManyMore.
Context (findBestMatch : list SearchResult.t -> GoalInfo.t -> option SearchResult.t).
Context (c : Client.t).

Local Abbreviation resolveSeq := (ClientSpec.resolveSeq findBestMatch c).

Lemma resolveSeq_cache (todo : list GoalInfo.t) : forall (j : nat) (st : State),
  let r := resolveSeq j todo st in
  (forall g a, (g, a) ∈ r.1 ->
     exists entry, Get (cache r.2) (keyOf g) = Some entry /\ a = (cachedAnswer entry, None))
  /\ (forall k entry, Get (cache st) k = Some entry -> Get (cache r.2) k = Some entry).
Proof.
  induction todo as [|goal rest IH]; intros j st r; subst r.
  - cbn. split; [intros g a H; now apply elem_of_nil in H|tauto].
  - cbn [ClientSpec.resolveSeq]. unfold bind, ret.
    assert (cache ((if (0 <? j)%nat && (j mod 5 =? 0)%nat
                    then sleep (2 * GoTime.Second) else λ st0 : State, (tt, st0)) st).2 = cache st)
      as Hpre by (now destruct (_ && _)).
    destruct ((if (0 <? j)%nat && (j mod 5 =? 0)%nat
               then sleep (2 * GoTime.Second) else λ st0 : State, (tt, st0)) st) as [[] st0].
    cbn [snd] in Hpre.
    destruct (GoalLink_cache findBestMatch c goal st0) as ((entry & Hentry & Hans) & _ & Hkeep).
    destruct (GoalLink findBestMatch c goal st0) as [a st1]. cbn [fst snd] in *.
    destruct (IH (S j) st1) as [Hrest Hkeep'].
    destruct (resolveSeq (S j) rest st1) as [rs st2]. cbn [fst snd] in *.
    split.
    + intros g a' [[= -> ->]|Hin]%elem_of_cons.
      * exists entry. split; [now apply Hkeep'|exact Hans].
      * now apply Hrest.
    + intros k e Hk. apply Hkeep', Hkeep. now rewrite Hpre.
Qed.

Lemma GoalLinks_unfold (goals : list GoalInfo.t) (st : State) :
  let run := resolveSeq 0 (uncached (cache st) (firstByKey goals)) st in
  GoalLinks findBestMatch c goals st
  = (collect (partitionGoals (cache st) goals ∅ ∅ []).1 run.1, run.2).
Proof.
  intros run. subst run. unfold GoalLinks.
  destruct (ClientFacts.partitionGoals_spec (cache st) goals ∅ ∅ []) as [Hq _].
  rewrite ClientFacts.unseen_empty in Hq. cbn [app] in Hq.
  destruct (partitionGoals (cache st) goals ∅ ∅ []) as [results queue].
  cbn [fst snd] in *. subst queue.
  rewrite ClientFacts.batchLoop_resolveSeq by (cbn; lia). reflexivity.
Qed.

Lemma partition_results (goals : list GoalInfo.t) (cache : GoalLinkCache.t)
    (k : GoalLinkKey) (link : GoalLink.t) :
  (partitionGoals cache goals ∅ ∅ []).1 !! k = Some link
  <-> k ∈ keyOf <$> goals /\ Get cache k = Some (Found link).
Proof.
  destruct (ClientFacts.partitionGoals_spec cache goals ∅ ∅ []) as [_ Hres].
  rewrite Hres, ClientFacts.unseen_empty, lookup_empty. unfold cachedLink.
  pose proof (ClientFacts.firstByKey_keys goals k) as Hkeys.
  destruct (decide (k ∈ keyOf <$> firstByKey goals)) as [Hk|Hk].
  - destruct (Get cache k) as [[l|]|]; split.
    + intros [= ->]. split; [now apply Hkeys|reflexivity].
    + now intros [_ [= ->]].
    + discriminate.
    + now intros [_ [=]].
    + discriminate.
    + now intros [_ [=]].
  - split; [discriminate|]. intros [Hin _]. now apply Hkeys in Hin.
Qed.

Lemma filter_none {A} (P : A -> Prop) `{forall x, Decision (P x)} (l : list A) :
  (forall x, x ∈ l -> ~ P x) -> filter P l = [].
Proof.
  induction l as [|a l IH]; intros Hl; [reflexivity|].
  rewrite filter_cons_False by (apply Hl, elem_of_cons; now left).
  apply IH. intros x Hx. apply Hl, elem_of_cons. now right.
Qed.

Lemma option_eq_Some {A} (x y : option A) :
  (forall a, x = Some a <-> y = Some a) -> x = y.
Proof.
  intros H. destruct x as [a|], y as [b|]; try reflexivity.
  - now apply H.
  - symmetry. now apply H.
  - now apply H.
Qed.

(** X5. With a cache whose writes take effect, when [GoalLinks] returns
    the cache holds an entry for the key of every input goal, and the map
    returned is exactly the positive ones among them: it maps a key to a
    link if and only if the key is one of the input's and the cache now
    holds that link for it.  A second call with the same goals therefore
    calls no fetcher, does not sleep, and returns the same map. *)
Theorem GoalLinks_settled (goals : list GoalInfo.t) (st : State) :
  let out := GoalLinks findBestMatch c goals st in
  (forall g, g ∈ goals -> is_Some (Get (cache out.2) (keyOf g)))
  /\ (forall k link,
        out.1 !! k = Some link
        <-> k ∈ keyOf <$> goals /\ Get (cache out.2) k = Some (Found link))
  /\ GoalLinks findBestMatch c goals out.2 = (out.1, out.2).
Proof.
  intros out.
  set (todo := uncached (cache st) (firstByKey goals)).
  set (run := resolveSeq 0 todo st).
  assert (out = (collect (partitionGoals (cache st) goals ∅ ∅ []).1 run.1, run.2)) as Hout
    by apply GoalLinks_unfold.
  destruct (resolveSeq_cache todo 0 st) as [Hans Hkeep]. fold run in Hans, Hkeep.
  pose proof (ClientFacts.resolveSeq_goals findBestMatch c todo 0 st) as Hgoals.
  fold run in Hgoals.
  assert (forall g, g ∈ todo -> Get (cache st) (keyOf g) = None) as Hmiss.
  { intros g Hg. unfold todo in Hg. now apply list_elem_of_filter in Hg as [Hg _]. }
  assert (forall g, g ∈ todo -> exists a, (g, a) ∈ run.1) as Hanswered.
  { intros g Hg. rewrite <- Hgoals in Hg.
    apply list_elem_of_fmap in Hg as ([g' a] & -> & Hin). now exists a. }
  assert (forall g, g ∈ goals -> is_Some (Get (cache run.2) (keyOf g))) as Hall.
  { intros g Hg.
    destruct (Get (cache st) (keyOf g)) as [entry|] eqn:Hget.
    - exists entry. now apply Hkeep.
    - assert (keyOf g ∈ keyOf <$> firstByKey goals) as Hk
        by (apply ClientFacts.firstByKey_keys; now apply list_elem_of_fmap_2).
      apply list_elem_of_fmap in Hk as (g' & Heq & Hg').
      assert (g' ∈ todo) as Htodo
        by (apply list_elem_of_filter; split; [now rewrite <- Heq|exact Hg']).
      destruct (Hanswered g' Htodo) as [a Ha].
      destruct (Hans g' a Ha) as (entry & Hentry & _).
      exists entry. now rewrite Heq. }
  assert (forall k link,
            out.1 !! k = Some link
            <-> k ∈ keyOf <$> goals /\ Get (cache out.2) k = Some (Found link)) as Hchar.
  { intros k link. rewrite Hout. cbn [fst snd].
    rewrite ClientFacts.collect_lookup.
    - rewrite partition_results. split.
      + intros [[Hk Hget]|(g & Hin & <-)].
        * split; [exact Hk|now apply Hkeep].
        * destruct (Hans g _ Hin) as (entry & Hentry & Heq).
          assert (g ∈ todo) as Hg
            by (rewrite <- Hgoals;
                exact (list_elem_of_fmap_2 fst run.1 (g, (Some link, None)) Hin)).
          split.
          -- apply ClientFacts.firstByKey_keys, list_elem_of_fmap_2.
             unfold todo, uncached in Hg. now apply list_elem_of_filter in Hg as [_ Hg].
          -- rewrite Hentry. destruct entry as [l|]; [|discriminate].
             cbn in Heq. now injection Heq as ->.
      + intros [Hk Hget].
        destruct (Get (cache st) k) as [entry|] eqn:Hst.
        * left. split; [exact Hk|]. apply Hkeep in Hst. congruence.
        * right. apply ClientFacts.firstByKey_keys in Hk.
          apply list_elem_of_fmap in Hk as (g & -> & Hg).
          assert (g ∈ todo) as Htodo by (apply list_elem_of_filter; now split).
          destruct (Hanswered g Htodo) as [a Ha].
          destruct (Hans g a Ha) as (entry & Hentry & ->).
          exists g. split; [|reflexivity].
          rewrite Hget in Hentry. injection Hentry as <-. exact Ha.
    - rewrite Hgoals. apply ClientFacts.keys_filter_NoDup, ClientFacts.firstByKey_NoDup.
    - rewrite Hgoals. intros g Hg.
      destruct ((partitionGoals (cache st) goals ∅ ∅ []).1 !! keyOf g) as [l|] eqn:Hl;
        [|reflexivity].
      apply partition_results in Hl as [_ Hl]. rewrite (Hmiss g Hg) in Hl. discriminate. }
  split; [now rewrite Hout|]. split; [exact Hchar|].
  rewrite GoalLinks_unfold.
  assert (uncached (cache out.2) (firstByKey goals) = []) as ->.
  { unfold uncached. apply filter_none. intros g Hg Hnone.
    apply ClientFacts.firstByKey_first, List.find_some in Hg as [Hg _].
    apply list_elem_of_In, Hall in Hg. rewrite Hout in Hnone. cbn [snd] in Hnone.
    rewrite Hnone in Hg. now destruct Hg. }
  cbn [ClientSpec.resolveSeq]. unfold ret. cbn [fst snd collect foldl]. f_equal.
  apply map_eq. intros k. apply option_eq_Some. intros link.
  now rewrite partition_results, Hchar.
Qed.

End ManyMore.

End ClientMore.

(** * Further properties of the rate limiter *)

Module LimiterMore.
Import GoTime Limiter LimiterSpec.

Lemma enforced_range (R : Z) (r : rateLimiter) (now : Z) :
  0 < R -> Minute ÷ R <= enforced R r now <= 2 * (Minute ÷ R).
Proof.
  intros HR. pose proof (LimiterFacts.interval_range R HR). unfold enforced.
  destruct (_ && _); lia.
Qed.

(** X6. In every state a limiter built for [R] requests per minute can
    reach, [wait] never blocks longer than the interval in force, which is
    at most twice [time.Minute / R]; it does not block at all when the
    previous request is at least that old; ten minutes or more after the
    latest recorded challenge the interval in force is the base interval
    again; and [wait] changes nothing but the recorded request time. *)
Theorem wait_bounded (R : Z) (r0 : rateLimiter) (t0 : Z) (ops : list op) :
  0 < R -> newRateLimiter R = Some r0 -> zeroTime <= t0 ->
  Forall nonnegTick ops -> Z.of_nat (length ops) <= maxDuration ->
  let r := (run ops r0 t0).1.1 in
  let now := (run ops r0 t0).1.2 in
  let out := wait r now in
  let I := Minute ÷ R in
  now <= out.2 <= now + enforced R r now
  /\ enforced R r now <= 2 * I
  /\ (enforced R r now <= now - lastRequest r -> out.2 = now)
  /\ (10 * Minute <= now - lastCaptchaTime r -> out.2 = Z.max now (lastRequest r + I))
  /\ lastRequest out.1 = out.2
  /\ minInterval out.1 = I
  /\ captchaCount out.1 = captchaCount r
  /\ lastCaptchaTime out.1 = lastCaptchaTime r
  /\ userAgentIndex out.1 = userAgentIndex r.
Proof.
  intros HR Hnew Ht0 Hops Hlen r now out I.
  pose proof (LimiterFacts.newRateLimiter_Inv R r0 t0 Hnew Ht0) as HInv0.
  destruct (LimiterFacts.run_Inv R ops 0 r0 t0 HR HInv0 Hops) as (HInv & _ & _); [lia|].
  fold r now in HInv.
  pose proof (LimiterFacts.wait_spec R _ r now HR HInv) as Hw. cbv zeta in Hw.
  pose proof (enforced_range R r now HR) as He. fold I in He.
  destruct HInv as (Hmin & Hlast & Hcap & Hcnt).
  subst out. rewrite Hw. cbn [fst snd lastRequest minInterval captchaCount
                               lastCaptchaTime userAgentIndex].
  repeat split; try lia; try assumption.
  intros Hold. unfold enforced.
  replace (now - lastCaptchaTime r <? 10 * Minute) with false by lia.
  now rewrite andb_false_r.
Qed.

Lemma wait_bounded_witness :
  let ops := [OpWait; OpTick (3 * Second); OpAbuse; OpTick (11 * Minute)] in
  let r0 := mkRateLimiter zeroTime (12 * Second) 0 zeroTime 0 in
  let r := (run ops r0 0).1.1 in
  let now := (run ops r0 0).1.2 in
  let out := wait r now in
  now = 11 * Minute + 3 * Second /\ out.2 = now /\ lastRequest out.1 = out.2.
Proof.
  intros ops r0 r now out.
  destruct (wait_bounded 5 r0 0 ops) as (_ & _ & Hidle & _ & Hrec & _).
  - lia.
  - reflexivity.
  - vm_compute. discriminate.
  - repeat constructor; vm_compute; discriminate.
  - vm_compute. discriminate.
  - split; [reflexivity|]. split; [|exact Hrec].
    apply Hidle. vm_compute. discriminate.
Defined.

End LimiterMore.

(** * Further properties of the challenge detector *)

Module DetectorMore.
Import Utf8 Strings Http SearchSpec DetectorSpec.

Lemma HasPrefix_spec (p : string) : forall s,
  HasPrefix s p = true <-> exists q, s = p +:+ q.
Proof.
  induction p as [|c p IH]; intros s.
  - destruct s; cbn; split; eauto.
  - destruct s as [|d s]; cbn.
    + split; [discriminate|]. intros [q Hq]. discriminate.
    + destruct (Ascii.eqb_spec c d) as [->|Hne].
      * rewrite IH. split; intros [q Hq]; exists q.
        -- now rewrite Hq.
        -- cbn [String.append] in Hq. now injection Hq.
      * split; [discriminate|]. intros [q Hq]. cbn [String.append] in Hq.
        injection Hq as Hcd _. now symmetry in Hcd.
Qed.

Lemma Contains_unfold (s sub : string) :
  Contains s sub = if HasPrefix s sub then true
                   else match s with
                        | EmptyString => false
                        | String _ s' => Contains s' sub
                        end.
Proof. now destruct s. Qed.

Lemma Contains_spec (sub : string) : forall s,
  Contains s sub = true <-> exists p q, s = p +:+ sub +:+ q.
Proof.
  intros s. split.
  - induction s as [|c s IH]; rewrite Contains_unfold;
      destruct (HasPrefix _ sub) eqn:Hp.
    + intros _. apply HasPrefix_spec in Hp as [q ->]. now exists EmptyString, q.
    + discriminate.
    + intros _. apply HasPrefix_spec in Hp as [q ->]. now exists EmptyString, q.
    + intros H. destruct (IH H) as (p & q & ->). now exists (String c p), q.
  - intros (p & q & ->). induction p as [|c p IH]; rewrite Contains_unfold.
    + assert (HasPrefix (EmptyString +:+ sub +:+ q) sub = true) as ->; [|reflexivity].
      apply HasPrefix_spec. now exists q.
    + change (String c p +:+ sub +:+ q) with (String c (p +:+ sub +:+ q)).
      cbv beta iota. now destruct (HasPrefix _ sub).
Qed.

Lemma append_assoc (a b c : string) : (a +:+ b) +:+ c = a +:+ b +:+ c.
Proof.
  induction a as [|x a IH]; [reflexivity|].
  change (String x ((a +:+ b) +:+ c) = String x (a +:+ b +:+ c)). now rewrite IH.
Qed.

Lemma append_nil_r (a : string) : a +:+ EmptyString = a.
Proof.
  induction a as [|x a IH]; [reflexivity|].
  change (String x (a +:+ EmptyString) = String x a). now rewrite IH.
Qed.




(** *** Bytes below [utf8.RuneSelf] *)

Lemma lowerByte_ascii (c : ascii) :
  (byteVal (lowerByte c) <? RuneSelf) = (byteVal c <? RuneSelf).
Proof. destruct c as [[] [] [] [] [] [] [] []]; reflexivity. Qed.

Lemma isASCII_foldASCII (s : string) : isASCII (foldASCII s) = isASCII s.
Proof.
  induction s as [|c s IH]; [reflexivity|].
  cbn [foldASCII isASCII]. now rewrite lowerByte_ascii, IH.
Qed.

Lemma isASCII_app (a b : string) : isASCII (a +:+ b) = isASCII a && isASCII b.
Proof.
  induction a as [|c a IH]; [reflexivity|].
  change (isASCII (String c a +:+ b)) with ((byteVal c <? RuneSelf) && isASCII (a +:+ b)).
  cbn [isASCII]. now rewrite IH, andb_assoc.
Qed.

(** An ASCII byte is a rune of its own, and [unicode.ToLower] followed by
    the encoding is [lowerByte] on it. *)
Lemma lower_ascii_byte (table : Z -> Z) (c : ascii) :
  (byteVal c <? RuneSelf) = true ->
  (0 <=? Unicode.ToLower table (byteVal c)) = true
  /\ AppendRune (Unicode.ToLower table (byteVal c)) = String (lowerByte c) EmptyString.
Proof.
  destruct c as [[] [] [] [] [] [] [] []]; intros H;
    first [discriminate H | split; reflexivity].
Qed.

Lemma decode_ascii (c : ascii) (rest : string) :
  (byteVal c <? RuneSelf) = true ->
  DecodeRuneInString (String c rest) = (byteVal c, 1%nat).
Proof.
  intros H. unfold DecodeRuneInString. cbn [String.length].
  change (S (String.length rest) <? 1)%nat with false. cbv iota.
  change (index (String c rest) 0) with (byteVal c). now rewrite H.
Qed.

Lemma first_range (x : Z) (sz : nat) (lo hi : Z) :
  first x = Some (sz, lo, hi) -> RuneSelf <= lo /\ (2 <= sz <= 4)%nat.
Proof.
  unfold first, RuneSelf.
  repeat match goal with |- context [if ?b then _ else _] => destruct b end;
    intros [= <- <- <-]; lia.
Qed.

Lemma decode_width (c : ascii) (rest : string) :
  (1 <= (DecodeRuneInString (String c rest)).2)%nat
  /\ ((DecodeRuneInString (String c rest)).2 - 1 <= lead rest)%nat.
Proof.
  unfold DecodeRuneInString. cbn [String.length].
  change (S (String.length rest) <? 1)%nat with false. cbv iota.
  change (index (String c rest) 0) with (byteVal c).
  destruct (byteVal c <? RuneSelf); [cbn; lia|].
  destruct (first (byteVal c)) as [[[sz lo] hi]|] eqn:Ef; [|cbn; lia].
  apply first_range in Ef as [Hlo Hsz].
  destruct (Nat.ltb _ sz); [cbn; lia|].
  destruct rest as [|c1 rest1]; [change (index (String c EmptyString) 1) with 0;
                                 replace (0 <? lo) with true by (unfold RuneSelf in *; lia);
                                 cbn; lia|].
  change (index (String c (String c1 rest1)) 1) with (byteVal c1).
  destruct ((byteVal c1 <? lo) || (hi <? byteVal c1)) eqn:E1; [cbn; lia|].
  apply orb_false_iff in E1 as [E1 _].
  assert (lead (String c1 rest1) = S (lead rest1)) as Hl1.
  { cbn [lead]. replace (RuneSelf <=? byteVal c1) with true by lia. reflexivity. }
  destruct (Nat.leb sz 2); [cbn [snd]; lia|].
  destruct rest1 as [|c2 rest2];
    [change (index (String c (String c1 EmptyString)) 2) with 0; cbn; lia|].
  change (index (String c (String c1 (String c2 rest2))) 2) with (byteVal c2).
  destruct ((byteVal c2 <? locb) || (hicb <? byteVal c2)) eqn:E2; [cbn; lia|].
  apply orb_false_iff in E2 as [E2 _].
  assert (lead (String c2 rest2) = S (lead rest2)) as Hl2.
  { cbn [lead]. replace (RuneSelf <=? byteVal c2) with true
      by (unfold locb, RuneSelf in *; lia). reflexivity. }
  destruct (Nat.leb sz 3); [cbn [snd]; lia|].
  destruct rest2 as [|c3 rest3];
    [change (index (String c (String c1 (String c2 EmptyString))) 3) with 0; cbn; lia|].
  change (index (String c (String c1 (String c2 (String c3 rest3)))) 3) with (byteVal c3).
  destruct ((byteVal c3 <? locb) || (hicb <? byteVal c3)) eqn:E3; [cbn; lia|].
  apply orb_false_iff in E3 as [E3 _].
  assert (lead (String c3 rest3) = S (lead rest3)) as Hl3.
  { cbn [lead]. replace (RuneSelf <=? byteVal c3) with true
      by (unfold locb, RuneSelf in *; lia). reflexivity. }
  cbn [snd]. lia.
Qed.

Section Lowering.
Context (table : Z -> Z).

Local Abbreviation lower := (Unicode.ToLower table).

(** The lowering of a run of ASCII bytes does not depend on what follows. *)
Lemma mapFrom_ascii (m b : string) :
  isASCII m = true ->
  mapFrom lower 0 (m +:+ b) = foldASCII m +:+ mapFrom lower 0 b.
Proof.
  induction m as [|c m IH]; intros Hm; [reflexivity|].
  cbn [isASCII] in Hm. apply andb_true_iff in Hm as [Hc Hm].
  change (String c m +:+ b) with (String c (m +:+ b)). cbn [mapFrom].
  rewrite (decode_ascii c _ Hc).
  destruct (lower_ascii_byte table c Hc) as [-> ->].
  cbn [Nat.sub]. rewrite IH by exact Hm. reflexivity.
Qed.

(** Nor on what comes before it: a rune never extends over an ASCII byte. *)
Lemma mapFrom_resync (a rest : string) : forall skip : nat,
  lead rest = 0%nat -> (skip <= lead (a +:+ rest))%nat ->
  exists a', mapFrom lower skip (a +:+ rest) = a' +:+ mapFrom lower 0 rest.
Proof.
  induction a as [|c a IH]; intros skip Hrest Hskip.
  - change (EmptyString +:+ rest) with rest in *.
    assert (skip = 0%nat) as -> by lia. now exists EmptyString.
  - change (String c a +:+ rest) with (String c (a +:+ rest)) in *.
    destruct skip as [|k]; cbn [mapFrom].
    + pose proof (decode_width c (a +:+ rest)) as [_ Hw].
      destruct (DecodeRuneInString (String c (a +:+ rest))) as [r w]. cbn [snd] in Hw.
      destruct (IH (w - 1)%nat Hrest Hw) as [a' ->].
      eexists. now rewrite <- append_assoc.
    + cbn [lead] in Hskip. revert Hskip. destruct (RuneSelf <=? byteVal c); intros Hskip; [|lia].
      apply (IH k Hrest). lia.
Qed.

Lemma lead_ascii (m b : string) : m <> EmptyString -> isASCII m = true -> lead (m +:+ b) = 0%nat.
Proof.
  destruct m as [|c m]; [contradiction|]. intros _ H. cbn [isASCII] in H.
  apply andb_true_iff in H as [H _].
  change (String c m +:+ b) with (String c (m +:+ b)). cbn [lead].
  now replace (RuneSelf <=? byteVal c) with false by lia.
Qed.

Lemma foldASCII_split (p x : string) : forall s,
  foldASCII s = p +:+ x -> exists a b, s = a +:+ b /\ foldASCII a = p /\ foldASCII b = x.
Proof.
  induction p as [|c p IH]; intros s H.
  - now exists EmptyString, s.
  - destruct s as [|d s]; [discriminate|].
    change (String (lowerByte d) (foldASCII s) = String c (p +:+ x)) in H.
    injection H as Hd H. destruct (IH s H) as (a & b & -> & Ha & Hb).
    exists (String d a), b. split; [reflexivity|]. split; [|exact Hb].
    cbn [foldASCII]. now rewrite Hd, Ha.
Qed.

(** An ASCII text that the fold of [A]-[Z] brings out in [s] is in
    [strings.ToLower(s)] as well, whatever else [s] holds. *)
Lemma ToLower_keeps_run (s p x q : string) :
  isASCII x = true -> foldASCII s = p +:+ x +:+ q ->
  exists p' q', ToLower table s = p' +:+ x +:+ q'.
Proof.
  intros Hx H. unfold ToLower. destruct (isASCII s); [now exists p, q|].
  destruct (foldASCII_split p (x +:+ q) s H) as (a & mb & -> & Ha & Hmb).
  destruct (foldASCII_split x q mb Hmb) as (m & b & -> & Hm & Hb).
  assert (isASCII m = true) as Hascii by (rewrite <- isASCII_foldASCII, Hm; exact Hx).
  unfold Map.
  destruct m as [|c m].
  - cbn in Hm. subst x. exists (mapFrom lower 0 (a +:+ EmptyString +:+ b)), EmptyString.
    change (EmptyString +:+ EmptyString) with EmptyString. now rewrite append_nil_r.
  - destruct (mapFrom_resync a (String c m +:+ b) 0) as [a' ->].
    + now apply lead_ascii.
    + lia.
    + rewrite mapFrom_ascii by exact Hascii. rewrite Hm. now exists a', (mapFrom lower 0 b).
Qed.


End Lowering.

Lemma indicators_ascii (indicator : string) :
  In indicator captchaIndicators -> isASCII indicator = true.
Proof.
  intros H. cbn in H.
  repeat (destruct H as [<-|H]; [reflexivity|]). destruct H.
Qed.

Lemma isCaptchaResponse_iff (table : Z -> Z) (body : string) :
  isCaptchaResponse table body = true
  <-> exists indicator p q,
        In indicator captchaIndicators
        /\ ToLower table body = p +:+ indicator +:+ q.
Proof.
  unfold isCaptchaResponse. rewrite existsb_exists. split.
  - intros (indicator & Hin & Hc). apply Contains_spec in Hc as (p & q & Hc). eauto.
  - intros (indicator & p & q & Hin & Hc). exists indicator. split; [exact Hin|].
    apply Contains_spec. eauto.
Qed.

Lemma isCaptchaResponse_fold (table : Z -> Z) (body indicator p q : string) :
  In indicator captchaIndicators -> foldASCII body = p +:+ indicator +:+ q ->
  isCaptchaResponse table body = true.
Proof.
  intros Hin Hbody. apply isCaptchaResponse_iff.
  destruct (ToLower_keeps_run table body p indicator q (indicators_ascii _ Hin) Hbody)
    as (p' & q' & H).
  now exists indicator, p', q'.
Qed.


Section PublicDetector.
Context (env : Env).

(** X8. When the public endpoint answers with status 200 and a body that
    holds an indicator anywhere, in any letter case, [Search] returns the
    blocking error with no result and records an abuse signal, whatever the
    body decodes to: the payload is not looked at. *)
Theorem Search_indicator_discards_payload (f : PublicJSONFetcher.t) (query : string)
    (limit matchTime : Z) (w : World) (resp : Response) (indicator p q : string) :
  (0 <= Limiter.userAgentIndex (PublicJSONFetcher.rateLimiter f) < 5) ->
  (forall req, Do env (log w) req = inr resp) ->
  StatusCode resp = StatusOK -> ReadErr resp = None ->
  In indicator captchaIndicators ->
  foldASCII (Body resp) = p +:+ indicator +:+ q ->
  exists f' w',
    PublicJSONFetcher.Search env f query limit matchTime w
    = Some (([], Some blockedError), f', w')
    /\ abuseRecorded (PublicJSONFetcher.rateLimiter f) (PublicJSONFetcher.rateLimiter f')
         (clock w').
Proof.
  intros Hi Hdo Hok Hrd Hin Hbody.
  destruct (SearchFacts.public_Search_outcomes env f query limit matchTime w Hi)
    as (res & f' & w' & req & Hs & _ & _ & _ & Hresp).
  destruct (Hresp resp (Hdo _)) as (Hch & _).
  assert (challenge env resp = true) as Hc.
  { unfold challenge. rewrite Hok, Hrd, Z.eqb_refl. cbn [andb].
    now apply (isCaptchaResponse_fold _ _ indicator p q). }
  rewrite Hc in Hch. destruct Hch as [-> Hab]. now exists f', w'.
Qed.

End PublicDetector.

Lemma Search_indicator_discards_payload_witness :
  let body := "{ title: Automated offside decision in Arsenal v Chelsea }"%string in
  decodeSearch (serverEnv 200 body) body = inr [mediaHit; discussionHit]
  /\ exists f' w',
       PublicJSONFetcher.Search (serverEnv 200 body) freshPublic "Arsenal Chelsea 23'" 15
         kickoff startWorld
       = Some (([], Some blockedError), f', w')
       /\ abuseRecorded (PublicJSONFetcher.rateLimiter freshPublic)
            (PublicJSONFetcher.rateLimiter f') (clock w').
Proof.
  intros body. split; [reflexivity|].
  apply (Search_indicator_discards_payload (serverEnv 200 body) freshPublic
           "Arsenal Chelsea 23'" 15 kickoff startWorld (mkResponse 200 body None)
           "automated" "{ title: " " offside decision in arsenal v chelsea }").
  - cbn. lia.
  - reflexivity.
  - reflexivity.
  - reflexivity.
  - cbn. tauto.
  - reflexivity.
Defined.

End DetectorMore.

(** * Further properties of the public fetcher *)

Module PublicMore.
Import GoTime Http Limiter LimiterSpec SessionSpec.

Lemma getNextUserAgent_fields (r r' : rateLimiter) (agent : string) :
  getNextUserAgent r = Some (agent, r') ->
  lastRequest r' = lastRequest r /\ minInterval r' = minInterval r
  /\ captchaCount r' = captchaCount r /\ lastCaptchaTime r' = lastCaptchaTime r.
Proof.
  unfold getNextUserAgent. destruct (_ && _); [|discriminate].
  destruct (userAgents !! _); [|discriminate]. cbn. intros [= _ <-]. now repeat split.
Qed.

Lemma agentAt_mod (k : nat) : agentAt (k mod 5) = agentAt k.
Proof. unfold agentAt. now rewrite Nat.Div0.mod_mod. Qed.

Lemma search_window (t : Z) :
  startTime t = Unix t - 86400 /\ endTime t = Unix t + 172800.
Proof.
  unfold endTime, startTime, Unix, Hour, Minute, Second. split.
  - replace (t + -24 * (60 * (60 * 1000000000))) with (t + (-86400) * 1000000000) by lia.
    rewrite Z.div_add by lia. lia.
  - replace (t + 48 * (60 * (60 * 1000000000))) with (t + 172800 * 1000000000) by lia.
    rewrite Z.div_add by lia. lia.
Qed.

Section Session.
Context (env : Env).

(** One call, whatever the answer: the request it sends, and the limiter it
    leaves. *)
Lemma Search_shape (f : PublicJSONFetcher.t) (call : Call) (w : World) (k : nat)
    (rl' : rateLimiter) :
  let waited := wait (PublicJSONFetcher.rateLimiter f) (clock w) in
  getNextUserAgent waited.1 = Some (agentAt k, rl') ->
  exists res f',
    PublicJSONFetcher.Search env f (query call) (limit call) (matchTime call) w
    = Some (res, f', mkWorld waited.2 (log w ++ [requestOf k call]))
    /\ PublicJSONFetcher.userAgent f' = PublicJSONFetcher.userAgent f
    /\ (PublicJSONFetcher.rateLimiter f' = rl'
        \/ PublicJSONFetcher.rateLimiter f' = recordCaptchaError rl' waited.2).
Proof.
  intros waited Hg. unfold PublicJSONFetcher.Search. fold waited.
  destruct waited as [rl now]. cbn [fst snd] in *. rewrite Hg. cbn [mbind option_bind].
  fold (requestOf k call).
  destruct (Do env (log w) (requestOf k call)) as [err|resp]; [eexists _, _; eauto|].
  destruct (negb _); [eexists _, _; eauto|].
  destruct (ReadErr resp); [eexists _, _; eauto|].
  destruct (isCaptchaResponse _); [eexists _, _; eauto|].
  destruct (decodeSearch env _); [|eexists _, _; eauto].
  destruct (_ || _); eexists _, _; eauto.
Qed.

Lemma Search_step (f : PublicJSONFetcher.t) (call : Call) (w : World) (k : nat) (c : Z) :
  userAgentIndex (PublicJSONFetcher.rateLimiter f) = Z.of_nat (k mod 5) ->
  Inv 5 c (PublicJSONFetcher.rateLimiter f) (clock w) -> c < maxDuration ->
  exists res f' w',
    PublicJSONFetcher.Search env f (query call) (limit call) (matchTime call) w
    = Some (res, f', w')
    /\ log w' = log w ++ [requestOf k call]
    /\ userAgentIndex (PublicJSONFetcher.rateLimiter f') = Z.of_nat (S k mod 5)
    /\ Inv 5 (c + 1) (PublicJSONFetcher.rateLimiter f') (clock w')
    /\ lastRequest (PublicJSONFetcher.rateLimiter f') = clock w'
    /\ lastRequest (PublicJSONFetcher.rateLimiter f) + Minute ÷ 5 <= clock w'
    /\ clock w <= clock w'
    /\ PublicJSONFetcher.userAgent f' = PublicJSONFetcher.userAgent f.
Proof.
  intros Hidx HInv Hc.
  pose proof (LimiterFacts.wait_spec 5 c _ (clock w) ltac:(lia) HInv) as Hw. cbv zeta in Hw.
  pose proof (LimiterFacts.wait_Inv 5 c _ (clock w) ltac:(lia) HInv) as HInv1.
  pose proof (LimiterMore.enforced_range 5 (PublicJSONFetcher.rateLimiter f) (clock w)
                ltac:(lia)) as He.
  set (waited := wait (PublicJSONFetcher.rateLimiter f) (clock w)) in *.
  destruct (LimiterFacts.getNextUserAgent_at waited.1 (k mod 5)) as (rl' & Hg & Hidx').
  { rewrite Hw. exact Hidx. }
  { apply Nat.mod_upper_bound. lia. }
  rewrite agentAt_mod in Hg.
  destruct (getNextUserAgent_fields _ _ _ Hg) as (Hf1 & Hf2 & Hf3 & Hf4).
  destruct (Search_shape f call w k rl' Hg) as (res & f' & Hs & Hua & Hrl).
  fold waited in Hs.
  assert (S (k mod 5) mod 5 = S k mod 5)%nat as Hmod.
  { replace (S (k mod 5)) with (k mod 5 + 1)%nat by lia.
    rewrite Nat.Div0.add_mod_idemp_l. f_equal. lia. }
  rewrite Hmod in Hidx'.
  assert (Inv 5 c rl' waited.2) as HInv2.
  { destruct HInv1 as (H1 & H2 & H3 & H4). unfold Inv. now rewrite Hf1, Hf2, Hf3, Hf4. }
  assert (lastRequest rl' = waited.2) as Hlast by (rewrite Hf1, Hw; reflexivity).
  assert (waited.2 = Z.max (clock w)
                       (lastRequest (PublicJSONFetcher.rateLimiter f)
                        + enforced 5 (PublicJSONFetcher.rateLimiter f) (clock w))) as Hnow
    by (rewrite Hw; reflexivity).
  exists res, f', (mkWorld waited.2 (log w ++ [requestOf k call])).
  split; [exact Hs|]. split; [reflexivity|]. cbn [clock].
  destruct Hrl as [-> | ->].
  - split; [exact Hidx'|]. split; [|repeat split; try assumption; lia].
    apply (LimiterFacts.Inv_mono 5 c (c + 1) rl' waited.2 waited.2); [lia|lia|exact HInv2].
  - cbn [recordCaptchaError userAgentIndex lastRequest].
    split; [exact Hidx'|]. split; [|repeat split; try assumption; lia].
    now apply LimiterFacts.recordCaptchaError_Inv.
Qed.

Lemma searchAll_from (calls : list Call) : forall (k : nat) (c : Z)
    (f : PublicJSONFetcher.t) (w : World),
  userAgentIndex (PublicJSONFetcher.rateLimiter f) = Z.of_nat (k mod 5) ->
  Inv 5 c (PublicJSONFetcher.rateLimiter f) (clock w) ->
  Forall (fun call => 0 <= idle call) calls ->
  c + Z.of_nat (length calls) <= maxDuration ->
  exists out f' w',
    searchAll env calls f w = Some (out, f', w')
    /\ length out = length calls
    /\ log w' = log w ++ imap (fun i => requestOf (k + i)) calls
    /\ spaced (Minute ÷ 5) (lastRequest (PublicJSONFetcher.rateLimiter f) :: out.*2)
    /\ Forall (fun t => clock w <= t) out.*2
    /\ PublicJSONFetcher.userAgent f' = PublicJSONFetcher.userAgent f.
Proof.
  induction calls as [|call rest IH]; intros k c f w Hidx HInv Hidle Hlen.
  - exists [], f, w. cbn. rewrite app_nil_r. repeat split; constructor.
  - apply Forall_cons in Hidle as [Hcall Hrest]. cbn [length] in Hlen.
    set (w0 := mkWorld (clock w + idle call) (log w)).
    assert (Inv 5 c (PublicJSONFetcher.rateLimiter f) (clock w0)) as HInv0
      by (apply (LimiterFacts.Inv_mono 5 c c _ (clock w)); [lia|cbn; lia|exact HInv]).
    destruct (Search_step f call w0 k c Hidx HInv0 ltac:(lia))
      as (res & f1 & w1 & Hs & Hlog & Hidx1 & HInv1 & Hlast & Hgap & Hmono & Hua).
    destruct (IH (S k) (c + 1) f1 w1 Hidx1 HInv1 Hrest ltac:(lia))
      as (out & f2 & w2 & Hrun & Hout & Hlog2 & Hsp & Hge & Hua2).
    exists ((res, clock w1) :: out), f2, w2.
    cbn [searchAll]. fold w0. rewrite Hs. cbn [mbind option_bind]. rewrite Hrun.
    cbn [mbind option_bind]. split; [reflexivity|]. split; [cbn; now rewrite Hout|].
    split; [|split; [|split]].
    + rewrite Hlog2, Hlog. cbn [log w0]. rewrite <- app_assoc. cbn [app]. f_equal.
      cbn [imap]. rewrite Nat.add_0_r. f_equal. apply imap_ext. intros i x _.
      cbn. f_equal. lia.
    + cbn [fmap list_fmap snd]. rewrite Hlast in Hsp. cbn [spaced]. split; [exact Hgap|].
      exact Hsp.
    + cbn [fmap list_fmap snd]. cbn [clock w0] in Hmono. constructor; [lia|].
      eapply Forall_impl; [exact Hge|]. intros t Ht. cbn in Ht. lia.
    + now rewrite Hua2, Hua.
Qed.

End Session.

(** X9. A run of [Search] calls on the fetcher [NewPublicJSONFetcher]
    builds, with any idle time between the calls and whatever the server
    answers: every call returns and sends exactly one request, to the
    public host, with the arguments of the call and a three-day window
    from one day before the match; the request at position [k] carries
    the user agent at index [k mod 5], the answers playing no part in the
    rotation; and consecutive requests are sent at least twelve seconds
    apart, none before the call was made. *)
Theorem searchAll_session (env : Env) (f0 : PublicJSONFetcher.t) (calls : list Call)
    (w : World) :
  PublicJSONFetcher.NewPublicJSONFetcher = Some f0 ->
  zeroTime <= clock w ->
  Forall (fun call => 0 <= idle call) calls ->
  Z.of_nat (length calls) <= maxDuration ->
  exists out f w',
    searchAll env calls f0 w = Some (out, f, w')
    /\ length out = length calls
    /\ log w' = log w ++ imap requestOf calls
    /\ (forall k call, calls !! k = Some call ->
          exists req, requestOf k call = SearchReq req
            /\ Some (reqUserAgent req) = userAgents !! (k mod 5)%nat
            /\ reqStart req = Unix (matchTime call) - 86400
            /\ reqEnd req = Unix (matchTime call) + 172800)
    /\ spaced (12 * Second) out.*2
    /\ Forall (fun t => clock w <= t) out.*2.
Proof.
  intros Hnew Hclock Hidle Hlen.
  assert (f0 = SearchSpec.freshPublic) as ->
    by (rewrite SearchFacts.NewPublicJSONFetcher_fresh in Hnew; now injection Hnew).
  destruct (searchAll_from env calls 0 0 SearchSpec.freshPublic w eq_refl)
    as (out & f & w' & Hrun & Hout & Hlog & Hsp & Hge & _).
  { apply (LimiterFacts.newRateLimiter_Inv 5 _ (clock w)); [reflexivity|exact Hclock]. }
  { exact Hidle. }
  { lia. }
  exists out, f, w'. split; [exact Hrun|]. split; [exact Hout|]. split; [exact Hlog|].
  split; [|split; [|exact Hge]].
  - intros k call _. eexists. split; [reflexivity|]. cbn [reqUserAgent reqStart reqEnd].
    rewrite LimiterFacts.agentAt_lookup. split; [reflexivity|]. apply search_window.
  - cbn [spaced] in Hsp. destruct Hsp as [_ Hsp]. exact Hsp.
Qed.

Lemma searchAll_session_witness :
  exists out f w',
    searchAll (SearchSpec.serverEnv 200 "<html>Are you a robot?</html>") sampleCalls
      SearchSpec.freshPublic SearchSpec.startWorld = Some (out, f, w')
    /\ log w' = imap requestOf sampleCalls
    /\ spaced (12 * Second) out.*2.
Proof.
  destruct (searchAll_session (SearchSpec.serverEnv 200 "<html>Are you a robot?</html>")
              SearchSpec.freshPublic sampleCalls SearchSpec.startWorld)
    as (out & f & w' & Hrun & _ & Hlog & _ & Hsp & _).
  - reflexivity.
  - vm_compute. discriminate.
  - repeat constructor; vm_compute; discriminate.
  - vm_compute. discriminate.
  - exists out, f, w'. split; [exact Hrun|]. split; [exact Hlog|exact Hsp].
Defined.

End PublicMore.

(** * Further properties of the authenticated fetcher *)

Module OAuthMore.
Import GoTime Http OAuthClient OAuthSpec TokenSpec.

Lemma granted_grant (env : Env) (history : list Request) (req : Request) :
  granted env history req = if grant env history req is Some _ then true else false.
Proof.
  unfold granted, grant. destruct (Do env history req) as [err|resp]; [reflexivity|].
  destruct (StatusCode resp =? StatusOK); [|reflexivity]. cbn [andb].
  now destruct (if ReadErr resp is Some err then inl err else decodeOAuth env (Body resp)).
Qed.

Lemma setToken_released (c : t) (access refresh : string) (expiry : Z) :
  tokenMutex c = Unlocked ->
  setMutex Unlocked (setToken access refresh expiry (setMutex WLocked c))
  = setToken access refresh expiry c.
Proof. destruct c. cbn. now intros ->. Qed.

Section Token.
Context (env : Env).

Lemma IsAvailable_free (c : t) (w : World) :
  tokenMutex c = Unlocked ->
  IsAvailable c w
  = Returned (negb (String.eqb (accessToken c) "") && (clock w <? tokenExpiry c)) c w.
Proof. destruct c. cbn. now intros ->. Qed.

Lemma authenticate_unlocked (c : t) (w : World) :
  tokenMutex c = Unlocked ->
  let w' := mkWorld (clock w) (log w ++ [authRequest c]) in
  match grant env (log w) (authRequest c) with
  | Some payload =>
      authenticate env c w
      = Returned None
          (setToken (AccessToken payload) (RefreshToken payload)
             (clock w + wrap64 (ExpiresIn payload * Second)) c) w'
  | None => exists err, authenticate env c w = Returned (Some err) c w'
  end.
Proof.
  intros Hm w'. unfold grant, authenticate, bind, get, doRequest. fold (authRequest c).
  destruct (Do env (log w) (authRequest c)) as [err|resp]; [eexists; reflexivity|].
  destruct (StatusCode resp =? StatusOK); cbn [negb]; [|eexists; reflexivity].
  destruct (if ReadErr resp is Some err then inl err else decodeOAuth env (Body resp))
    as [err|payload]; [eexists; reflexivity|].
  unfold Lock, now, modify, Unlock, ret. rewrite Hm. cbn [tokenMutex setMutex setToken].
  unfold expiryAt. cbn [clock]. f_equal. destruct c. cbn in *. now subst.
Qed.

(** X10. [authenticate] on a client whose lock is free always returns,
    after exactly one request, the password grant.  When the endpoint
    grants it, the result is nil and the client holds the access token, the
    refresh token and the expiry of the payload, with the lock free again;
    otherwise the result is an error and the client is unchanged.  A nil
    result does not make the client available: that takes a payload with a
    token that is not empty and a lifetime that is positive. *)
Theorem authenticate_free_lock (c : t) (w : World) :
  tokenMutex c = Unlocked ->
  let w' := mkWorld (clock w) (log w ++ [authRequest c]) in
  match grant env (log w) (authRequest c) with
  | Some payload =>
      let c' := setToken (AccessToken payload) (RefreshToken payload)
                  (clock w + wrap64 (ExpiresIn payload * Second)) c in
      authenticate env c w = Returned None c' w'
      /\ tokenMutex c' = Unlocked
      /\ IsAvailable c' w'
         = Returned (negb (String.eqb (AccessToken payload) "")
                     && (0 <? wrap64 (ExpiresIn payload * Second))) c' w'
  | None => exists err, authenticate env c w = Returned (Some err) c w'
  end.
Proof.
  intros Hm w'. pose proof (authenticate_unlocked c w Hm) as H. cbv zeta in H. fold w' in H.
  destruct (grant env (log w) (authRequest c)) as [payload|]; [|exact H].
  cbv zeta. split; [exact H|]. split; [exact Hm|].
  rewrite IsAvailable_free by exact Hm. cbn [accessToken tokenExpiry setToken clock w'].
  set (life := wrap64 _).
  now replace (clock w <? clock w + life) with (0 <? life) by lia.
Qed.

(** X11. [refreshToken] on a client whose lock is free always returns,
    after exactly one request, the refresh grant for the refresh token
    held.  When the endpoint grants it, the client takes the access token
    and the expiry of the payload and keeps the refresh token it had
    unless the payload brings a new one, so a refresh never loses the
    refresh token; otherwise the result is an error and the client is
    unchanged. *)
Theorem refreshToken_free_lock (c : t) (w : World) :
  tokenMutex c = Unlocked ->
  let w' := mkWorld (clock w) (log w ++ [refreshRequest c]) in
  match grant env (log w) (refreshRequest c) with
  | Some payload =>
      let kept := if String.eqb (RefreshToken payload) "" then refreshTokenValue c
                  else RefreshToken payload in
      refreshToken env c w
      = Returned None
          (setToken (AccessToken payload) kept
             (clock w + wrap64 (ExpiresIn payload * Second)) c) w'
      /\ (refreshTokenValue c <> ""%string -> kept <> ""%string)
  | None => exists err, refreshToken env c w = Returned (Some err) c w'
  end.
Proof.
  intros Hm w'. unfold grant, refreshToken, bind, get, doRequest. fold (refreshRequest c).
  destruct (Do env (log w) (refreshRequest c)) as [err|resp]; [eexists; reflexivity|].
  destruct (StatusCode resp =? StatusOK); cbn [negb]; [|eexists; reflexivity].
  destruct (if ReadErr resp is Some err then inl err else decodeOAuth env (Body resp))
    as [err|payload]; [eexists; reflexivity|].
  cbv zeta. unfold Lock, now, modify, Unlock, ret. rewrite Hm. cbn [tokenMutex setMutex setToken].
  split.
  - unfold expiryAt. cbn [clock]. f_equal. destruct c. cbn in *. now subst.
  - intros Hheld. destruct (String.eqb_spec (RefreshToken payload) ""); assumption.
Qed.

Lemma ensureValidToken_ends (c : t) (w : World) :
  tokenMutex c = Unlocked ->
  match ensureValidToken env c w with
  | Returned err c' w' => c' = c /\ (err = None <-> fresh c w = true)
  | Blocked c' w' => c' = setMutex WLocked c
  | Fatal => False
  end.
Proof.
  intros Hm. pose proof (OAuthFacts.ensureValidToken_cases env c w Hm) as H. cbv zeta in H.
  destruct (fresh c w).
  { rewrite H. now repeat split. }
  destruct (String.eqb (refreshTokenValue c) "").
  { destruct (granted env (log w) (authRequest c)); [|destruct H as [err H]];
      rewrite H; [reflexivity|]. split; [reflexivity|]. split; discriminate. }
  destruct (granted env (log w) (refreshRequest c)); [now rewrite H|].
  destruct (granted env (log w ++ _) (authRequest c)); [|destruct H as [err H]];
    rewrite H; [reflexivity|]. split; [reflexivity|]. split; discriminate.
Qed.

(** X12. [ensureValidToken] on a client whose lock is free never renews
    the token.  It returns nil exactly when the token is held and five
    minutes or more from expiry; when it returns at all the client is as
    it was and the clock has not moved; and when it does not return, a
    renewal was due and the endpoint granted the last token request made,
    the call then waiting for the write lock it holds itself. *)
Theorem ensureValidToken_never_renews (c : t) (w : World) :
  tokenMutex c = Unlocked ->
  match ensureValidToken env c w with
  | Returned err c' w' =>
      c' = c /\ clock w' = clock w /\ (err = None <-> fresh c w = true)
  | Blocked c' w' =>
      c' = setMutex WLocked c /\ fresh c w = false
      /\ exists reqs req, log w' = log w ++ reqs ++ [req]
                          /\ granted env (log w ++ reqs) req = true
  | Fatal => False
  end.
Proof.
  intros Hm. pose proof (OAuthFacts.ensureValidToken_cases env c w Hm) as H. cbv zeta in H.
  destruct (fresh c w).
  { rewrite H. now repeat split. }
  destruct (String.eqb (refreshTokenValue c) "").
  { destruct (granted env (log w) (authRequest c)) eqn:Hg; [|destruct H as [err H]];
      rewrite H.
    - split; [reflexivity|]. split; [reflexivity|]. exists [], (authRequest c).
      cbn [log app]. now rewrite app_nil_r.
    - split; [reflexivity|]. split; [reflexivity|]. split; discriminate. }
  destruct (granted env (log w) (refreshRequest c)) eqn:Hg.
  { rewrite H. split; [reflexivity|]. split; [reflexivity|]. exists [], (refreshRequest c).
    cbn [log app]. now rewrite app_nil_r. }
  destruct (granted env (log w ++ _) (authRequest c)) eqn:Hg2; [|destruct H as [err H]];
    rewrite H.
  - split; [reflexivity|]. split; [reflexivity|].
    exists [refreshRequest c], (authRequest c). cbn [log]. split; [|exact Hg2].
    now rewrite <- app_assoc.
  - split; [reflexivity|]. split; [reflexivity|]. split; discriminate.
Qed.

Lemma wait_forward (r : Limiter.rateLimiter) (t : Z) : t <= (Limiter.wait r t).2.
Proof. unfold Limiter.wait, Sleep. cbn [snd]. destruct (_ <? _); lia. Qed.

(** X13. [Search] on a client whose lock is free and whose token is absent
    or less than five minutes from expiry never sends a search request:
    it returns the error of the token validation or does not return.
    [IsAvailable] still answers true until the expiry itself, so during
    the last five minutes of a token the client is reported available
    while no search of it can succeed. *)
Theorem Search_renewal_due (c : t) (w : World) (query : string) (limit matchTime : Z) :
  tokenMutex c = Unlocked ->
  accessToken c = ""%string \/ tokenExpiry c - 5 * Minute < clock w ->
  let r := Search env query limit matchTime c w in
  match r with
  | Returned res c' w' => exists err, res = ([], Some ("token validation failed: " +:+ err))
  | Blocked c' w' => tokenMutex c' = WLocked
  | Fatal => False
  end
  /\ List.filter isSearch (issued w r) = []
  /\ (accessToken c <> ""%string -> clock w < tokenExpiry c ->
      IsAvailable c w = Returned true c w).
Proof.
  intros Hm Hdue r. split; [|split].
  3:{ intros Ha Hc. rewrite IsAvailable_free by exact Hm.
      apply String.eqb_neq in Ha. rewrite Ha. cbn [negb andb]. do 2 f_equal. lia. }
  all: subst r; unfold Search, bind at 1, waitLimiter;
    pose proof (wait_forward (rateLimiter c) (clock w)) as Hfwd;
    destruct (Limiter.wait (rateLimiter c) (clock w)) as [rl t1] eqn:Ew; cbn [snd] in Hfwd;
    set (c1 := setLimiter rl c); set (w1 := mkWorld t1 (log w));
    pose proof (ensureValidToken_ends c1 w1 Hm) as Hev;
    pose proof (OAuthFacts.ensureValidToken_issued env c1 w1 Hm) as Hiss;
    assert (fresh c1 w1 = false) as Hf
      by (unfold fresh; cbn [accessToken tokenExpiry c1 setLimiter clock w1];
          destruct Hdue as [-> | Hdue]; [reflexivity|];
          apply andb_false_iff; right; lia);
    rewrite Hf in Hev, Hiss; unfold bind at 1;
    destruct (ensureValidToken env c1 w1) as [err c2 w2|c2 w2|] eqn:Eev.
  - destruct Hev as (-> & Herr). destruct err as [err|].
    + cbn [ret]. now exists err.
    + pose proof (proj1 Herr eq_refl). discriminate.
  - subst c2. reflexivity.
  - exact Hev.
  - destruct Hev as (-> & Herr). destruct err as [err|].
    2:{ pose proof (proj1 Herr eq_refl). discriminate. }
    unfold ret, issued, w1 in *. cbn [logOf log] in *. rewrite Hiss.
    destruct (String.eqb (refreshTokenValue c1) ""); [reflexivity|].
    now destruct (granted env (log w) (refreshRequest c1)).
  - unfold issued, w1 in *. cbn [logOf log] in *. rewrite Hiss.
    destruct (String.eqb (refreshTokenValue c1) ""); [reflexivity|].
    now destruct (granted env (log w) (refreshRequest c1)).
  - destruct Hev.
Qed.

End Token.

Lemma authenticate_free_lock_witness :
  let c := sampleClient "" in
  let w := mkWorld 0 [] in
  exists c', authenticate grantingEnv c w = Returned None c' (mkWorld 0 [authRequest c])
             /\ accessToken c' = "new-token"%string
             /\ tokenExpiry c' = Hour
             /\ IsAvailable c' (mkWorld 0 [authRequest c])
                = Returned true c' (mkWorld 0 [authRequest c]).
Proof.
  intros c w. pose proof (authenticate_free_lock grantingEnv c w eq_refl) as H.
  cbv zeta in H. change (grant grantingEnv (log w) (authRequest c))
    with (Some (mkOAuthResponse "new-token" "" 3600 "bearer")) in H.
  destruct H as (Ha & _ & Hav). eexists. split; [exact Ha|].
  split; [reflexivity|]. split; [reflexivity|]. exact Hav.
Defined.

Lemma refreshToken_free_lock_witness :
  let c := sampleClient "r1" in
  let w := mkWorld 0 [] in
  exists c', refreshToken grantingEnv c w = Returned None c' (mkWorld 0 [refreshRequest c])
             /\ accessToken c' = "new-token"%string
             /\ refreshTokenValue c' = "r1"%string.
Proof.
  intros c w. pose proof (refreshToken_free_lock grantingEnv c w eq_refl) as H.
  cbv zeta in H. change (grant grantingEnv (log w) (refreshRequest c))
    with (Some (mkOAuthResponse "new-token" "" 3600 "bearer")) in H.
  destruct H as (Ha & _). eexists. split; [exact Ha|]. split; reflexivity.
Defined.

Lemma ensureValidToken_never_renews_witness :
  let c := sampleClient "r1" in
  let w := mkWorld (6 * Minute) [] in
  ensureValidToken grantingEnv c w
  = Blocked (setMutex WLocked c) (mkWorld (6 * Minute) [refreshRequest c])
  /\ fresh c w = false.
Proof.
  intros c w. pose proof (ensureValidToken_never_renews grantingEnv c w eq_refl) as H.
  change (ensureValidToken grantingEnv c w)
    with (Blocked (A := option error) (setMutex WLocked c)
            (mkWorld (6 * Minute) [refreshRequest c])) in H.
  destruct H as (_ & Hf & _). split; [reflexivity|exact Hf].
Defined.

Lemma Search_renewal_due_witness :
  let c := sampleClient "" in
  let w := mkWorld (6 * Minute) [] in
  (exists c' w' err,
     Search refusingEnv "Arsenal Chelsea 23'" 15 SearchSpec.kickoff c w
     = Returned ([], Some ("token validation failed: " +:+ err)) c' w')
  /\ IsAvailable c w = Returned true c w.
Proof.
  intros c w.
  destruct (Search_renewal_due refusingEnv c w "Arsenal Chelsea 23'" 15 SearchSpec.kickoff)
    as (Hres & _ & Hav).
  - reflexivity.
  - right. vm_compute. reflexivity.
  - split.
    + destruct (Search refusingEnv "Arsenal Chelsea 23'" 15 SearchSpec.kickoff c w)
        as [res c' w'|c' w'|] eqn:Es.
      * destruct Hres as [err ->]. now exists c', w', err.
      * vm_compute in Es. discriminate.
      * destruct Hres.
    + apply Hav; [discriminate|vm_compute; reflexivity].
Defined.

End OAuthMore.

(** * Properties of the constructors *)

Module ConstructMore.
Import GoTime Http OAuthClient TokenSpec Constructors.

Lemma configured_false (getenv : string -> string) :
  configured (readCredentials getenv)
  = negb (String.eqb (getenv "REDDIT_CLIENT_ID") "" || String.eqb (getenv "REDDIT_CLIENT_SECRET") ""
          || String.eqb (getenv "REDDIT_USERNAME") "" || String.eqb (getenv "REDDIT_PASSWORD") "").
Proof. unfold configured, readCredentials. cbn. now rewrite !negb_orb. Qed.

Lemma NewOAuthClient_parts (env : Env) (getenv : string -> string) (w : World) :
  let cr := readCredentials getenv in
  let w' := mkWorld (clock w) (log w ++ [loginRequest cr]) in
  if configured cr then
    match grant env (log w) (loginRequest cr) with
    | Some payload =>
        NewOAuthClient env getenv w
        = Some ((Some (mk (credID cr) (credSecret cr) (credUser cr) (credPassword cr)
                         (AccessToken payload) (RefreshToken payload)
                         (clock w + wrap64 (ExpiresIn payload * Second)) Unlocked
                         (Limiter.mkRateLimiter zeroTime (6 * Second) 0 zeroTime 0)),
                 None), w')
    | None =>
        exists err,
          NewOAuthClient env getenv w
          = Some ((None, Some ("OAuth authentication failed: " +:+ err)), w')
    end
  else NewOAuthClient env getenv w = Some ((None, None), w).
Proof.
  intros cr w'. unfold cr at 1. rewrite configured_false. unfold NewOAuthClient.
  destruct (_ || _); cbn [negb]; [reflexivity|].
  change (Limiter.newRateLimiter 10)
    with (Some (Limiter.mkRateLimiter zeroTime (6 * Second) 0 zeroTime 0)).
  cbn [mbind option_bind].
  set (client := mk _ _ _ _ _ _ _ _ _).
  pose proof (OAuthMore.authenticate_unlocked env client w eq_refl) as Ha. cbv zeta in Ha.
  change (OAuthSpec.authRequest client) with (loginRequest cr) in Ha. fold w' in Ha.
  destruct (grant env (log w) (loginRequest cr)) as [payload|].
  - now rewrite Ha.
  - destruct Ha as [err ->]. now exists err.
Qed.

(** X14. [NewOAuthClient] always returns.  Unless all four credentials
    are set it returns no client and no error, without any request, so a
    partial configuration passes in silence.  With all four set it makes
    exactly one request, the password grant for them: if the endpoint
    grants it, the client returned holds the credentials, the token, the
    refresh token and the expiry of the payload, a free lock and a limiter
    of one request per six seconds, and it is available only if the token
    is not empty and its lifetime positive; if not, no client is returned
    and the error starts with the text of the failed authentication. *)
Theorem NewOAuthClient_outcomes (env : Env) (getenv : string -> string) (w : World) :
  let cr := readCredentials getenv in
  let w' := mkWorld (clock w) (log w ++ [loginRequest cr]) in
  if configured cr then
    match grant env (log w) (loginRequest cr) with
    | Some payload =>
        let c := mk (credID cr) (credSecret cr) (credUser cr) (credPassword cr)
                   (AccessToken payload) (RefreshToken payload)
                   (clock w + wrap64 (ExpiresIn payload * Second)) Unlocked
                   (Limiter.mkRateLimiter zeroTime (6 * Second) 0 zeroTime 0) in
        NewOAuthClient env getenv w = Some ((Some c, None), w')
        /\ IsAvailable c w'
           = Returned (negb (String.eqb (AccessToken payload) "")
                       && (0 <? wrap64 (ExpiresIn payload * Second))) c w'
    | None =>
        exists err,
          NewOAuthClient env getenv w
          = Some ((None, Some ("OAuth authentication failed: " +:+ err)), w')
    end
  else NewOAuthClient env getenv w = Some ((None, None), w).
Proof.
  intros cr w'. pose proof (NewOAuthClient_parts env getenv w) as H. cbv zeta in H.
  fold cr w' in H. destruct (configured cr); [|exact H].
  destruct (grant env (log w) (loginRequest cr)) as [payload|]; [|exact H].
  cbv zeta. split; [exact H|].
  rewrite OAuthMore.IsAvailable_free by reflexivity. cbn [accessToken tokenExpiry clock w'].
  set (life := wrap64 _).
  now replace (clock w <? clock w + life) with (0 <? life) by lia.
Qed.

(** X15. [NewClient] always returns.  A cache that cannot be created
    ends it before any request.  Without the full credentials the client
    has the public fetcher alone and no request is made.  With them, a
    granted authentication gives a client with both fetchers, and a
    refused one gives no client at all: the public fetcher is not fallen
    back upon.  The public fetcher of every client returned is the one
    [NewPublicJSONFetcher] builds, and the cache the one that was
    created. *)
Theorem NewClient_outcomes (env : Env) (getenv : string -> string)
    (NewGoalLinkCache : error + GoalLinkCache.t) (w : World) :
  let cr := readCredentials getenv in
  let w' := mkWorld (clock w) (log w ++ [loginRequest cr]) in
  let r := NewClient env getenv NewGoalLinkCache w in
  match NewGoalLinkCache with
  | inl err => r = Some ((None, Some ("create cache: " +:+ err)), w)
  | inr cache =>
      if configured cr then
        match grant env (log w) (loginRequest cr) with
        | Some payload =>
            exists o,
              r = Some ((Some (mkClient (Some o) SearchSpec.freshPublic cache), None), w')
              /\ accessToken o = AccessToken payload
              /\ tokenMutex o = Unlocked
        | None =>
            exists err,
              r = Some ((None,
                         Some ("OAuth client initialization failed: "
                               +:+ "OAuth authentication failed: " +:+ err)), w')
        end
      else r = Some ((Some (mkClient None SearchSpec.freshPublic cache), None), w)
  end.
Proof.
  intros cr w' r. subst r. unfold NewClient.
  destruct NewGoalLinkCache as [err|cache]; [reflexivity|].
  pose proof (NewOAuthClient_parts env getenv w) as H. cbv zeta in H. fold cr w' in H.
  destruct (configured cr).
  - destruct (grant env (log w) (loginRequest cr)) as [payload|].
    + rewrite H. cbn [mbind option_bind]. eexists. split; [reflexivity|]. now split.
    + destruct H as [err ->]. cbn [mbind option_bind]. now exists err.
  - now rewrite H.
Qed.

(** *** Sample configurations *)

Example NewClient_partial_credentials :
  NewClient OAuthSpec.grantingEnv (getenvOf (mkCredentials "id" "secret" "user" ""))
    (inr ∅) (mkWorld 0 [])
  = Some ((Some (mkClient None SearchSpec.freshPublic ∅), None),
          mkWorld 0 []).
Proof. reflexivity. Qed.

Example NewClient_refused_credentials :
  NewClient refusingEnv (getenvOf sampleCredentials) (inr ∅) (mkWorld 0 [])
  = Some ((None,
           Some "OAuth client initialization failed: OAuth authentication failed: auth failed with status 401: Unauthorized"%string),
          mkWorld 0 [loginRequest sampleCredentials]).
Proof. reflexivity. Qed.

End ConstructMore.
